(** * The Dreamer training driver ([src/main.py])

    A shallow embedding of the driver script: the configuration dataclass
    with its [__post_init__], and [main] with its prefill phase, its loop of
    1000 epochs (train, collect, log, test-and-checkpoint).

    The driver is effectful.  It is embedded in a small state-and-exception
    monad [M] over a [State] holding the file system, the opaque state of the
    collaborators, the local variable [total_env_steps] and a chronological
    log of the observable events.

    The collaborators the driver imports ([TrajectoryDataset], [Collector],
    [Dreamer], [DMCEnv], the torch [DataLoader]) are not part of the script.
    They appear as the class [Collaborators]: oracles over an opaque [World]
    that stands for the simulator, the agent's parameters and the random
    number generators.  The exceptions the script can meet in the model
    are: the errors of [os.makedirs], [StopIteration] from [next],
    [IndexError] from [data[0]], [ZeroDivisionError] from [%] and the
    [ValueError] with which the loader's constructor refuses an empty
    dataset or a batch size that is not positive.  Exceptions raised inside
    a collector, the simulator, the optimizer, the telemetry service or
    while an archive or a checkpoint is written are outside the model:
    every statement is about what the driver does as long as these calls
    return.

    The torch loader is modelled by its constructor's checks and by its
    iteration protocol: a fresh iterator yields as many batches as
    [len(dataloader)] says, the last one possibly partial, and then raises
    [StopIteration]. *)

From stdpp Require Import gmap strings list pretty.
From Stdlib Require Import ZArith Ascii.

(** ** [os.path.join] for two components (posixpath) *)

Module Path.

Definition starts_with_sep (s : string) : bool :=
  match s with
  | String c _ => bool_decide (c = "/"%char)
  | EmptyString => false
  end.

Fixpoint ends_with_sep (s : string) : bool :=
  match s with
  | EmptyString => false
  | String c EmptyString => bool_decide (c = "/"%char)
  | String _ s' => ends_with_sep s'
  end.

Definition is_empty (s : string) : bool :=
  match s with EmptyString => true | _ => false end.

(** [posixpath.join(a, b)]: an absolute [b] replaces [a]; otherwise [b] is
    appended, with a separator unless [a] is empty or already ends in one. *)
Definition join (a b : string) : string :=
  if starts_with_sep b then b
  else if is_empty a || ends_with_sep a then a +:+ b
  else a +:+ "/" +:+ b.

(** [p[:i], p[i:]] for [i = p.rfind("/") + 1]. *)
Fixpoint cut (s : string) : string * string :=
  match s with
  | EmptyString => (EmptyString, EmptyString)
  | String c s' =>
      let (h, t) := cut s' in
      if bool_decide (c = "/"%char) then (String c h, t)
      else
        match h with
        | EmptyString => (EmptyString, String c t)
        | _ => (String c h, t)
        end
  end.

(** [s == "/" * len(s)]. *)
Fixpoint all_sep (s : string) : bool :=
  match s with
  | EmptyString => true
  | String c s' => bool_decide (c = "/"%char) && all_sep s'
  end.

(** [s.rstrip("/")]. *)
Fixpoint rstrip_sep (s : string) : string :=
  match s with
  | EmptyString => EmptyString
  | String c s' =>
      match rstrip_sep s' with
      | EmptyString =>
          if bool_decide (c = "/"%char) then EmptyString else String c EmptyString
      | t => String c t
      end
  end.

(** [posixpath.split(p)]: everything up to the last separator, without its
    trailing separators unless it consists of separators, and the rest. *)
Definition split (p : string) : string * string :=
  let (head, tail) := cut p in
  (if negb (is_empty head) && negb (all_sep head) then rstrip_sep head else head,
   tail).

(** The first lines of [os.makedirs]:
    [head, tail = split(name)]; [if not tail: head, tail = split(head)]. *)
Definition split2 (name : string) : string * string :=
  let (head, tail) := split name in
  if is_empty tail then split head else (head, tail).

(** The components of a path, peeled off from the right with [split2]; a
    component [.] stands for the directory it is found in.  The fuel bounds
    the number of components by the length of the path. *)
Fixpoint components_upto (fuel : nat) (p : string) : list string :=
  match fuel with
  | O => []
  | S fuel' =>
      let (head, tail) := split2 p in
      if is_empty tail then []
      else if bool_decide (tail = ".") then components_upto fuel' head
      else components_upto fuel' head ++ [tail]
  end.

Definition components (p : string) : list string :=
  components_upto (S (String.length p)) p.

(** What a path names: whether it starts at the root, and its components.
    Repeated separators, trailing separators and [.] components make no
    difference; [..] and symbolic links are outside the model. *)
Definition key : Type := bool * list string.

Definition key_of (p : string) : key := (starts_with_sep p, components p).

End Path.

(** The last and the first character of a string, and the decimal digits. *)
Fixpoint last_char (s : string) : option ascii :=
  match s with
  | EmptyString => None
  | String c EmptyString => Some c
  | String _ s' => last_char s'
  end.

Definition head_char (s : string) : option ascii :=
  match s with
  | EmptyString => None
  | String c _ => Some c
  end.

Definition is_digit (c : ascii) : bool :=
  match Ascii.is_nat c with Some _ => true | None => false end.

(** ** The configuration dataclass *)

Record DreamerConfig := {
  domain_name : string;
  task_name : string;
  obs_image_size : Z * Z;
  action_repeats : Z;
  data_dir : string;
  model_dir : string;
  prefill_episodes : Z;
  batch_size : Z;
  batch_length : Z;
  training_steps : Z;
  training_device : string;
  test_every : Z;
  collector_device : string
}.

(** The class attribute [base_dir], an f-string over the class-body defaults
    of [domain_name] and [task_name]. *)
Definition base_dir : string :=
  "/home/scott/tmp/dreamer/" +:+ "cartpole" +:+ "_" +:+ "swingup" +:+ "/1/".

(** [DreamerConfig()] as [main] builds it: every field at its default. *)
Definition default_config : DreamerConfig := {|
  domain_name := "cartpole";
  task_name := "swingup";
  obs_image_size := (64, 64)%Z;
  action_repeats := 2;
  data_dir := Path.join base_dir "episodes";
  model_dir := Path.join base_dir "models";
  prefill_episodes := 0;
  batch_size := 50;
  batch_length := 50;
  training_steps := 100;
  training_device := "cuda";
  test_every := 25;
  collector_device := "cuda"
|}.

(** ** Exceptions and outcomes *)

(** The reasons, other than the state of the directories themselves, for
    which the operating system refuses to create a directory. *)
Inductive errno :=
| EACCES | EPERM | EROFS | ENOSPC | EDQUOT | EMLINK | ENAMETOOLONG | ELOOP | EIO.

Inductive exn :=
| FileExistsError (path : string)
| PermissionError (path : string)
| FileNotFoundError (path : string)
| NotADirectoryError (path : string)
| OSError (code : errno) (path : string)
| StopIteration
| IndexError
| ZeroDivisionError
| ValueError.

(** The subclass of [OSError] Python raises for an error number. *)
Definition os_error (code : errno) (path : string) : exn :=
  match code with
  | EACCES | EPERM => PermissionError path
  | _ => OSError code path
  end.

(** [isinstance(e, OSError)] and [isinstance(e, FileExistsError)]. *)
Definition is_OSError (e : exn) : bool :=
  match e with
  | FileExistsError _ | PermissionError _ | FileNotFoundError _
  | NotADirectoryError _ | OSError _ _ => true
  | _ => false
  end.

Definition is_FileExistsError (e : exn) : bool :=
  match e with FileExistsError _ => true | _ => false end.

Inductive outcome (A : Type) :=
| Ok (a : A)
| Raise (e : exn).
Arguments Ok {A} a.
Arguments Raise {A} e.

(** The two collectors [main] creates. *)
Inductive collector_id := TrainCollector | TestCollector.

(** ** The collaborators *)

(** Opaque data: what an episode, a batch, a parameter blob and the state of
    the outside world are is the collaborators' business. *)
Class Carriers := {
  Episode : Type;
  Batch : Type;
  Params : Type;
  World : Type
}.

Section Driver.

Context {T : Carriers}.

(** What [Collector.collect] returns: the episodes and the pair
    [(episode_count, total_env_steps)]; the per-episode statistics, which
    the driver always discards, are left out. *)
Record CollectResult := {
  cr_episodes : list Episode;
  cr_num_episodes : Z;
  cr_env_steps : Z
}.

(** A file is an episode archive, a checkpoint, or something the driver
    did not write. *)
Inductive File :=
| NpzFile (ep : Episode)
| PtFile (blob : Params)
| OtherFile.

(** The files, under the paths they were written at, and the directories,
    under what their paths name. *)
Record FileSystem := {
  files : gmap string File;
  dirs : gset Path.key
}.

(** [os.path.isdir(p)]: the root and the current directory always exist. *)
Definition isdir (f : FileSystem) (p : string) : bool :=
  negb (Path.is_empty p) &&
  match Path.components p with
  | [] => true
  | _ => bool_decide (Path.key_of p ∈ dirs f)
  end.

(** [os.path.exists(p)]. *)
Definition exists_ (f : FileSystem) (p : string) : bool :=
  isdir f p || bool_decide (is_Some (files f !! p)).

(** Modelled from the spec: [TrajectoryDataset] (data.py is not part of the
    script).  "On each construction, scans available records": the dataset
    holds the snapshot of the data directory taken when it is built. *)
Record Dataset := {
  ds_files : gmap string File;
  ds_batch_length : Z
}.

Record DataLoader := {
  dl_dataset : Dataset;
  dl_batch_size : Z
}.

(** A loader iterator: the loader and the number of batches drawn. *)
Record Iter := {
  it_loader : DataLoader;
  it_pos : nat
}.

Inductive log_value :=
| LInt (z : Z)
| LReturn (ep : Episode)     (* sum(data["reward"]) *)
| LVideo (ep : Episode).     (* wandb.Video of the denormalized frames *)

(** What the driver does that can be observed from outside; [EvEpoch] is
    the tick of the outer [trange] progress bar. *)
Inductive event :=
| EvMakedirs (path : string)
| EvWandbInit
| EvEnv
| EvDreamer
| EvCollector (c : collector_id)
| EvCollect (c : collector_id) (target : Z) (random : bool) (r : CollectResult)
| EvSavez (path : string) (ep : Episode)
| EvEpoch (i : nat)
| EvDataset (ds : Dataset)
| EvLoader (dl : DataLoader)
| EvIter
| EvNext (b : option Batch)
| EvTrainMode
| EvUpdate (b : Batch)
| EvResetAgent (c : collector_id)
| EvLog (entries : list (string * log_value))
| EvPrint (s : string)
| EvTorchSave (path : string) (blob : Params).

(** The oracles: [Collector.collect], [Dreamer.update], the assembly of the
    batch at a position of a loader iterator, [len(dataset)],
    [agent.state_dict()], and the operating system refusing, in a state of
    the file system, to create a directory (permissions, a read-only or full
    device, ...). *)
Class Collaborators := {
  collect_oracle : World → collector_id → Z → bool → CollectResult * World;
  update_oracle : World → Batch → World;
  fetch_oracle : World → Dataset → nat → Batch * World;
  dataset_len : Dataset → nat;
  state_dict : World → Params;
  os_refuses : FileSystem → string → option errno
}.

Context {C : Collaborators}.

(** ** Program state *)

Record State := {
  fs : FileSystem;
  world : World;
  total_env_steps : Z;
  log : list event        (* newest event first *)
}.

(** The events in the order they happened. *)
Definition trace (st : State) : list event := reverse (log st).

Definition init_state (f : FileSystem) (w : World) : State :=
  {| fs := f; world := w; total_env_steps := 0; log := [] |}.

(** ** The monad *)

Definition M (A : Type) : Type := State → outcome A * State.

Definition ret {A} (a : A) : M A := λ st, (Ok a, st).

Definition bind {A B} (m : M A) (k : A → M B) : M B := λ st,
  match m st with
  | (Ok a, st') => k a st'
  | (Raise e, st') => (Raise e, st')
  end.

Definition raise {A} (e : exn) : M A := λ st, (Raise e, st).

(** [try: body except StopIteration: handler]; any other exception
    passes through. *)
Definition try_except_StopIteration {A} (body handler : M A) : M A := λ st,
  match body st with
  | (Raise StopIteration, st') => handler st'
  | r => r
  end.

(** [try: body except E as e: handler], for the exceptions [catches]
    selects. *)
Definition try_except {A} (catches : exn → bool) (body : M A) (handler : exn → M A)
    : M A := λ st,
  match body st with
  | (Raise e, st') => if catches e then handler e st' else (Raise e, st')
  | r => r
  end.

Definition emit (e : event) : M unit := λ st,
  (Ok (), {| fs := fs st; world := world st;
             total_env_steps := total_env_steps st; log := e :: log st |}).

Definition get_fs : M FileSystem := λ st, (Ok (fs st), st).
Definition get_total : M Z := λ st, (Ok (total_env_steps st), st).
Definition get_world : M World := λ st, (Ok (world st), st).

Definition set_fs (f : FileSystem) : M unit := λ st,
  (Ok (), {| fs := f; world := world st;
             total_env_steps := total_env_steps st; log := log st |}).
Definition set_total (z : Z) : M unit := λ st,
  (Ok (), {| fs := fs st; world := world st;
             total_env_steps := z; log := log st |}).
Definition set_world (w : World) : M unit := λ st,
  (Ok (), {| fs := fs st; world := w;
             total_env_steps := total_env_steps st; log := log st |}).

Notation "'let*' x := m 'in' k" := (bind m (λ x, k))
  (at level 10, x pattern, m at level 100, k at level 200, only parsing).
Notation "m ;;; k" := (bind m (λ _, k))
  (at level 100, k at level 200, right associativity, only parsing).

(** [for i in range(n)], threading the loop-carried variables [a]. *)
Fixpoint for_range {A} (n : nat) (body : nat → A → M A) (a : A) : M A :=
  match n with
  | O => ret a
  | S n' => let* a' := for_range n' body a in body n' a'
  end.

(** ** The operating system and the libraries *)

(** [os.mkdir(path)].  The system may refuse for reasons of its own;
    otherwise the path must be new and its parent a directory. *)
Definition mkdir (path : string) : M unit :=
  let* f := get_fs in
  if Path.is_empty path then raise (FileNotFoundError path)
  else
    match os_refuses f path with
    | Some code => raise (os_error code path)
    | None =>
        match Path.components path with
        | [] => raise (FileExistsError path)
        | _ =>
            let parent := (Path.split2 path).1 in
            if bool_decide (is_Some (files f !! parent)) then
              raise (NotADirectoryError path)
            else if negb (Path.is_empty parent) && negb (isdir f parent) then
              raise (FileNotFoundError path)
            else if isdir f path
                    || bool_decide (is_Some (files f !! Path.rstrip_sep path)) then
              raise (FileExistsError path)
            else
              set_fs {| files := files f; dirs := {[Path.key_of path]} ∪ dirs f |}
        end
    end.

(** The last lines of [os.makedirs(name, exist_ok=True)]:
    [try: mkdir(name) except OSError: if not path.isdir(name): raise]. *)
Definition mkdir_exist_ok (name : string) : M unit :=
  try_except is_OSError (mkdir name)
    (λ e, let* f := get_fs in if isdir f name then ret () else raise e).

(** The body of [os.makedirs(name, exist_ok=True)]: the missing parents are
    made first, by the function itself, a [FileExistsError] of that call
    being passed over; after that a path ending in [.] is done, any other
    is made.  The recursion is on [head], which is shorter than [name];
    [fuel] bounds its depth. *)
Fixpoint makedirs_upto (fuel : nat) (name : string) : M unit :=
  let (head, tail) := Path.split2 name in
  let* f := get_fs in
  let* returned :=
    if negb (Path.is_empty head) && negb (Path.is_empty tail)
       && negb (exists_ f head) then
      match fuel with
      | O => ret false
      | S fuel' =>
          try_except is_FileExistsError (makedirs_upto fuel' head) (λ _, ret ()) ;;;
          ret (bool_decide (tail = "."))
      end
    else ret false in
  if (returned : bool) then ret () else mkdir_exist_ok name.

(** [os.makedirs(path, exist_ok=True)]. *)
Definition makedirs (path : string) : M unit :=
  makedirs_upto (String.length path) path ;;;
  emit (EvMakedirs path).

(** Opening [path] for writing and writing [c] to it, when it succeeds. *)
Definition write_file (path : string) (c : File) : M unit :=
  let* f := get_fs in
  set_fs {| files := <[path := c]> (files f); dirs := dirs f |}.

(** [np.savez_compressed(path, **data)]. *)
Definition savez_compressed (path : string) (ep : Episode) : M unit :=
  write_file path (NpzFile ep) ;;;
  emit (EvSavez path ep).

(** [torch.save(dreamer.agent.state_dict(), path)]. *)
Definition torch_save (path : string) : M unit :=
  let* w := get_world in
  write_file path (PtFile (state_dict w)) ;;;
  emit (EvTorchSave path (state_dict w)).

(** Modelled from the spec: the scan of the data directory by
    [TrajectoryDataset] (data.py is not part of the script).  The listing of
    a directory is the files whose path extends the directory's path with a
    separator. *)
Definition scan_dir (dir : string) (f : FileSystem) : gmap string File :=
  filter (λ kv, String.prefix (Path.join dir "") kv.1 = true) (files f).

(** Modelled from the spec: [TrajectoryDataset(data_dir, batch_length)]
    (data.py is not part of the script), "the underlying file set is
    re-scanned" on each construction. *)
Definition TrajectoryDataset (dir : string) (blen : Z) : M Dataset :=
  let* f := get_fs in
  let ds := {| ds_files := scan_dir dir f; ds_batch_length := blen |} in
  emit (EvDataset ds) ;;;
  ret ds.

(** [DataLoader(dataset, batch_size=..., shuffle=True, num_workers=10)].
    With [shuffle=True] the constructor builds a [RandomSampler] over the
    dataset, which refuses a dataset of length 0, and then a [BatchSampler],
    which refuses a batch size that is not positive; both with
    [ValueError]. *)
Definition new_DataLoader (ds : Dataset) (bs : Z) : M DataLoader :=
  if bool_decide (dataset_len ds = 0) then raise ValueError
  else if bool_decide (bs ≤ 0)%Z then raise ValueError
  else
    let dl := {| dl_dataset := ds; dl_batch_size := bs |} in
    emit (EvLoader dl) ;;;
    ret dl.

(** [len(dataloader)]: the last, partial batch is kept. *)
Definition len_loader (dl : DataLoader) : nat :=
  Z.to_nat ((Z.of_nat (dataset_len (dl_dataset dl)) + dl_batch_size dl - 1)
            `div` dl_batch_size dl).

(** [iter(dataloader)]: a fresh iterator, over a fresh shuffle. *)
Definition iter (dl : DataLoader) : M Iter :=
  emit EvIter ;;;
  ret {| it_loader := dl; it_pos := 0 |}.

(** [next(data_iter)]. *)
Definition next (it : Iter) : M (Batch * Iter) :=
  if bool_decide (it_pos it < len_loader (it_loader it)) then
    let* w := get_world in
    let '(b, w') := fetch_oracle w (dl_dataset (it_loader it)) (it_pos it) in
    set_world w' ;;;
    emit (EvNext (Some b)) ;;;
    ret (b, {| it_loader := it_loader it; it_pos := S (it_pos it) |})
  else
    emit (EvNext None) ;;;
    raise StopIteration.

(** [dreamer.update(obs, action, reward)]. *)
Definition dreamer_update (b : Batch) : M unit :=
  let* w := get_world in
  set_world (update_oracle w b) ;;;
  emit (EvUpdate b).

(** [collector.collect(target_num_episodes=n, random_action=random)].
    Both collectors hold the one agent object of [dreamer]. *)
Definition collect (c : collector_id) (n : Z) (random : bool) : M CollectResult :=
  let* w := get_world in
  let '(r, w') := collect_oracle w c n random in
  set_world w' ;;;
  emit (EvCollect c n random r) ;;;
  ret r.

(** ** The driver *)

Section WithConfig.

Variable config : DreamerConfig.

Definition post_init : M unit :=
  makedirs (data_dir config) ;;;
  makedirs (model_dir config).

Definition prefill_path (i : nat) : string :=
  Path.join (data_dir config) ("pre_" +:+ pretty i +:+ ".npz").

Definition episode_path (i : nat) : string :=
  Path.join (data_dir config) (pretty i +:+ ".npz").

Definition checkpoint_path (steps : Z) : string :=
  Path.join (model_dir config) (pretty steps +:+ ".pt").

(** [for i, data in enumerate(prefill_data): np.savez_compressed(...)],
    from index [i]. *)
Fixpoint save_prefill (i : nat) (eps : list Episode) : M unit :=
  match eps with
  | [] => ret ()
  | ep :: eps' =>
      savez_compressed (prefill_path i) ep ;;;
      save_prefill (S i) eps'
  end.

(** Lines 74-82. *)
Definition prefill : M unit :=
  set_total 0 ;;;
  emit (EvCollector TrainCollector) ;;;
  (if bool_decide (prefill_episodes config > 0)%Z then
     let* r := collect TrainCollector (prefill_episodes config) true in
     set_total (cr_env_steps r) ;;;
     save_prefill 0 (cr_episodes r)
   else ret ()) ;;;
  emit (EvCollector TestCollector).

(** Lines 46-82: everything before the epoch loop. *)
Definition startup : M unit :=
  post_init ;;;
  emit EvWandbInit ;;;
  emit EvEnv ;;;
  emit EvDreamer ;;;
  prefill.

(** One training step, lines 93-103. *)
Definition train_step (dl : DataLoader) (data_iter : Iter) : M Iter :=
  let* (b, data_iter') :=
    try_except_StopIteration
      (next data_iter)
      (let* fresh := iter dl in next fresh) in
  dreamer_update b ;;;
  ret data_iter'.

(** The training phase, lines 86-103. *)
Definition train_phase : M unit :=
  let* dataset := TrajectoryDataset (data_dir config) (batch_length config) in
  let* dataloader := new_DataLoader dataset (batch_size config) in
  let* data_iter := iter dataloader in
  emit EvTrainMode ;;;
  for_range (Z.to_nat (training_steps config))
            (λ _ it, train_step dataloader it) data_iter ;;;
  ret ().

(** The collection phase, lines 106-116. *)
Definition collect_phase (i : nat) : M unit :=
  emit (EvResetAgent TrainCollector) ;;;
  let* r := collect TrainCollector 1 false in
  let* total := get_total in
  set_total (total + cr_env_steps r) ;;;
  match cr_episodes r with
  | [] => raise IndexError
  | data :: _ =>
      savez_compressed (episode_path i) data ;;;
      let* total := get_total in
      emit (EvLog [("env_steps", LInt (total * action_repeats config));
                   ("agent/training_return", LReturn data)])
  end.

(** The test phase, lines 119-134. *)
Definition test_phase (i : nat) : M unit :=
  if bool_decide (test_every config = 0)%Z then raise ZeroDivisionError
  else if bool_decide (Z.of_nat i `mod` test_every config = 0)%Z then
    emit (EvPrint "Testing...") ;;;
    let* total := get_total in
    torch_save (checkpoint_path total) ;;;
    emit (EvResetAgent TestCollector) ;;;
    let* r := collect TestCollector 1 false in
    match cr_episodes r with
    | [] => raise IndexError
    | data :: _ =>
        emit (EvLog [("agent/test_return", LReturn data);
                     ("agent/test_video", LVideo data)])
    end
  else ret ().

(** The body of the epoch loop for index [i], lines 85-134. *)
Definition epoch (i : nat) : M unit :=
  emit (EvEpoch i) ;;;
  train_phase ;;;
  collect_phase i ;;;
  test_phase i.

(** [main] with the epoch loop cut after [k] iterations. *)
Definition main_upto (k : nat) : M unit :=
  startup ;;;
  for_range k (λ i _, epoch i) ().

(** [main] once the configuration object holds [config]. *)
Definition main_with : M unit := main_upto 1000.

End WithConfig.

(** [main()]: the configuration is always [DreamerConfig()]. *)
Definition main : M unit := main_with default_config.

End Driver.

Arguments CollectResult {T}.
Arguments File {T}.
Arguments FileSystem {T}.
Arguments Dataset {T}.
Arguments DataLoader {T}.
Arguments Iter {T}.
Arguments log_value {T}.
Arguments event {T}.
Arguments Collaborators {T}.
Arguments State {T}.

(** ** Reading a trace *)

#[global] Instance collector_id_eq_dec : EqDecision collector_id.
Proof. solve_decision. Defined.

Section Reading.

Context {T : Carriers}.

Definition is_makedirs (e : event) : bool :=
  match e with EvMakedirs _ => true | _ => false end.

Definition is_epoch (e : event) : bool :=
  match e with EvEpoch _ => true | _ => false end.

Definition is_iter (e : event) : bool :=
  match e with EvIter => true | _ => false end.

Definition is_update (e : event) : bool :=
  match e with EvUpdate _ => true | _ => false end.

Definition is_collect_by (c : collector_id) (e : event) : bool :=
  match e with EvCollect c' _ _ _ => bool_decide (c' = c) | _ => false end.

Definition is_savez (e : event) : bool :=
  match e with EvSavez _ _ => true | _ => false end.

Definition is_checkpoint (e : event) : bool :=
  match e with EvTorchSave _ _ => true | _ => false end.

(** How often an event of a kind occurs. *)
Definition count (p : event → bool) (tr : list event) : nat :=
  length (filter (λ e, p e = true) tr).

(** The environment steps an event reports for collector [c] called with
    [random_action = random]. *)
Definition env_steps_of (c : collector_id) (random : bool) (e : event) : Z :=
  match e with
  | EvCollect c' _ rnd r =>
      if bool_decide (c' = c ∧ rnd = random) then cr_env_steps r else 0
  | _ => 0
  end.

Definition sum_steps (c : collector_id) (random : bool) (tr : list event) : Z :=
  foldr (λ e acc, env_steps_of c random e + acc)%Z 0%Z tr.

(** The training collector is called with random actions for the prefill
    and with the agent's actions in the epochs. *)
Definition prefill_steps : list event → Z := sum_steps TrainCollector true.
Definition epoch_steps : list event → Z := sum_steps TrainCollector false.
Definition trained_steps (tr : list event) : Z := prefill_steps tr + epoch_steps tr.

(** The archives written, oldest first. *)
Definition savez_events (tr : list event) : list (string * Episode) :=
  omap (λ e, match e with EvSavez p ep => Some (p, ep) | _ => None end) tr.

(** The episodes the training collector returned, oldest first. *)
Definition train_collected (tr : list event) : list Episode :=
  concat (omap (λ e, match e with
                     | EvCollect TrainCollector _ _ r => Some (cr_episodes r)
                     | _ => None
                     end) tr).

(** The events of one training step: a batch is drawn and used, possibly
    after the exhausted iterator was replaced by a fresh one. *)
Definition plain_step (evs : list event) : Prop :=
  ∃ b, evs = [EvNext (Some b); EvUpdate b].

Definition restarted_step (evs : list event) : Prop :=
  ∃ b, evs = [EvNext None; EvIter; EvNext (Some b); EvUpdate b].

Definition train_step_events (evs : list event) : Prop :=
  plain_step evs ∨ restarted_step evs.

Context {C : Collaborators}.

(** The dataset and the loader the training phase builds in state [st]. *)
Definition epoch_dataset (config : DreamerConfig) (st : State) : Dataset :=
  {| ds_files := scan_dir (data_dir config) (fs st);
     ds_batch_length := batch_length config |}.

Definition epoch_loader (config : DreamerConfig) (st : State) : DataLoader :=
  {| dl_dataset := epoch_dataset config st;
     dl_batch_size := batch_size config |}.

(** From [st] to [st'] the driver wrote no file, left [total_env_steps]
    alone and produced the events [evs]. *)
Definition emits (st st' : State) (evs : list event) : Prop :=
  fs st' = fs st ∧
  total_env_steps st' = total_env_steps st ∧
  trace st' = trace st ++ evs.

(** What a training phase starts with, and what it ends with when the
    fresh iterator of the [except] branch is exhausted too. *)
Definition setup_events (config : DreamerConfig) (st : State) : list event :=
  [EvDataset (epoch_dataset config st); EvLoader (epoch_loader config st);
   EvIter; EvTrainMode].

Definition stop_events : list event := [EvNext None; EvIter; EvNext None].

(** The archives of the prefill loop over [eps], counting from [i]. *)
Fixpoint prefill_events (config : DreamerConfig) (i : nat) (eps : list Episode)
    : list event :=
  match eps with
  | [] => []
  | ep :: eps' => EvSavez (prefill_path config i) ep :: prefill_events config (S i) eps'
  end.

(** The events of the prefill, lines 74-82, in a world [w], and the
    environment steps it reports. *)
Definition prefill_trace (config : DreamerConfig) (w : World) : list event :=
  if bool_decide (prefill_episodes config > 0)%Z then
    let r := (collect_oracle w TrainCollector (prefill_episodes config) true).1 in
    [EvCollector TrainCollector;
     EvCollect TrainCollector (prefill_episodes config) true r]
    ++ prefill_events config 0 (cr_episodes r) ++ [EvCollector TestCollector]
  else [EvCollector TrainCollector; EvCollector TestCollector].

(** The events of lines 46-82 when both directories could be created. *)
Definition startup_trace (config : DreamerConfig) (w : World) : list event :=
  [EvMakedirs (data_dir config); EvMakedirs (model_dir config);
   EvWandbInit; EvEnv; EvDreamer] ++ prefill_trace config w.

Definition prefill_count (config : DreamerConfig) (w : World) : Z :=
  if bool_decide (prefill_episodes config > 0)%Z then
    cr_env_steps (collect_oracle w TrainCollector (prefill_episodes config) true).1
  else 0.

(** The events of a collection phase that found an episode [data], with
    [total] the value of [total_env_steps] after the phase. *)
Definition collect_events (config : DreamerConfig) (i : nat) (total : Z)
    (r : CollectResult) (data : Episode) : list event :=
  [EvResetAgent TrainCollector;
   EvCollect TrainCollector 1 false r;
   EvSavez (episode_path config i) data;
   EvLog [("env_steps"%string, LInt (total * action_repeats config));
          ("agent/training_return"%string, LReturn data)]].

(** The events of a test phase that ran. *)
Definition test_events (config : DreamerConfig) (total : Z) (blob : Params)
    (r : CollectResult) (data : Episode) : list event :=
  [EvPrint "Testing...";
   EvTorchSave (checkpoint_path config total) blob;
   EvResetAgent TestCollector;
   EvCollect TestCollector 1 false r;
   EvLog [("agent/test_return"%string, LReturn data);
          ("agent/test_video"%string, LVideo data)]].

(** The events of a completed epoch [i]: the tick, the training events with
    exactly [training_steps] updates, then the one call of the training
    collector for one episode, then what follows it (archive, telemetry,
    test), free of updates and of further training collection. *)
Definition epoch_segment (config : DreamerConfig) (i : nat) (seg : list event) : Prop :=
  ∃ training r rest,
    seg = EvEpoch i :: training
          ++ [EvResetAgent TrainCollector; EvCollect TrainCollector 1 false r]
          ++ rest ∧
    count is_update training = Z.to_nat (training_steps config) ∧
    count (is_collect_by TrainCollector) training = 0 ∧
    count is_epoch training = 0 ∧
    count is_update rest = 0 ∧
    count (is_collect_by TrainCollector) rest = 0 ∧
    count is_epoch rest = 0.

(** *** What holds of every run *)

(** The value logged under a key. *)
Fixpoint assoc (key : string) (entries : list (string * log_value)) : option log_value :=
  match entries with
  | [] => None
  | (k, v) :: rest => if decide (k = key) then Some v else assoc key rest
  end.

(** Events that write no file, read no counter and count no training
    steps. *)
Definition silent (e : event) : bool :=
  match e with
  | EvMakedirs _ | EvSavez _ _ | EvTorchSave _ _ | EvLog _ => false
  | EvCollect c _ _ _ => bool_decide (c = TestCollector)
  | _ => true
  end.

(** Events that create no directory and read no counter. *)
Definition plain (e : event) : bool :=
  match e with
  | EvMakedirs _ | EvTorchSave _ _ | EvLog _ => false
  | _ => true
  end.

(** The files after the writes of a trace. *)
Definition apply_write (m : gmap string File) (e : event) : gmap string File :=
  match e with
  | EvSavez p ep => <[p := NpzFile ep]> m
  | EvTorchSave p blob => <[p := PtFile blob]> m
  | _ => m
  end.

Definition replay (tr : list event) (m : gmap string File) : gmap string File :=
  foldl apply_write m tr.

(** Both directories were created, first thing. *)
Definition created (config : DreamerConfig) (pre : list event) : Prop :=
  take 2 pre = [EvMakedirs (data_dir config); EvMakedirs (model_dir config)].

(** The directories are created first: every other event comes after both
    creations. *)
Definition dirs_first (config : DreamerConfig) (pre : list event) (e : event) : Prop :=
  match e with
  | EvMakedirs p =>
      pre = [] ∧ p = data_dir config
      ∨ pre = [EvMakedirs (data_dir config)] ∧ p = model_dir config
  | _ => created config pre
  end.

(** Whatever reads [total_env_steps] reads the steps the training collector
    has reported so far. *)
Definition reads_ok (config : DreamerConfig) (pre : list event) (e : event) : Prop :=
  match e with
  | EvTorchSave p _ => p = checkpoint_path config (trained_steps pre)
  | EvLog entries =>
      ∀ v, assoc "env_steps" entries = Some (LInt v) →
           v = (trained_steps pre * action_repeats config)%Z
  | _ => True
  end.

Definition event_ok (config : DreamerConfig) (pre : list event) (e : event) : Prop :=
  dirs_first config pre e ∧ reads_ok config pre e.

(** Every event of a trace satisfies [Q] of the events before it. *)
Definition all_events (Q : list event → event → Prop) (tr : list event) : Prop :=
  ∀ n e, tr !! n = Some e → Q (take n tr) e.

(** The same for the events [evs] that follow [pre]. *)
Fixpoint all_events_from (Q : list event → event → Prop)
    (pre evs : list event) : Prop :=
  match evs with
  | [] => True
  | e :: evs' => Q pre e ∧ all_events_from Q (pre ++ [e]) evs'
  end.

(** The invariant of a run started on the files [f0] whose prefill reported
    [p0] environment steps, once the directories exist. *)
Definition good (config : DreamerConfig) (f0 : FileSystem) (p0 : Z) (st : State) : Prop :=
  created config (trace st) ∧
  files (fs st) = replay (trace st) (files f0) ∧
  total_env_steps st = trained_steps (trace st) ∧
  prefill_steps (trace st) = p0 ∧
  all_events (event_ok config) (trace st).

(** Events that are no epoch tick, no optimization step and no new
    iterator. *)
Definition quiet (evs : list event) : Prop :=
  count is_epoch evs = 0 ∧ count is_update evs = 0 ∧ count is_iter evs = 0.

(** Whatever its outcome, [m] only adds events, and they satisfy [P]. *)
Definition appends (P : list event → Prop) {A} (m : M A) : Prop :=
  ∀ st, ∃ evs, trace (m st).2 = trace st ++ evs ∧ P evs.

(** The listing of the data directory is not empty. *)
Definition stocked (config : DreamerConfig) (st : State) : Prop :=
  scan_dir (data_dir config) (fs st) ≠ ∅.

(** [m] keeps the invariant [I], whatever its outcome. *)
Definition keeps (I : State → Prop) {A} (m : M A) : Prop :=
  ∀ st, I st → I (m st).2.

End Reading.

(** ** More readings of a trace *)

Section Reading_more.

Context {T : Carriers}.

(** The paths of the checkpoints saved, oldest first. *)
Definition checkpoint_names (tr : list event) : list string :=
  omap (λ e, match e with EvTorchSave p _ => Some p | _ => None end) tr.

(** The indices the outer progress bar ticked, oldest first. *)
Definition epoch_ticks (tr : list event) : list nat :=
  omap (λ e, match e with EvEpoch i => Some i | _ => None end) tr.

(** A draw that met the end of its iterator. *)
Definition is_exhausted (e : event) : bool :=
  match e with EvNext None => true | _ => false end.

Context {C : Collaborators}.

(** The names the driver gives to the archives it writes. *)
Definition archive_name (config : DreamerConfig) (p : string) : Prop :=
  (∃ j, p = prefill_path config j) ∨ (∃ i, p = episode_path config i).

(** An event that writes a file writes it under a name of the driver. *)
Definition named_event (config : DreamerConfig) (e : event) : Prop :=
  match e with
  | EvSavez q _ => archive_name config q
  | EvTorchSave q _ => ∃ z, q = checkpoint_path config z
  | _ => True
  end.

Definition named (config : DreamerConfig) (evs : list event) : Prop :=
  Forall (named_event config) evs.

(** The steps reported by the training collector are counted below every
    checkpoint name: the checkpoints of [st] are named after the totals
    [zs], all different and none above the present total. *)
Definition checkpoints_apart (config : DreamerConfig) (st : State) : Prop :=
  ∃ zs, checkpoint_names (trace st) = checkpoint_path config <$> zs ∧
        NoDup zs ∧
        Forall (λ z, (z ≤ total_env_steps st)%Z) zs.

End Reading_more.

(** ** A concrete set of collaborators

    Episodes, batches, parameter blobs and the world are numbers; the world
    counts the calls made to it.  A dataset has 120 windows as soon as its
    directory holds a file, and none when it is empty. *)

Module Demo.

#[export] Instance carriers : Carriers :=
  {| Episode := nat; Batch := nat; Params := nat; World := nat |}.

#[export] Instance collaborators : Collaborators := {|
  collect_oracle w c n rnd :=
    ({| cr_episodes := replicate (Z.to_nat n) w;
        cr_num_episodes := n;
        cr_env_steps := 500 * n |}, S w);
  update_oracle w b := S w;
  fetch_oracle w ds i := (i, S w);
  dataset_len ds := if decide (ds_files ds = ∅) then 0 else 120;
  state_dict w := w;
  os_refuses f p := None
|}.

(** A fresh machine: no file, no directory. *)
Definition empty_fs : FileSystem := {| files := ∅; dirs := ∅ |}.

(** The directories above the two of the default configuration. *)
Definition base_dirs : list string :=
  ["/home"; "/home/scott"; "/home/scott/tmp"; "/home/scott/tmp/dreamer";
   "/home/scott/tmp/dreamer/cartpole_swingup";
   "/home/scott/tmp/dreamer/cartpole_swingup/1"].

(** A machine on which an earlier run left one episode. *)
Definition used_fs : FileSystem :=
  {| files := {[ Path.join (data_dir default_config) "0.npz" := NpzFile 7 ]};
     dirs := list_to_set
               (Path.key_of <$> base_dirs
                  ++ [data_dir default_config; model_dir default_config]) |}.

(** A machine on which the data directory's path is taken by a file. *)
Definition blocked_fs : FileSystem :=
  {| files := {[ data_dir default_config := OtherFile ]};
     dirs := list_to_set (Path.key_of <$> base_dirs) |}.

(** The defaults, with shorter phases. *)
Definition small_config : DreamerConfig := {|
  domain_name := "cartpole";
  task_name := "swingup";
  obs_image_size := (64, 64)%Z;
  action_repeats := 2;
  data_dir := Path.join base_dir "episodes";
  model_dir := Path.join base_dir "models";
  prefill_episodes := 2;
  batch_size := 50;
  batch_length := 50;
  training_steps := 4;
  training_device := "cuda";
  test_every := 2;
  collector_device := "cuda"
|}.

(** A configuration whose test cadence is zero. *)
Definition untested_config : DreamerConfig := {|
  domain_name := "cartpole";
  task_name := "swingup";
  obs_image_size := (64, 64)%Z;
  action_repeats := 2;
  data_dir := Path.join base_dir "episodes";
  model_dir := Path.join base_dir "models";
  prefill_episodes := 2;
  batch_size := 50;
  batch_length := 50;
  training_steps := 4;
  training_device := "cuda";
  test_every := 0;
  collector_device := "cuda"
|}.

(** A configuration whose batch size is zero. *)
Definition unbatched_config : DreamerConfig := {|
  domain_name := "cartpole";
  task_name := "swingup";
  obs_image_size := (64, 64)%Z;
  action_repeats := 2;
  data_dir := Path.join base_dir "episodes";
  model_dir := Path.join base_dir "models";
  prefill_episodes := 2;
  batch_size := 0;
  batch_length := 50;
  training_steps := 4;
  training_device := "cuda";
  test_every := 2;
  collector_device := "cuda"
|}.

(** Collaborators whose collectors come back without an episode. *)
Definition idle : Collaborators := {|
  collect_oracle w c n rnd :=
    ({| cr_episodes := []; cr_num_episodes := 0; cr_env_steps := 3 |}, S w);
  update_oracle w b := S w;
  fetch_oracle w ds i := (i, S w);
  dataset_len ds := if decide (ds_files ds = ∅) then 0 else 120;
  state_dict w := w;
  os_refuses f p := None
|}.

(** The small run on a fresh machine, cut after [k] epochs. *)
Definition fresh : State := init_state empty_fs 0.
Definition small_run (k : nat) : outcome () * State :=
  main_upto small_config k fresh.

End Demo.

(** * Strings and paths *)

Lemma string_app_cons (c : ascii) (s t : string) :
  String c s +:+ t = String c (s +:+ t).
Proof. reflexivity. Qed.

Lemma string_app_nil_l (s : string) : "" +:+ s = s.
Proof. reflexivity. Qed.

Lemma string_app_nil_r (s : string) : s +:+ "" = s.
Proof.
  induction s as [|c s IH]; [done|]. by rewrite string_app_cons, IH.
Qed.

Lemma string_app_assoc (a b c : string) : (a +:+ b) +:+ c = a +:+ (b +:+ c).
Proof.
  induction a as [|x a IH]; [done|]. by rewrite !string_app_cons, IH.
Qed.

Lemma string_length_app (a b : string) :
  String.length (a +:+ b) = String.length a + String.length b.
Proof.
  induction a as [|x a IH]; [done|]. rewrite string_app_cons. simpl. by rewrite IH.
Qed.

Lemma string_prefix_app (p s : string) : String.prefix p (p +:+ s) = true.
Proof.
  induction p as [|c p IH].
  - by destruct s.
  - rewrite string_app_cons. simpl. destruct (ascii_dec c c); [done | congruence].
Qed.

Lemma string_app_inj_r (s x y : string) : x +:+ s = y +:+ s → x = y.
Proof.
  revert y; induction x as [|c x IH]; intros [|d y] H.
  - done.
  - apply (f_equal String.length) in H.
    rewrite string_app_nil_l, string_length_app in H. simpl in H. lia.
  - apply (f_equal String.length) in H.
    rewrite string_app_nil_l, string_length_app in H. simpl in H. lia.
  - rewrite !string_app_cons in H. injection H as -> H. f_equal. by apply IH.
Qed.

Lemma last_char_app (s t : string) : t ≠ "" → last_char (s +:+ t) = last_char t.
Proof.
  intros Ht. induction s as [|c s IH]; [done|].
  rewrite string_app_cons. simpl. rewrite IH.
  destruct (s +:+ t) eqn:E; [|done].
  destruct s; [done | discriminate].
Qed.

Lemma head_char_app (s t : string) :
  s ≠ "" → head_char (s +:+ t) = head_char s.
Proof. by destruct s. Qed.

Lemma join_suffix (a b : string) : ∃ pre, Path.join a b = pre +:+ b.
Proof.
  unfold Path.join. destruct (Path.starts_with_sep b).
  - by exists "".
  - destruct (Path.is_empty a || Path.ends_with_sep a).
    + by exists a.
    + exists (a +:+ "/"). by rewrite string_app_assoc.
Qed.

Lemma join_dir (a b : string) :
  Path.starts_with_sep b = false → Path.join a b = Path.join a "" +:+ b.
Proof.
  intros Hb. unfold Path.join. rewrite Hb. simpl.
  destruct (Path.is_empty a || Path.ends_with_sep a).
  - by rewrite string_app_nil_r.
  - by rewrite !string_app_assoc.
Qed.

Lemma starts_with_sep_head (s : string) :
  Path.starts_with_sep s = true ↔ head_char s = Some "/"%char.
Proof.
  destruct s as [|c s]; simpl; [done|].
  rewrite bool_decide_eq_true. split; [by intros -> | by intros [= ->]].
Qed.

(** The decimal rendering of a number starts with a digit. *)
Lemma pretty_N_char_digit (x : N) : is_digit (pretty_N_char x) = true.
Proof. unfold pretty_N_char. by repeat case_match. Qed.

Lemma pretty_N_go_head (x : N) (s : string) :
  (0 < x)%N ∨ (∃ c, head_char s = Some c ∧ is_digit c = true) →
  ∃ c, head_char (pretty_N_go x s) = Some c ∧ is_digit c = true.
Proof.
  revert s. induction (N.lt_wf_0 x) as [x _ IH]; intros s Hs.
  assert (x = 0 ∨ 0 < x)%N as [->|Hx] by lia.
  - rewrite pretty_N_go_0. destruct Hs as [?|?]; [lia | done].
  - rewrite pretty_N_go_step by done. apply IH.
    + by apply N.div_lt.
    + right. eexists. split; [done|]. apply pretty_N_char_digit.
Qed.

Lemma pretty_nat_head (n : nat) :
  ∃ c, head_char (pretty n) = Some c ∧ is_digit c = true.
Proof.
  unfold pretty, pretty_nat, pretty, pretty_N. case_decide.
  - by exists "0"%char.
  - apply pretty_N_go_head. lia.
Qed.

Lemma pretty_nat_ne_nil (n : nat) : pretty n ≠ "".
Proof. destruct (pretty_nat_head n) as (c & H & _). by destruct (pretty n). Qed.

Lemma pretty_nat_no_sep (n : nat) (s : string) :
  Path.starts_with_sep (pretty n +:+ s) = false.
Proof.
  destruct (pretty_nat_head n) as (c & H & Hd).
  destruct (Path.starts_with_sep _) eqn:E; [|done].
  apply starts_with_sep_head in E.
  rewrite head_char_app in E by apply pretty_nat_ne_nil.
  rewrite H in E. injection E as ->. done.
Qed.

Lemma pretty_nat_ne_pre (n : nat) (s t : string) :
  pretty n +:+ s ≠ "pre_" +:+ t.
Proof.
  intros E. apply (f_equal head_char) in E.
  rewrite head_char_app in E by apply pretty_nat_ne_nil.
  destruct (pretty_nat_head n) as (c & H & Hd).
  rewrite H in E. simpl in E. injection E as ->. done.
Qed.

Section Paths.
Context {T : Carriers} {C : Collaborators}.
Variable config : DreamerConfig.

Lemma episode_path_dir (i : nat) :
  episode_path config i = Path.join (data_dir config) "" +:+ pretty i +:+ ".npz".
Proof. unfold episode_path. apply join_dir, pretty_nat_no_sep. Qed.

Lemma prefill_path_dir (i : nat) :
  prefill_path config i
  = Path.join (data_dir config) "" +:+ "pre_" +:+ pretty i +:+ ".npz".
Proof. unfold prefill_path. by apply join_dir. Qed.

Lemma episode_path_inj (i j : nat) :
  episode_path config i = episode_path config j → i = j.
Proof.
  rewrite !episode_path_dir. intros H.
  apply (inj (String.append _)) in H.
  apply string_app_inj_r in H. by apply (inj pretty).
Qed.

Lemma prefill_path_inj (i j : nat) :
  prefill_path config i = prefill_path config j → i = j.
Proof.
  rewrite !prefill_path_dir. intros H.
  apply (inj (String.append _)) in H.
  rewrite !string_app_cons, !string_app_nil_l in H. injection H as H.
  apply string_app_inj_r in H. by apply (inj pretty).
Qed.

Lemma episode_path_ne_prefill (i j : nat) :
  episode_path config i ≠ prefill_path config j.
Proof.
  rewrite episode_path_dir, prefill_path_dir. intros H.
  apply (inj (String.append _)) in H. by apply pretty_nat_ne_pre in H.
Qed.

Lemma npz_ne_pt (a b : string) : a +:+ ".npz" ≠ b +:+ ".pt".
Proof.
  intros H. apply (f_equal last_char) in H.
  rewrite !last_char_app in H by done. done.
Qed.

Lemma episode_path_ne_checkpoint (i : nat) (z : Z) :
  episode_path config i ≠ checkpoint_path config z.
Proof.
  unfold episode_path, checkpoint_path.
  destruct (join_suffix (data_dir config) (pretty i +:+ ".npz")) as [p ->].
  destruct (join_suffix (model_dir config) (pretty z +:+ ".pt")) as [q ->].
  rewrite <-!string_app_assoc. apply npz_ne_pt.
Qed.

Lemma prefill_path_ne_checkpoint (i : nat) (z : Z) :
  prefill_path config i ≠ checkpoint_path config z.
Proof.
  unfold prefill_path, checkpoint_path.
  destruct (join_suffix (data_dir config) ("pre_" +:+ pretty i +:+ ".npz")) as [p ->].
  destruct (join_suffix (model_dir config) (pretty z +:+ ".pt")) as [q ->].
  change ("pre_" +:+ pretty i +:+ ".npz") with (("pre_" +:+ pretty i) +:+ ".npz").
  rewrite <-!string_app_assoc. apply npz_ne_pt.
Qed.

(** A file of the data directory is in the directory's listing. *)
Lemma scan_dir_episode (i : nat) (f : FileSystem) (c : File) :
  files f !! episode_path config i = Some c →
  scan_dir (data_dir config) f !! episode_path config i = Some c.
Proof.
  intros H. unfold scan_dir. apply map_lookup_filter_Some. split; [done|].
  simpl. rewrite episode_path_dir. apply string_prefix_app.
Qed.

End Paths.

(** * Splitting a path *)

Lemma cut_app (s : string) : s = (Path.cut s).1 +:+ (Path.cut s).2.
Proof.
  induction s as [|c s IH]; [done|]. simpl.
  destruct (Path.cut s) as [h t]. simpl in IH.
  case_bool_decide; simpl; [by rewrite IH|].
  destruct h; simpl in *; by rewrite IH.
Qed.

Lemma cut_all_sep (s : string) : Path.all_sep s = true → Path.cut s = (s, "").
Proof.
  induction s as [|c s IH]; [done|]. simpl.
  intros [Hc Hs]%andb_prop. rewrite IH by done.
  by rewrite Hc.
Qed.

Lemma rstrip_sep_prefix (s : string) : ∃ rest, s = Path.rstrip_sep s +:+ rest.
Proof.
  induction s as [|c s [rest IH]]; [by exists ""|]. simpl.
  destruct (Path.rstrip_sep s) as [|d t] eqn:E.
  - case_bool_decide.
    + by exists (String c s).
    + exists s. done.
  - exists rest. rewrite string_app_cons. by rewrite <-IH.
Qed.

Lemma rstrip_sep_idemp (s : string) :
  Path.rstrip_sep (Path.rstrip_sep s) = Path.rstrip_sep s.
Proof.
  induction s as [|c s IH]; [done|]. simpl.
  destruct (Path.rstrip_sep s) as [|d t] eqn:E.
  - case_bool_decide as Hc; [done|]. simpl. by rewrite bool_decide_false.
  - simpl in *. by rewrite IH.
Qed.

(** The head of a split is a prefix of the path, and the tail the rest of
    it, up to the separators dropped in between. *)
Lemma split_prefix (p : string) :
  ∃ rest, p = (Path.split p).1 +:+ rest ∧
    String.length (Path.split p).1 + String.length (Path.split p).2
    ≤ String.length p.
Proof.
  unfold Path.split. pose proof (cut_app p) as Hp.
  destruct (Path.cut p) as [h t]. simpl in *.
  destruct (negb (Path.is_empty h) && negb (Path.all_sep h)); simpl.
  - destruct (rstrip_sep_prefix h) as [rest Hr].
    exists (rest +:+ t). split.
    + by rewrite <-string_app_assoc, <-Hr.
    + rewrite Hp, string_length_app.
      apply (f_equal String.length) in Hr. rewrite string_length_app in Hr. lia.
  - exists t. split; [done|].
    apply (f_equal String.length) in Hp. rewrite string_length_app in Hp. lia.
Qed.

Lemma split2_prefix (p : string) :
  ∃ rest, p = (Path.split2 p).1 +:+ rest ∧
    String.length (Path.split2 p).1 + String.length (Path.split2 p).2
    ≤ String.length p.
Proof.
  unfold Path.split2. destruct (split_prefix p) as (rest & Hp & Hlen).
  destruct (Path.split p) as [h t]. simpl in *.
  destruct (Path.is_empty t); [|by exists rest].
  destruct (split_prefix h) as (rest' & Hh & Hlen').
  exists (rest' +:+ rest). split.
  - by rewrite <-string_app_assoc, <-Hh.
  - lia.
Qed.

Lemma split2_shorter (p head tail : string) :
  Path.split2 p = (head, tail) → Path.is_empty tail = false →
  String.length head < String.length p.
Proof.
  intros Hs Ht. destruct (split2_prefix p) as (_ & _ & Hlen).
  rewrite Hs in Hlen. simpl in Hlen. destruct tail; [done|]. simpl in Hlen. lia.
Qed.

Lemma split2_starts_with_sep (p head tail : string) :
  Path.split2 p = (head, tail) → Path.is_empty head = false →
  Path.starts_with_sep p = Path.starts_with_sep head.
Proof.
  intros Hs Hh. destruct (split2_prefix p) as (rest & Hp & _).
  rewrite Hs in Hp. simpl in Hp. rewrite Hp. by destruct head.
Qed.

Lemma split2_nonempty (p head tail : string) :
  Path.split2 p = (head, tail) → Path.is_empty tail = false →
  Path.is_empty p = false.
Proof.
  intros Hs Ht. apply split2_shorter in Hs; [|done]. destruct p; [simpl in Hs; lia|done].
Qed.

(** The fuel of [components] is enough. *)
Lemma components_upto_fuel (n : nat) (p : string) :
  String.length p < n →
  Path.components_upto n p = Path.components p.
Proof.
  unfold Path.components. revert p.
  induction n as [n IH] using lt_wf_ind. intros p Hn.
  destruct n as [|n]; [lia|]. simpl.
  destruct (Path.split2 p) as [head tail] eqn:Hs.
  destruct (Path.is_empty tail) eqn:Ht; [done|].
  pose proof (split2_shorter p head tail Hs Ht) as Hlt.
  rewrite (IH n) by lia.
  rewrite (IH (String.length p)) by lia. done.
Qed.

Lemma components_split2 (p head tail : string) :
  Path.split2 p = (head, tail) →
  Path.components p
  = if Path.is_empty tail then []
    else if bool_decide (tail = ".") then Path.components head
    else Path.components head ++ [tail].
Proof.
  intros Hs. unfold Path.components at 1. simpl. rewrite Hs.
  destruct (Path.is_empty tail) eqn:Ht; [done|].
  rewrite components_upto_fuel; [done|]. by eapply split2_shorter.
Qed.

Lemma components_all_sep (p : string) :
  Path.all_sep p = true → Path.components p = [].
Proof.
  intros Hp. rewrite (components_split2 p p ""); [done|].
  unfold Path.split2, Path.split. rewrite (cut_all_sep p Hp). simpl.
  rewrite Hp, andb_false_r. simpl. rewrite (cut_all_sep p Hp).
  by rewrite Hp, andb_false_r.
Qed.

(** The head [split] returns is already stripped, unless it is the root. *)
Lemma split_head_stripped (p : string) :
  Path.all_sep (Path.split p).1 = true
  ∨ Path.rstrip_sep (Path.split p).1 = (Path.split p).1.
Proof.
  unfold Path.split. destruct (Path.cut p) as [h t]. simpl.
  destruct h as [|c h]; [by left|]. simpl.
  destruct (bool_decide (c = "/"%char) && Path.all_sep h) eqn:E; simpl; [by left|].
  right. apply (rstrip_sep_idemp (String c h)).
Qed.

Lemma split2_head_stripped (p : string) :
  Path.all_sep (Path.split2 p).1 = true
  ∨ Path.rstrip_sep (Path.split2 p).1 = (Path.split2 p).1.
Proof.
  unfold Path.split2. pose proof (split_head_stripped p) as H.
  destruct (Path.split p) as [h t]. simpl in *.
  destruct (Path.is_empty t); [apply split_head_stripped | done].
Qed.

(** Running the monad on a symbolic state, and putting the trace of the
    resulting state in order. *)
Ltac mrun :=
  unfold bind, ret, raise, emit, get_fs, get_total, get_world,
    set_fs, set_total, set_world; simpl.

Ltac trace_norm :=
  unfold trace; simpl; rewrite ?reverse_cons, <-?app_assoc; simpl.

Section TraceAlgebra.
Context {T : Carriers} {C : Collaborators}.

(** * Reading a trace: algebra *)

Lemma count_app (p : event → bool) (a b : list event) :
  count p (a ++ b) = count p a + count p b.
Proof. unfold count. by rewrite filter_app, length_app. Qed.

Lemma count_cons (p : event → bool) (e : event) (a : list event) :
  count p (e :: a) = (if p e then 1 else 0) + count p a.
Proof.
  unfold count. destruct (p e) eqn:E.
  - by rewrite filter_cons_True.
  - rewrite filter_cons_False; [done | by rewrite E].
Qed.

Lemma count_nil (p : event → bool) : count p [] = 0.
Proof. done. Qed.

Lemma sum_steps_app c rnd (a b : list event) :
  sum_steps c rnd (a ++ b) = (sum_steps c rnd a + sum_steps c rnd b)%Z.
Proof.
  unfold sum_steps. induction a as [|e a IH]; simpl; [done|]. rewrite IH. lia.
Qed.

Lemma trained_steps_app (a b : list event) :
  trained_steps (a ++ b) = (trained_steps a + trained_steps b)%Z.
Proof.
  unfold trained_steps, prefill_steps, epoch_steps.
  rewrite !sum_steps_app. lia.
Qed.

Lemma trained_steps_cons (e : event) (a : list event) :
  trained_steps (e :: a) = (trained_steps [e] + trained_steps a)%Z.
Proof. apply (trained_steps_app [e]). Qed.

Lemma savez_events_app (a b : list event) :
  savez_events (a ++ b) = savez_events a ++ savez_events b.
Proof. apply omap_app. Qed.

Lemma savez_events_cons (e : event) (a : list event) :
  savez_events (e :: a) = savez_events [e] ++ savez_events a.
Proof. apply (savez_events_app [e]). Qed.

Lemma train_collected_app (a b : list event) :
  train_collected (a ++ b) = train_collected a ++ train_collected b.
Proof. unfold train_collected. by rewrite omap_app, concat_app. Qed.

Lemma train_collected_cons (e : event) (a : list event) :
  train_collected (e :: a) = train_collected [e] ++ train_collected a.
Proof. apply (train_collected_app [e]). Qed.

(** * The monad *)

Lemma trace_emit (e : event) (st : State) :
  trace (emit e st).2 = trace st ++ [e].
Proof. unfold trace. simpl. apply reverse_cons. Qed.

Lemma bind_Ok {A B} (m : M A) (k : A → M B) st a st1 :
  m st = (Ok a, st1) → bind m k st = k a st1.
Proof. unfold bind. by intros ->. Qed.

Lemma bind_Raise {A B} (m : M A) (k : A → M B) st e st1 :
  m st = (Raise e, st1) → bind m k st = (Raise e, st1).
Proof. unfold bind. by intros ->. Qed.

(** A run that ends well, as a pair. *)
Lemma outcome_eta {A} (r : outcome A * State) (a : A) :
  r.1 = Ok a → r = (Ok a, r.2).
Proof. destruct r as [o s]. simpl. by intros ->. Qed.

Lemma for_range_S {A} (n : nat) (body : nat → A → M A) (a : A) (st : State) :
  for_range (S n) body a st = bind (for_range n body a) (body n) st.
Proof. done. Qed.

(** Once an iteration raises, the loop is left with that exception. *)
Lemma for_range_Raise {A} (k n : nat) (body : nat → A → M A) a st a1 st1 e st2 :
  for_range k body a st = (Ok a1, st1) →
  body k a1 st1 = (Raise e, st2) →
  k < n →
  for_range n body a st = (Raise e, st2).
Proof.
  intros Hk Hb. induction n as [|n IH]; intros Hlt; [lia|].
  rewrite for_range_S. destruct (decide (k = n)) as [->|Hne].
  - rewrite (bind_Ok _ _ _ _ _ Hk). done.
  - apply bind_Raise, IH. lia.
Qed.

Lemma for_range_Raise_mono {A} (k n : nat) (body : nat → A → M A) a st e st1 :
  for_range k body a st = (Raise e, st1) →
  k ≤ n →
  for_range n body a st = (Raise e, st1).
Proof.
  intros Hk. induction n as [|n IH]; intros Hle.
  - by assert (k = 0) as -> by lia.
  - destruct (decide (k = S n)) as [->|Hne]; [done|].
    rewrite for_range_S. apply bind_Raise, IH. lia.
Qed.

End TraceAlgebra.

Section Training.
Context {T : Carriers} {C : Collaborators}.

Lemma emits_refl (st : State) : emits st st [].
Proof. unfold emits. by rewrite app_nil_r. Qed.

Lemma emits_trans (st st1 st2 : State) (a b : list event) :
  emits st st1 a → emits st1 st2 b → emits st st2 (a ++ b).
Proof.
  intros (Hf1 & Ht1 & Hl1) (Hf2 & Ht2 & Hl2). unfold emits.
  rewrite Hf2, Ht2, Hl2, Hl1, app_assoc. done.
Qed.

(** * The training phase *)

Lemma train_step_spec (dl : DataLoader) (it : Iter) (st : State) :
  it_loader it = dl →
  ∃ evs, emits st (train_step dl it st).2 evs ∧
    ((∃ it', (train_step dl it st).1 = Ok it' ∧ it_loader it' = dl)
     ∧ train_step_events evs ∧ 0 < len_loader dl
     ∨ (train_step dl it st).1 = Raise StopIteration ∧ len_loader dl = 0
       ∧ evs = stop_events).
Proof.
  intros <-.
  unfold train_step, try_except_StopIteration, next, iter, dreamer_update.
  mrun. case_bool_decide as Hpos; mrun.
  - destruct (fetch_oracle _ _ _) as [b w'] eqn:Hf. simpl.
    eexists. split; [|left; split; [by eexists|split; [left; by eexists|lia]]].
    repeat split. by trace_norm.
  - case_bool_decide as Hfresh; mrun.
    + destruct (fetch_oracle _ _ _) as [b w'] eqn:Hf. simpl.
      eexists. split; [|left; split; [by eexists|split; [right; by eexists|lia]]].
      repeat split. by trace_norm.
    + eexists. split; [|right; split; [done|split; [lia|done]]].
      repeat split. by trace_norm.
Qed.

Lemma train_loop_spec (dl : DataLoader) (n : nat) (it : Iter) (st : State) :
  it_loader it = dl →
  let r := for_range n (λ _ data_iter, train_step dl data_iter) it st in
  ∃ steps tail,
    emits st r.2 (concat steps ++ tail) ∧
    Forall train_step_events steps ∧
    (steps ≠ [] → 0 < len_loader dl) ∧
    ((∃ it', r.1 = Ok it' ∧ it_loader it' = dl) ∧ length steps = n ∧ tail = []
     ∨ r.1 = Raise StopIteration ∧ len_loader dl = 0
       ∧ length steps < n ∧ tail = stop_events).
Proof.
  intros Hit. induction n as [|n IH]; simpl.
  - exists [], []. split; [apply emits_refl|]. split; [done|]. split; [done|].
    left. eauto.
  - destruct IH as (steps & tail & Hem & Hsteps & Hne & Hcase).
    unfold bind.
    destruct (for_range n _ it st) as [[it1|e] st1] eqn:Hloop; simpl in *.
    + destruct Hcase as [([it' [[= <-] Hit1]] & Hlen & ->)|(? & _)]; [|done].
      rewrite app_nil_r in Hem.
      destruct (train_step_spec dl it1 st1 Hit1) as (evs & Hev & Hstep).
      destruct Hstep as [(Hok & Hshape & Hpos)|(Hraise & Hzero & ->)].
      * exists (steps ++ [evs]), []. split.
        { rewrite app_nil_r, concat_app. simpl. rewrite app_nil_r.
          by eapply emits_trans. }
        split; [apply Forall_app; split; [done | by constructor]|].
        split; [done|].
        left. split; [done|]. split; [|done]. rewrite length_app. simpl. lia.
      * exists steps, stop_events. split; [by eapply emits_trans|].
        split; [done|]. split; [done|]. right. repeat split; [done..|lia].
    + destruct Hcase as [([? [? ?]] & _)|(Hr & Hz & Hlen & ->)]; [done|].
      exists steps, stop_events. split; [done|]. split; [done|]. split; [done|].
      right. repeat split; [done..|lia].
Qed.

Lemma len_loader_pos (dl : DataLoader) :
  (0 < dl_batch_size dl)%Z → 0 < dataset_len (dl_dataset dl) → 0 < len_loader dl.
Proof.
  intros Hbs Hlen. unfold len_loader.
  assert (1 ≤ (Z.of_nat (dataset_len (dl_dataset dl)) + dl_batch_size dl - 1)
              `div` dl_batch_size dl)%Z; [|lia].
  apply Z.div_le_lower_bound; lia.
Qed.

(** A loader over an empty dataset would have no batch. *)
Lemma len_loader_empty (dl : DataLoader) :
  (0 < dl_batch_size dl)%Z → dataset_len (dl_dataset dl) = 0 → len_loader dl = 0.
Proof.
  intros Hbs Hlen. unfold len_loader. rewrite Hlen.
  rewrite Z.div_small; [done|lia].
Qed.

Section WithConfig.
Variable config : DreamerConfig.

(** The loader's constructor refuses an empty dataset and a batch size that
    is not positive, before any iterator is made. *)
Lemma train_phase_refused (st : State) :
  dataset_len (epoch_dataset config st) = 0 ∨ (batch_size config ≤ 0)%Z →
  (train_phase config st).1 = Raise ValueError ∧
  emits st (train_phase config st).2 [EvDataset (epoch_dataset config st)].
Proof.
  intros H. unfold train_phase, TrajectoryDataset, new_DataLoader. mrun.
  fold (epoch_dataset config st).
  case_bool_decide as Hlen; simpl.
  { split; [done|]. repeat split. by trace_norm. }
  destruct H as [H|H]; [done|].
  rewrite bool_decide_true by done. simpl. split; [done|].
  repeat split. by trace_norm.
Qed.

Lemma train_phase_bad_batch_size (st : State) :
  (batch_size config ≤ 0)%Z →
  (train_phase config st).1 = Raise ValueError ∧
  emits st (train_phase config st).2 [EvDataset (epoch_dataset config st)].
Proof. intros Hbs. apply train_phase_refused. by right. Qed.

(** Once the loader is built it has a batch, and every step of the phase
    obtains one. *)
Lemma train_phase_built (st : State) :
  dataset_len (epoch_dataset config st) ≠ 0 →
  (0 < batch_size config)%Z →
  ∃ steps,
    (train_phase config st).1 = Ok () ∧
    emits st (train_phase config st).2 (setup_events config st ++ concat steps) ∧
    length steps = Z.to_nat (training_steps config) ∧
    Forall train_step_events steps.
Proof.
  intros Hlen Hbs.
  assert (Hpos : 0 < len_loader (epoch_loader config st)).
  { apply len_loader_pos; [done|]. simpl. lia. }
  unfold train_phase, TrajectoryDataset, new_DataLoader, iter. mrun.
  fold (epoch_dataset config st).
  rewrite bool_decide_false by done.
  rewrite bool_decide_false by lia. simpl.
  fold (epoch_loader config st).
  match goal with |- context [for_range ?n ?body ?it ?s] =>
    pose proof (train_loop_spec (epoch_loader config st) n it s eq_refl) as Hloop;
    simpl in Hloop;
    destruct Hloop as (steps & tail & Hem & Hsteps & Hne & Hcase);
    destruct (for_range n body it s) as [[it1|e] st1] eqn:Hrun
  end; simpl in *.
  - destruct Hcase as [(_ & Hl & ->)|(? & _)]; [|done].
    rewrite app_nil_r in Hem.
    exists steps. split; [done|]. split; [|done].
    eapply (emits_trans _ _ _ (setup_events config st)); [|done].
    repeat split. by trace_norm.
  - destruct Hcase as [([? [? ?]] & _)|(_ & Hz & _)]; [done|lia].
Qed.

Lemma train_phase_cases (st : State) :
  (train_phase config st).1 = Raise ValueError ∧
  (dataset_len (epoch_dataset config st) = 0 ∨ (batch_size config ≤ 0)%Z) ∧
  emits st (train_phase config st).2 [EvDataset (epoch_dataset config st)]
  ∨ ∃ steps,
      (train_phase config st).1 = Ok () ∧
      dataset_len (epoch_dataset config st) ≠ 0 ∧
      (0 < batch_size config)%Z ∧
      emits st (train_phase config st).2 (setup_events config st ++ concat steps) ∧
      length steps = Z.to_nat (training_steps config) ∧
      Forall train_step_events steps.
Proof.
  destruct (decide (dataset_len (epoch_dataset config st) = 0)) as [Hlen|Hlen].
  { left. destruct (train_phase_refused st (or_introl Hlen)) as [Hr Hem].
    split; [done|]. split; [by left|done]. }
  destruct (decide (batch_size config ≤ 0)%Z) as [Hbs|Hbs].
  { left. destruct (train_phase_refused st (or_intror Hbs)) as [Hr Hem].
    split; [done|]. split; [by right|done]. }
  right. destruct (train_phase_built st Hlen ltac:(lia)) as (steps & Hr & Hem & Hl & Hs).
  exists steps. split; [done|]. split; [done|]. split; [lia|]. done.
Qed.

(** With a batch to draw, the phase completes. *)
Lemma train_phase_completes (st : State) :
  (0 < batch_size config)%Z →
  0 < len_loader (epoch_loader config st) →
  ∃ steps,
    (train_phase config st).1 = Ok () ∧
    emits st (train_phase config st).2 (setup_events config st ++ concat steps) ∧
    length steps = Z.to_nat (training_steps config) ∧
    Forall train_step_events steps.
Proof.
  intros Hbs Hpos. apply train_phase_built; [|done].
  intros Hz. rewrite (len_loader_empty (epoch_loader config st)) in Hpos by done. lia.
Qed.

End WithConfig.
End Training.

Section Phases.
Context {T : Carriers} {C : Collaborators}.

Section WithConfig.
Variable config : DreamerConfig.

(** * The collection phase *)

Lemma collect_phase_spec (i : nat) (st : State) :
  let res := (collect_oracle (world st) TrainCollector 1 false).1 in
  let r := collect_phase config i st in
  total_env_steps r.2 = (total_env_steps st + cr_env_steps res)%Z ∧
  dirs (fs r.2) = dirs (fs st) ∧
  world r.2 = (collect_oracle (world st) TrainCollector 1 false).2 ∧
  match cr_episodes res with
  | [] =>
      r.1 = Raise IndexError ∧
      files (fs r.2) = files (fs st) ∧
      trace r.2 = trace st ++ [EvResetAgent TrainCollector;
                               EvCollect TrainCollector 1 false res]
  | data :: _ =>
      r.1 = Ok () ∧
      files (fs r.2) = <[episode_path config i := NpzFile data]> (files (fs st)) ∧
      trace r.2 = trace st ++ collect_events config i (total_env_steps r.2) res data
  end.
Proof.
  unfold collect_phase, collect, savez_compressed, write_file. mrun.
  destruct (collect_oracle _ _ _ _) as [res w'] eqn:Ho. simpl.
  destruct (cr_episodes res) as [|data rest] eqn:He; simpl.
  - repeat split. by trace_norm.
  - repeat split. by trace_norm.
Qed.

(** * The test phase *)

Lemma test_phase_zero (i : nat) (st : State) :
  test_every config = 0%Z →
  test_phase config i st = (Raise ZeroDivisionError, st).
Proof. intros H. unfold test_phase. by rewrite bool_decide_true. Qed.

Lemma test_phase_skip (i : nat) (st : State) :
  test_every config ≠ 0%Z →
  (Z.of_nat i `mod` test_every config ≠ 0)%Z →
  test_phase config i st = (Ok (), st).
Proof.
  intros H1 H2. unfold test_phase. by rewrite !bool_decide_false.
Qed.

Lemma test_phase_run (i : nat) (st : State) :
  test_every config ≠ 0%Z →
  (Z.of_nat i `mod` test_every config = 0)%Z →
  let res := (collect_oracle (world st) TestCollector 1 false).1 in
  let blob := state_dict (world st) in
  let path := checkpoint_path config (total_env_steps st) in
  let r := test_phase config i st in
  total_env_steps r.2 = total_env_steps st ∧
  dirs (fs r.2) = dirs (fs st) ∧
  files (fs r.2) = <[path := PtFile blob]> (files (fs st)) ∧
  match cr_episodes res with
  | [] =>
      r.1 = Raise IndexError ∧
      trace r.2 = trace st ++ [EvPrint "Testing..."; EvTorchSave path blob;
                               EvResetAgent TestCollector;
                               EvCollect TestCollector 1 false res]
  | data :: _ =>
      r.1 = Ok () ∧
      trace r.2 = trace st ++ test_events config (total_env_steps st) blob res data
  end.
Proof.
  intros H1 H2. unfold test_phase, torch_save, write_file, collect.
  rewrite bool_decide_false, bool_decide_true by done. mrun.
  destruct (collect_oracle _ _ _ _) as [res w'] eqn:Ho. simpl.
  destruct (cr_episodes res) as [|data rest] eqn:He; simpl.
  - repeat split. by trace_norm.
  - repeat split. by trace_norm.
Qed.

(** * A completed epoch *)

Lemma epoch_unfold (i : nat) (st : State) :
  epoch config i st
  = bind (train_phase config)
         (λ _, bind (collect_phase config i) (λ _, test_phase config i))
         (emit (EvEpoch i) st).2.
Proof. done. Qed.

Lemma epoch_Ok_spec (i : nat) (st st' : State) :
  epoch config i st = (Ok (), st') →
  (0 < batch_size config)%Z ∧ test_every config ≠ 0%Z ∧
  ∃ steps res data others tail,
    length steps = Z.to_nat (training_steps config) ∧
    Forall train_step_events steps ∧
    cr_episodes res = data :: others ∧
    (∃ w1, res = (collect_oracle w1 TrainCollector 1 false).1) ∧
    total_env_steps st' = (total_env_steps st + cr_env_steps res)%Z ∧
    dirs (fs st') = dirs (fs st) ∧
    trace st' = trace st ++ EvEpoch i :: setup_events config st ++ concat steps
                ++ collect_events config i (total_env_steps st') res data ++ tail ∧
    ((Z.of_nat i `mod` test_every config = 0)%Z ∧
     (∃ blob tres tdata,
        tail = test_events config (total_env_steps st') blob tres tdata ∧
        files (fs st')
        = <[checkpoint_path config (total_env_steps st') := PtFile blob]>
            (<[episode_path config i := NpzFile data]> (files (fs st))))
     ∨ (Z.of_nat i `mod` test_every config ≠ 0)%Z ∧ tail = [] ∧
       files (fs st') = <[episode_path config i := NpzFile data]> (files (fs st))).
Proof.
  rewrite epoch_unfold. set (s0 := (emit (EvEpoch i) st).2).
  assert (Hs0 : emits st s0 [EvEpoch i]) by (repeat split; apply trace_emit).
  unfold bind at 1.
  destruct (train_phase_cases config s0)
    as [(Hr & _ & _)|(steps & Hr & _ & Hbs & Hem & Hlen & Hsteps)].
  { destruct (train_phase config s0) as [[[]|e] s1]; simpl in Hr; by simplify_eq. }
  destruct (train_phase config s0) as [[[]|e] s1] eqn:Htrain; simpl in *;
    [|by intros ?].
  unfold bind.
  pose proof (collect_phase_spec i s1) as Hc. simpl in Hc.
  destruct (collect_phase config i s1) as [[[]|e] s2] eqn:Hcol; simpl in *;
    [|by intros ?].
  destruct Hc as (Htot & Hdirs & _ & Hc).
  destruct (cr_episodes _) as [|data others] eqn:Heps; [by destruct Hc|].
  destruct Hc as (_ & Hfiles & Htrace).
  destruct Hs0 as (Hf0 & Ht0 & Htr0). destruct Hem as (Hf1 & Ht1 & Htr1).
  intros Htest. split; [done|].
  destruct (decide (test_every config = 0%Z)) as [Hz|Hz].
  { rewrite test_phase_zero in Htest by done. done. }
  split; [done|].
  destruct (decide (Z.of_nat i `mod` test_every config = 0)%Z) as [Hm|Hm].
  - pose proof (test_phase_run i s2 Hz Hm) as Ht. simpl in Ht.
    rewrite Htest in Ht. simpl in Ht.
    destruct Ht as (Htot' & Hdirs' & Hfiles' & Ht).
    destruct (cr_episodes (collect_oracle (world s2) TestCollector 1 false).1)
      as [|tdata tothers] eqn:Hteps; [by destruct Ht|].
    destruct Ht as [_ Ht].
    eexists steps, _, data, others, _.
    split; [done|]. split; [done|]. split; [done|]. split; [by eexists|].
    split; [rewrite Htot', Htot, Ht1, Ht0; done|].
    split; [rewrite Hdirs', Hdirs, Hf1, Hf0; done|].
    split.
    { rewrite Ht, Htrace, Htr1, Htr0, Htot'.
      rewrite <-!app_assoc. reflexivity. }
    left. split; [done|]. eexists _, _, _. split; [by rewrite Htot'|].
    rewrite Hfiles', Hfiles, Hf1, Hf0, Htot'. done.
  - rewrite test_phase_skip in Htest by done. simplify_eq.
    eexists steps, _, data, others, [].
    split; [done|]. split; [done|]. split; [done|]. split; [by eexists|].
    split; [rewrite Htot, Ht1, Ht0; done|].
    split; [rewrite Hdirs, Hf1, Hf0; done|].
    split.
    { rewrite Htrace, Htr1, Htr0.
      rewrite <-!app_assoc. reflexivity. }
    right. split; [done|]. split; [done|].
    rewrite Hfiles, Hf1, Hf0. done.
Qed.

End WithConfig.
End Phases.

(** Summing the training steps of an explicit list of events. *)
Ltac steps_norm :=
  unfold trained_steps, prefill_steps, epoch_steps, sum_steps in *; simpl in *;
  repeat case_bool_decide; (lia || (exfalso; intuition congruence)).

Section Invariants.
Context {T : Carriers} {C : Collaborators}.

(** * Invariants of a run *)

Lemma all_events_nil (Q : list event → event → Prop) : all_events Q [].
Proof. intros n e Hn. done. Qed.

Lemma all_events_snoc (Q : list event → event → Prop) (pre : list event) (e : event) :
  all_events Q pre → Q pre e → all_events Q (pre ++ [e]).
Proof.
  intros Hpre He n x Hn.
  destruct (decide (n < length pre)) as [Hlt|Hge].
  - rewrite lookup_app_l in Hn by done. rewrite take_app_le by lia. by apply Hpre.
  - rewrite lookup_app_r in Hn by lia.
    destruct (n - length pre) as [|m] eqn:E; [|by destruct m].
    injection Hn as <-. assert (n = length pre) as -> by lia.
    by rewrite take_app_length.
Qed.

Lemma all_events_app (Q : list event → event → Prop) (evs pre : list event) :
  all_events Q pre → all_events_from Q pre evs → all_events Q (pre ++ evs).
Proof.
  revert pre. induction evs as [|e evs IH]; intros pre Hpre Hevs.
  - by rewrite app_nil_r.
  - destruct Hevs as [He Hevs]. rewrite cons_middle, app_assoc.
    apply IH; [by apply all_events_snoc | done].
Qed.

Lemma replay_app (a b : list event) (m : gmap string File) :
  replay (a ++ b) m = replay b (replay a m).
Proof. apply foldl_app. Qed.

Lemma silent_write (e : event) (m : gmap string File) :
  silent e = true → apply_write m e = m.
Proof. by destruct e. Qed.

Lemma replay_silent (evs : list event) (m : gmap string File) :
  Forall (λ e, silent e = true) evs → replay evs m = m.
Proof.
  intros H. revert m. induction H as [|e evs He Hevs IH]; intros m; [done|].
  unfold replay in *. simpl. rewrite silent_write by done. apply IH.
Qed.

Lemma silent_steps (rnd : bool) (e : event) :
  silent e = true → env_steps_of TrainCollector rnd e = 0%Z.
Proof.
  destruct e as [| | | | |c' n b r| | | | | | | | | | | |]; try done.
  simpl. intros ->%bool_decide_eq_true. case_bool_decide as Hc; [by destruct Hc | done].
Qed.

Lemma sum_steps_silent (rnd : bool) (evs : list event) :
  Forall (λ e, silent e = true) evs → sum_steps TrainCollector rnd evs = 0%Z.
Proof.
  induction 1 as [|e evs He _ IH]; [done|].
  unfold sum_steps in *. simpl. rewrite IH, silent_steps by done. done.
Qed.

Lemma trained_steps_silent (evs : list event) :
  Forall (λ e, silent e = true) evs → trained_steps evs = 0%Z.
Proof.
  intros H. unfold trained_steps, prefill_steps, epoch_steps.
  by rewrite !sum_steps_silent.
Qed.

Lemma trained_steps_snoc_collect (pre : list event) n rnd r :
  trained_steps (pre ++ [EvCollect TrainCollector n rnd r])
  = (trained_steps pre + cr_env_steps r)%Z.
Proof.
  rewrite trained_steps_app. f_equal.
  unfold trained_steps, prefill_steps, epoch_steps, sum_steps. simpl.
  destruct rnd; repeat case_bool_decide; (lia || (exfalso; intuition congruence)).
Qed.

Lemma savez_events_silent (evs : list event) :
  Forall (λ e, silent e = true) evs → savez_events evs = [].
Proof.
  induction 1 as [|e evs He _ IH]; [done|].
  unfold savez_events in *. by destruct e.
Qed.

Lemma silent_steps_events (steps : list (list event)) :
  Forall train_step_events steps → Forall (λ e, silent e = true) (concat steps).
Proof.
  induction 1 as [|evs steps Hevs _ IH]; simpl; [done|].
  apply Forall_app. split; [|done].
  destruct Hevs as [[b ->]|[b ->]]; by repeat constructor.
Qed.

Section WithConfig.
Variable config : DreamerConfig.
Variable f0 : FileSystem.
Variable p0 : Z.

Lemma created_app (pre evs : list event) :
  created config pre → created config (pre ++ evs).
Proof.
  unfold created. intros H.
  destruct pre as [|a [|b pre]]; try done.
Qed.

Lemma silent_event_ok (pre : list event) (e : event) :
  silent e = true → created config pre → event_ok config pre e.
Proof. intros He Hc. by destruct e. Qed.

Lemma all_events_from_silent (evs pre : list event) :
  Forall (λ e, silent e = true) evs →
  created config pre →
  all_events_from (event_ok config) pre evs.
Proof.
  intros H. revert pre. induction H as [|e evs He _ IH]; intros pre Hc; [done|].
  split; [by apply silent_event_ok|]. by apply IH, created_app.
Qed.

Lemma good_extend (st st' : State) (evs : list event) :
  good config f0 p0 st →
  trace st' = trace st ++ evs →
  files (fs st') = replay evs (files (fs st)) →
  total_env_steps st' = (total_env_steps st + trained_steps evs)%Z →
  prefill_steps evs = 0%Z →
  all_events_from (event_ok config) (trace st) evs →
  good config f0 p0 st'.
Proof.
  intros (Hc & Hf & Ht & Hp & Ha) Htr Hfs Htot Hpre Hevs. unfold good.
  rewrite Htr, Hfs, Htot, Hf, Ht, replay_app, trained_steps_app.
  split; [by apply created_app|]. split; [done|]. split; [done|].
  split; [unfold prefill_steps in *; rewrite sum_steps_app; lia|].
  by apply all_events_app.
Qed.

Lemma good_emits (st st' : State) (evs : list event) :
  good config f0 p0 st →
  emits st st' evs →
  Forall (λ e, silent e = true) evs →
  good config f0 p0 st'.
Proof.
  intros Hg (Hfs & Htot & Htr) Hs. eapply good_extend; [done..| | | |].
  - by rewrite replay_silent, Hfs.
  - rewrite trained_steps_silent by done. lia.
  - by apply sum_steps_silent.
  - apply all_events_from_silent; [done|]. apply Hg.
Qed.

Lemma keeps_bind (I : State → Prop) {A B} (m : M A) (k : A → M B) :
  keeps I m → (∀ a, keeps I (k a)) → keeps I (bind m k).
Proof.
  intros Hm Hk st HI. unfold bind. specialize (Hm st HI).
  destruct (m st) as [[a|e] st1]; simpl in *; [by apply Hk | done].
Qed.

Lemma keeps_for_range (I : State → Prop) {A} (n : nat) (body : nat → A → M A) (a : A) :
  (∀ i x, keeps I (body i x)) → keeps I (for_range n body a).
Proof.
  intros Hb. induction n as [|n IH]; [by intros st|].
  simpl. by apply keeps_bind.
Qed.

Lemma keeps_emit_silent (e : event) :
  silent e = true → keeps (good config f0 p0) (emit e).
Proof.
  intros He st Hg. eapply (good_emits _ _ [e]); [done| |by constructor].
  repeat split. apply trace_emit.
Qed.

Lemma keeps_train_phase : keeps (good config f0 p0) (train_phase config).
Proof.
  intros st Hg.
  destruct (train_phase_cases config st)
    as [(_ & _ & Hem)|(steps & _ & _ & _ & Hem & _ & Hsteps)].
  - eapply good_emits; [done..|]. by repeat constructor.
  - eapply good_emits; [done..|].
    apply Forall_app. split; [by repeat constructor|].
    by apply silent_steps_events.
Qed.

Lemma keeps_collect_phase (i : nat) : keeps (good config f0 p0) (collect_phase config i).
Proof.
  intros st Hg. pose proof (collect_phase_spec config i st) as H. simpl in H.
  destruct H as (Htot & _ & _ & H).
  destruct (cr_episodes _) as [|data others].
  - destruct H as (_ & Hfiles & Htr).
    eapply good_extend; [done..| | | |].
    + done.
    + rewrite Htot. clear. steps_norm.
    + clear. steps_norm.
    + destruct Hg as (Hc & _). simpl. repeat split; by repeat apply created_app.
  - destruct H as (_ & Hfiles & Htr).
    eapply good_extend; [done..| | | |].
    + done.
    + rewrite Htot. clear. steps_norm.
    + clear. steps_norm.
    + destruct Hg as (Hc & _ & Ht & _ & _). unfold collect_events.
      simpl. repeat split; try by repeat apply created_app.
      intros v. simpl. intros [= <-]. rewrite Htot, Ht.
      rewrite <-!app_assoc. simpl.
      rewrite (trained_steps_app (trace st) [_; _; _]).
      f_equal. f_equal. clear. steps_norm.
Qed.

Lemma keeps_test_phase (i : nat) : keeps (good config f0 p0) (test_phase config i).
Proof.
  intros st Hg. destruct (decide (test_every config = 0%Z)) as [Hz|Hz].
  { by rewrite test_phase_zero. }
  destruct (decide (Z.of_nat i `mod` test_every config = 0)%Z) as [Hm|Hm].
  2: { by rewrite test_phase_skip. }
  pose proof (test_phase_run config i st Hz Hm) as H. simpl in H.
  destruct H as (Htot & _ & Hfiles & H).
  destruct Hg as (Hc & Hf & Ht & Hp & Ha).
  destruct (cr_episodes _) as [|data others]; destruct H as (_ & Htr).
  - eapply good_extend; [done..| | | |].
    + done.
    + rewrite Htot. clear. steps_norm.
    + clear. steps_norm.
    + simpl. rewrite Ht. repeat split; try by repeat apply created_app.
      simpl. rewrite (trained_steps_app _ [_]). f_equal. clear. steps_norm.
  - eapply good_extend; [done..| | | |].
    + done.
    + rewrite Htot. clear. steps_norm.
    + clear. steps_norm.
    + unfold test_events. simpl. rewrite Ht.
      repeat split; try by repeat apply created_app.
      simpl. rewrite (trained_steps_app _ [_]). f_equal. clear. steps_norm.
Qed.

Lemma keeps_epoch (i : nat) : keeps (good config f0 p0) (epoch config i).
Proof.
  unfold epoch. apply keeps_bind; [by apply keeps_emit_silent|]. intros _.
  apply keeps_bind; [apply keeps_train_phase|]. intros _.
  apply keeps_bind; [apply keeps_collect_phase|]. intros _.
  apply keeps_test_phase.
Qed.

End WithConfig.
End Invariants.

Section Startup.
Context {T : Carriers} {C : Collaborators}.
Variable config : DreamerConfig.

(** * Start-up *)

Lemma isdir_mono (f f' : FileSystem) (p : string) :
  dirs f ⊆ dirs f' → isdir f p = true → isdir f' p = true.
Proof.
  unfold isdir. intros Hsub. destruct (Path.is_empty p); [done|]. simpl.
  destruct (Path.components p); [done|].
  intros H%bool_decide_eq_true. apply bool_decide_eq_true. by apply Hsub.
Qed.

(** A path whose last component is [.] names what its head names. *)
Lemma isdir_dot (f : FileSystem) (name head : string) :
  Path.split2 name = (head, ".") → Path.is_empty head = false →
  isdir f name = isdir f head.
Proof.
  intros Hs Hh. unfold isdir, Path.key_of.
  rewrite (split2_nonempty name head "." Hs eq_refl), Hh.
  rewrite (components_split2 name head "." Hs). simpl.
  by rewrite (split2_starts_with_sep name head "." Hs Hh).
Qed.

Lemma mkdir_spec (path : string) (st : State) :
  match (mkdir path st).1 with
  | Ok _ =>
      files (fs (mkdir path st).2) = files (fs st) ∧
      dirs (fs (mkdir path st).2) = {[Path.key_of path]} ∪ dirs (fs st) ∧
      world (mkdir path st).2 = world st ∧
      total_env_steps (mkdir path st).2 = total_env_steps st ∧
      log (mkdir path st).2 = log st ∧
      isdir (fs (mkdir path st).2) path = true ∧
      isdir (fs st) path = false
  | Raise e =>
      (mkdir path st).2 = st ∧
      is_OSError e = true ∧
      (is_FileExistsError e = true →
       isdir (fs st) path = true
       ∨ is_Some (files (fs st) !! Path.rstrip_sep path))
  end.
Proof.
  unfold mkdir. mrun.
  destruct (Path.is_empty path) eqn:He; simpl; [done|].
  destruct (os_refuses (fs st) path) as [code|]; simpl.
  { split; [done|]. by destruct code. }
  destruct (Path.components path) as [|c cs] eqn:Hc; simpl.
  { split; [done|]. split; [done|]. intros _. left.
    unfold isdir. by rewrite He, Hc. }
  case_bool_decide as Hp; simpl; [done|].
  destruct (negb (Path.is_empty (Path.split2 path).1)
            && negb (isdir (fs st) (Path.split2 path).1)); simpl; [done|].
  destruct (isdir (fs st) path) eqn:Hd; simpl.
  { split; [done|]. split; [done|]. intros _. by left. }
  case_bool_decide as Hf; simpl.
  { split; [done|]. split; [done|]. intros _. by right. }
  repeat split. unfold isdir. simpl. rewrite He, Hc. simpl.
  apply bool_decide_eq_true, elem_of_union_l. by apply elem_of_singleton.
Qed.

Lemma mkdir_exist_ok_spec (name : string) (st : State) :
  files (fs (mkdir_exist_ok name st).2) = files (fs st) ∧
  dirs (fs st) ⊆ dirs (fs (mkdir_exist_ok name st).2) ∧
  world (mkdir_exist_ok name st).2 = world st ∧
  total_env_steps (mkdir_exist_ok name st).2 = total_env_steps st ∧
  log (mkdir_exist_ok name st).2 = log st ∧
  match (mkdir_exist_ok name st).1 with
  | Ok _ => isdir (fs (mkdir_exist_ok name st).2) name = true
  | Raise e =>
      is_OSError e = true ∧
      (is_FileExistsError e = true →
       is_Some (files (fs st) !! Path.rstrip_sep name))
  end.
Proof.
  unfold mkdir_exist_ok, try_except.
  pose proof (mkdir_spec name st) as Hm.
  destruct (mkdir name st) as [[[]|e] s2]; simpl in *.
  - destruct Hm as (Hf2 & Hd2 & Hw2 & Ht2 & Hl2 & Hdir & _).
    rewrite Hd2. repeat split; try done. apply union_subseteq_r.
  - destruct Hm as (-> & Hos & Hfee). rewrite Hos. mrun.
    destruct (isdir (fs st) name) eqn:Hdir; simpl; [done|].
    repeat split; try done.
    intros Hx. by destruct (Hfee Hx).
Qed.

Lemma makedirs_upto_eq (fuel : nat) (name head tail : string) (st : State) :
  Path.split2 name = (head, tail) →
  makedirs_upto fuel name st
  = if negb (Path.is_empty head) && negb (Path.is_empty tail)
       && negb (exists_ (fs st) head) then
      match fuel with
      | O => mkdir_exist_ok name st
      | S fuel' =>
          match makedirs_upto fuel' head st with
          | (Ok _, s1) =>
              if bool_decide (tail = ".") then (Ok (), s1) else mkdir_exist_ok name s1
          | (Raise e, s1) =>
              if is_FileExistsError e then
                if bool_decide (tail = ".") then (Ok (), s1)
                else mkdir_exist_ok name s1
              else (Raise e, s1)
          end
      end
    else mkdir_exist_ok name st.
Proof.
  intros Hs.
  assert (makedirs_upto fuel name
    = (let (head, tail) := Path.split2 name in
       bind get_fs (λ f,
         bind (if negb (Path.is_empty head) && negb (Path.is_empty tail)
                  && negb (exists_ f head) then
                 match fuel with
                 | O => ret false
                 | S fuel' =>
                     bind (try_except is_FileExistsError (makedirs_upto fuel' head)
                             (λ _, ret ()))
                          (λ _, ret (bool_decide (tail = ".")))
                 end
               else ret false)
              (λ returned : bool,
                 if returned then ret () else mkdir_exist_ok name)))) as ->
    by by destruct fuel.
  rewrite Hs. unfold bind, get_fs, ret, try_except. simpl.
  destruct (negb (Path.is_empty head) && negb (Path.is_empty tail)
            && negb (exists_ (fs st) head)); [|done].
  destruct fuel as [|fuel]; [done|].
  destruct (makedirs_upto fuel head st) as [[[]|e] s1]; simpl.
  - by case_bool_decide.
  - destruct (is_FileExistsError e); [|done]. by case_bool_decide.
Qed.

(** [os.makedirs] touches no file and takes no directory away; when it
    returns, the path is a directory; when it raises, it raises an
    [OSError], and [FileExistsError] only for a path taken by a file. *)
Lemma makedirs_upto_spec (fuel : nat) (name : string) (st : State) :
  files (fs (makedirs_upto fuel name st).2) = files (fs st) ∧
  dirs (fs st) ⊆ dirs (fs (makedirs_upto fuel name st).2) ∧
  world (makedirs_upto fuel name st).2 = world st ∧
  total_env_steps (makedirs_upto fuel name st).2 = total_env_steps st ∧
  log (makedirs_upto fuel name st).2 = log st ∧
  match (makedirs_upto fuel name st).1 with
  | Ok _ => isdir (fs (makedirs_upto fuel name st).2) name = true
  | Raise e =>
      is_OSError e = true ∧
      (is_FileExistsError e = true →
       is_Some (files (fs st) !! Path.rstrip_sep name))
  end.
Proof.
  revert name st. induction fuel as [|fuel IH]; intros name st.
  all: destruct (Path.split2 name) as [head tail] eqn:Hs.
  all: rewrite (makedirs_upto_eq _ name head tail st Hs).
  all: destruct (negb (Path.is_empty head) && negb (Path.is_empty tail)
                 && negb (exists_ (fs st) head)) eqn:Hcond;
         [|apply mkdir_exist_ok_spec].
  { apply mkdir_exist_ok_spec. }
  apply andb_prop in Hcond as [[Hh Ht]%andb_prop Hex].
  apply negb_true_iff in Hh, Ht, Hex.
  apply orb_false_elim in Hex as [Hdir Hfile].
  apply bool_decide_eq_false in Hfile.
  destruct (IH head st) as (Hf1 & Hd1 & Hw1 & Ht1 & Hl1 & Hout).
  (* The last step, on the state [s1] the parents left. *)
  assert (Hlast : ∀ s1,
    files (fs s1) = files (fs st) → dirs (fs st) ⊆ dirs (fs s1) →
    world s1 = world st → total_env_steps s1 = total_env_steps st →
    log s1 = log st →
    files (fs (mkdir_exist_ok name s1).2) = files (fs st) ∧
    dirs (fs st) ⊆ dirs (fs (mkdir_exist_ok name s1).2) ∧
    world (mkdir_exist_ok name s1).2 = world st ∧
    total_env_steps (mkdir_exist_ok name s1).2 = total_env_steps st ∧
    log (mkdir_exist_ok name s1).2 = log st ∧
    match (mkdir_exist_ok name s1).1 with
    | Ok _ => isdir (fs (mkdir_exist_ok name s1).2) name = true
    | Raise e =>
        is_OSError e = true ∧
        (is_FileExistsError e = true →
         is_Some (files (fs st) !! Path.rstrip_sep name))
    end).
  { intros s1 Hf Hd Hw Ht' Hl.
    destruct (mkdir_exist_ok_spec name s1) as (Hf2 & Hd2 & Hw2 & Ht2 & Hl2 & Hout2).
    rewrite Hf2, Hw2, Ht2, Hl2, <-Hf. repeat split; try done.
    by transitivity (dirs (fs s1)). }
  destruct (makedirs_upto fuel head st) as [[[]|e] s1]; simpl in *.
  - (* the parents were made *)
    case_bool_decide as Hdot; [|by apply Hlast].
    subst tail. simpl. rewrite (isdir_dot _ name head Hs Hh). done.
  - destruct Hout as [Hos Hfee].
    destruct (is_FileExistsError e) eqn:Hfe;
      [|repeat split; try done; intros Hx; congruence].
    (* not reached: the head would be a file *)
    exfalso. apply Hfile. specialize (Hfee eq_refl).
    pose proof (split2_head_stripped name) as Hstrip. rewrite Hs in Hstrip.
    simpl in Hstrip. destruct Hstrip as [Hall | Hstrip]; [|by rewrite <-Hstrip].
    unfold isdir in Hdir. rewrite Hh, (components_all_sep head Hall) in Hdir.
    done.
Qed.

(** The fuel [makedirs] gives is enough: more of it changes nothing. *)
Lemma makedirs_upto_fuel (n : nat) (name : string) (st : State) :
  String.length name ≤ n →
  makedirs_upto n name st = makedirs_upto (String.length name) name st.
Proof.
  revert name st. induction n as [n IH] using lt_wf_ind. intros name st Hn.
  destruct (Path.split2 name) as [head tail] eqn:Hs.
  rewrite !(makedirs_upto_eq _ name head tail st Hs).
  destruct (negb (Path.is_empty head) && negb (Path.is_empty tail)
            && negb (exists_ (fs st) head)) eqn:Hcond; [|done].
  apply andb_prop in Hcond as [[_ Ht]%andb_prop _].
  apply negb_true_iff in Ht.
  pose proof (split2_shorter name head tail Hs Ht) as Hlt.
  destruct n as [|n]; [lia|].
  destruct (String.length name) as [|m] eqn:Hm; [lia|].
  rewrite (IH n) by lia. rewrite (IH m) by lia. done.
Qed.

Lemma exists_mono (f f' : FileSystem) (p : string) :
  files f' = files f → dirs f ⊆ dirs f' → exists_ f p = true → exists_ f' p = true.
Proof.
  unfold exists_. intros Hf Hd [H|H]%orb_prop.
  - by rewrite (isdir_mono f f' p Hd H).
  - by rewrite Hf, H, orb_true_r.
Qed.

(** On a directory, the last lines of [os.makedirs] change nothing, whatever
    [mkdir] answers. *)
Lemma mkdir_exist_ok_isdir (name : string) (st : State) :
  isdir (fs st) name = true → mkdir_exist_ok name st = (Ok (), st).
Proof.
  intros Hdir. unfold mkdir_exist_ok, try_except.
  pose proof (mkdir_spec name st) as Hm.
  destruct (mkdir name st) as [[[]|e] s2]; simpl in *.
  - destruct Hm as (_ & _ & _ & _ & _ & _ & Hno). congruence.
  - destruct Hm as (-> & -> & _). mrun. by rewrite Hdir.
Qed.

(** When [os.makedirs] has returned, the parent of the path exists. *)
Lemma makedirs_upto_parent (fuel : nat) (name head tail : string) (st : State) :
  String.length name ≤ fuel →
  Path.split2 name = (head, tail) →
  (makedirs_upto fuel name st).1 = Ok () →
  negb (Path.is_empty head) && negb (Path.is_empty tail)
  && negb (exists_ (fs (makedirs_upto fuel name st).2) head) = false.
Proof.
  intros Hfuel Hs. rewrite (makedirs_upto_eq _ name head tail st Hs).
  destruct (negb (Path.is_empty head) && negb (Path.is_empty tail)
            && negb (exists_ (fs st) head)) eqn:Hcond.
  2: { intros _.
       destruct (mkdir_exist_ok_spec name st) as (Hf & Hd & _).
       apply andb_false_iff in Hcond as [Hcond|Hex]; [by rewrite Hcond|].
       apply negb_false_iff in Hex.
       by rewrite (exists_mono _ _ head Hf Hd Hex), andb_false_r. }
  apply andb_prop in Hcond as [[Hh Ht]%andb_prop Hex].
  apply negb_true_iff in Hh, Ht, Hex.
  pose proof (split2_shorter name head tail Hs Ht) as Hlt.
  destruct fuel as [|fuel]; [lia|].
  destruct (makedirs_upto_spec fuel head st) as (Hf1 & Hd1 & _ & _ & _ & Hout).
  assert (Hfile : ¬ is_Some (files (fs st) !! Path.rstrip_sep head)).
  { apply orb_false_elim in Hex as [Hdir Hfile].
    apply bool_decide_eq_false in Hfile.
    pose proof (split2_head_stripped name) as Hstrip. rewrite Hs in Hstrip.
    simpl in Hstrip. destruct Hstrip as [Hall | Hstrip]; [|by rewrite Hstrip].
    unfold isdir in Hdir. rewrite Hh, (components_all_sep head Hall) in Hdir.
    done. }
  destruct (makedirs_upto fuel head st) as [[[]|e] s1]; simpl in *.
  - assert (Hex1 : exists_ (fs s1) head = true).
    { unfold exists_. by rewrite Hout. }
    case_bool_decide; simpl.
    + intros _. by rewrite Hex1, andb_false_r.
    + intros _. destruct (mkdir_exist_ok_spec name s1) as (Hf & Hd & _).
      by rewrite (exists_mono _ _ head Hf Hd Hex1), andb_false_r.
  - destruct Hout as [_ Hfee].
    destruct (is_FileExistsError e) eqn:Hfe; [|done].
    by destruct (Hfile (Hfee eq_refl)).
Qed.

(** [exist_ok=True]: on a directory it has made, [os.makedirs] returns
    again, whatever the system would now refuse, and changes nothing. *)
Lemma makedirs_again (path : string) (st st1 s : State) :
  makedirs path st = (Ok (), st1) →
  files (fs s) = files (fs st1) → dirs (fs st1) ⊆ dirs (fs s) →
  ∃ s', makedirs path s = (Ok (), s') ∧ fs s' = fs s ∧
        world s' = world s ∧ total_env_steps s' = total_env_steps s.
Proof.
  unfold makedirs. intros Hm Hf Hd.
  destruct (Path.split2 path) as [head tail] eqn:Hs.
  pose proof (makedirs_upto_parent (String.length path) path head tail st
                ltac:(lia) Hs) as Hpar.
  destruct (makedirs_upto_spec (String.length path) path st) as (_ & _ & _ & _ & _ & Hout).
  unfold bind in Hm.
  destruct (makedirs_upto (String.length path) path st) as [[[]|e] s0]; [|done].
  simpl in *. injection Hm as <-. simpl in *.
  specialize (Hpar eq_refl).
  assert (Hcond : negb (Path.is_empty head) && negb (Path.is_empty tail)
                  && negb (exists_ (fs s) head) = false).
  { apply andb_false_iff in Hpar as [Hpar|Hex]; [by rewrite Hpar|].
    apply negb_false_iff in Hex.
    by rewrite (exists_mono _ _ head Hf Hd Hex), andb_false_r. }
  unfold bind.
  rewrite (makedirs_upto_eq _ path head tail s Hs), Hcond.
  rewrite mkdir_exist_ok_isdir by by eapply isdir_mono.
  by eexists.
Qed.

Lemma makedirs_spec (path : string) (st : State) :
  files (fs (makedirs path st).2) = files (fs st) ∧
  dirs (fs st) ⊆ dirs (fs (makedirs path st).2) ∧
  world (makedirs path st).2 = world st ∧
  total_env_steps (makedirs path st).2 = total_env_steps st ∧
  match (makedirs path st).1 with
  | Ok _ =>
      isdir (fs (makedirs path st).2) path = true ∧
      trace (makedirs path st).2 = trace st ++ [EvMakedirs path]
  | Raise e =>
      is_OSError e = true ∧ trace (makedirs path st).2 = trace st
  end.
Proof.
  unfold makedirs.
  destruct (makedirs_upto_spec (String.length path) path st)
    as (Hf & Hd & Hw & Ht & Hl & Hout).
  unfold bind.
  destruct (makedirs_upto (String.length path) path st) as [[[]|e] s1]; simpl in *.
  - repeat split; try done. unfold trace. simpl. by rewrite Hl, reverse_cons.
  - repeat split; try done; [apply Hout|]. unfold trace. by rewrite Hl.
Qed.

(** [makedirs] either makes the directory or raises, and in both cases
    leaves the files alone. *)
Lemma makedirs_cases (path : string) (st : State) :
  (∃ st', makedirs path st = (Ok (), st') ∧
     files (fs st') = files (fs st) ∧
     dirs (fs st) ⊆ dirs (fs st') ∧
     total_env_steps st' = total_env_steps st ∧
     world st' = world st ∧
     isdir (fs st') path = true ∧
     trace st' = trace st ++ [EvMakedirs path])
  ∨ (∃ e st', makedirs path st = (Raise e, st') ∧
       files (fs st') = files (fs st) ∧
       total_env_steps st' = total_env_steps st ∧
       is_OSError e = true ∧
       trace st' = trace st).
Proof.
  destruct (makedirs_spec path st) as (Hf & Hd & Hw & Ht & Hout).
  destruct (makedirs path st) as [[[]|e] st'] eqn:Hm; simpl in *.
  - left. exists st'. by destruct Hout.
  - right. exists e, st'. by destruct Hout.
Qed.

Lemma post_init_cases (st : State) :
  (∃ st', post_init config st = (Ok (), st') ∧
     files (fs st') = files (fs st) ∧
     total_env_steps st' = total_env_steps st ∧
     world st' = world st ∧
     trace st' = trace st ++ [EvMakedirs (data_dir config);
                              EvMakedirs (model_dir config)])
  ∨ (∃ e st', post_init config st = (Raise e, st') ∧
       files (fs st') = files (fs st) ∧
       total_env_steps st' = total_env_steps st ∧
       (trace st' = trace st
        ∨ trace st' = trace st ++ [EvMakedirs (data_dir config)])).
Proof.
  unfold post_init.
  destruct (makedirs_cases (data_dir config) st)
    as [(st1 & H1 & Hf1 & _ & Ht1 & Hw1 & _ & Htr1)|(e & st1 & H1 & Hf1 & Ht1 & _ & Htr1)].
  2: { right. exists e, st1. split; [by apply bind_Raise|]. by repeat split; [..|left]. }
  rewrite (bind_Ok _ _ _ _ _ H1).
  destruct (makedirs_cases (model_dir config) st1)
    as [(st2 & H2 & Hf2 & _ & Ht2 & Hw2 & _ & Htr2)|(e & st2 & H2 & Hf2 & Ht2 & _ & Htr2)].
  - left. exists st2. split; [done|].
    rewrite Hf2, Ht2, Hw2, Htr2, Htr1, <-app_assoc. done.
  - right. exists e, st2. split; [done|].
    rewrite Hf2, Ht2, Htr2, Hf1, Ht1, Htr1. by repeat split; [..|right].
Qed.

(** When [__post_init__] returns, both paths are directories; when it
    raises, it raises an [OSError]. *)
Lemma post_init_dirs (st : State) :
  dirs (fs st) ⊆ dirs (fs (post_init config st).2) ∧
  match (post_init config st).1 with
  | Ok _ =>
      isdir (fs (post_init config st).2) (data_dir config) = true ∧
      isdir (fs (post_init config st).2) (model_dir config) = true
  | Raise e => is_OSError e = true
  end.
Proof.
  unfold post_init.
  destruct (makedirs_cases (data_dir config) st)
    as [(st1 & H1 & _ & Hd1 & _ & _ & Hdir1 & _)|(e & st1 & H1 & _ & _ & Hos & _)].
  2: { rewrite (bind_Raise _ _ _ _ _ H1). simpl. split; [|done].
       pose proof (makedirs_spec (data_dir config) st) as (_ & Hd & _).
       by rewrite H1 in Hd. }
  rewrite (bind_Ok _ _ _ _ _ H1).
  destruct (makedirs_cases (model_dir config) st1)
    as [(st2 & H2 & _ & Hd2 & _ & _ & Hdir2 & _)|(e & st2 & H2 & _ & _ & Hos & _)];
    rewrite H2; simpl.
  - split; [by transitivity (dirs (fs st1))|]. split; [|done]. by eapply isdir_mono.
  - split; [|done].
    pose proof (makedirs_spec (model_dir config) st1) as (_ & Hd & _).
    rewrite H2 in Hd. simpl in Hd. by transitivity (dirs (fs st1)).
Qed.

Lemma save_prefill_spec (eps : list Episode) (i : nat) (st : State) :
  ∃ st', save_prefill config i eps st = (Ok (), st') ∧
    total_env_steps st' = total_env_steps st ∧
    trace st' = trace st ++ prefill_events config i eps ∧
    files (fs st') = replay (prefill_events config i eps) (files (fs st)).
Proof.
  revert i st. induction eps as [|ep eps IH]; intros i st.
  - exists st. simpl. by rewrite app_nil_r.
  - simpl. unfold savez_compressed, write_file. mrun.
    match goal with |- context [save_prefill config (S i) eps ?s] =>
      destruct (IH (S i) s) as (st' & Hrun & Htot & Htr & Hfiles)
    end.
    exists st'. split; [done|]. split; [done|]. split.
    + rewrite Htr. trace_norm. done.
    + rewrite Hfiles. done.
Qed.

Lemma prefill_events_saved (eps : list Episode) (i : nat) :
  savez_events (prefill_events config i eps)
  = zip (prefill_path config <$> seq i (length eps)) eps.
Proof.
  revert i. induction eps as [|ep eps IH]; intros i; [done|].
  simpl. unfold savez_events in *. simpl. by rewrite IH.
Qed.

Lemma prefill_events_plain (eps : list Episode) (i : nat) :
  Forall (λ e, plain e = true) (prefill_events config i eps).
Proof.
  revert i. induction eps as [|ep eps IH]; intros i; simpl; [done|].
  constructor; [done | apply IH].
Qed.

Lemma prefill_events_count (p : event → bool) (eps : list Episode) (i : nat) :
  (∀ path ep, p (EvSavez path ep) = false) →
  count p (prefill_events config i eps) = 0.
Proof.
  intros Hp. revert i. induction eps as [|ep eps IH]; intros i; [done|].
  simpl. rewrite count_cons, Hp, IH. done.
Qed.

Lemma prefill_events_steps (eps : list Episode) (i : nat) :
  trained_steps (prefill_events config i eps) = 0%Z.
Proof.
  revert i. induction eps as [|ep eps IH]; intros i; [done|].
  simpl. rewrite trained_steps_cons, IH. done.
Qed.

Lemma prefill_events_collected (eps : list Episode) (i : nat) :
  train_collected (prefill_events config i eps) = [].
Proof.
  revert i. induction eps as [|ep eps IH]; intros i; [done|].
  simpl. unfold train_collected in *. simpl. apply IH.
Qed.

Lemma prefill_spec (st : State) :
  ∃ st', prefill config st = (Ok (), st') ∧
    total_env_steps st' = trained_steps (prefill_trace config (world st)) ∧
    trace st' = trace st ++ prefill_trace config (world st) ∧
    files (fs st') = replay (prefill_trace config (world st)) (files (fs st)).
Proof.
  unfold prefill, prefill_trace, collect. mrun. case_bool_decide as Hpre; mrun.
  - destruct (collect_oracle _ _ _ _) as [r w'] eqn:Ho. simpl.
    match goal with |- context [save_prefill config 0 _ ?s] =>
      destruct (save_prefill_spec (cr_episodes r) 0 s)
        as (st' & Hrun & Htot & Htr & Hfiles)
    end.
    rewrite Hrun. simpl. eexists. split; [done|]. simpl. split; [|split].
    + rewrite Htot. simpl.
      rewrite (trained_steps_cons _ (_ :: _)), (trained_steps_cons _ (_ ++ _)).
      rewrite trained_steps_app, prefill_events_steps. clear. steps_norm.
    + trace_norm. unfold trace in Htr. rewrite Htr. by trace_norm.
    + rewrite Hfiles. simpl. rewrite replay_app. done.
  - eexists. split; [done|]. simpl. split; [|split].
    + clear. steps_norm.
    + by trace_norm.
    + done.
Qed.

Lemma prefill_trace_plain (w : World) :
  Forall (λ e, plain e = true) (prefill_trace config w).
Proof.
  unfold prefill_trace. case_bool_decide; [|by repeat constructor].
  apply Forall_app. split; [by repeat constructor|].
  apply Forall_app. split; [apply prefill_events_plain | by repeat constructor].
Qed.

End Startup.

Section WholeRun.
Context {T : Carriers} {C : Collaborators}.
Variable config : DreamerConfig.

(** * The whole run *)

Lemma plain_event_ok (pre : list event) (e : event) :
  plain e = true → created config pre → event_ok config pre e.
Proof. intros He Hc. by destruct e. Qed.

Lemma all_events_from_plain (evs pre : list event) :
  Forall (λ e, plain e = true) evs →
  created config pre →
  all_events_from (event_ok config) pre evs.
Proof.
  intros H. revert pre. induction H as [|e evs He _ IH]; intros pre Hc; [done|].
  split; [by apply plain_event_ok|]. by apply IH, created_app.
Qed.

Lemma prefill_trace_steps (w : World) :
  prefill_steps (prefill_trace config w) = prefill_count config w ∧
  epoch_steps (prefill_trace config w) = 0%Z.
Proof.
  unfold prefill_trace, prefill_count. case_bool_decide; [|done].
  unfold prefill_steps, epoch_steps, trained_steps in *.
  rewrite !sum_steps_app.
  assert (∀ rnd l, sum_steps TrainCollector rnd
            (prefill_events config 0 l) = 0%Z) as Hz.
  { intros rnd l. generalize 0. induction l as [|ep l IH]; intros i; [done|].
    simpl. unfold sum_steps in *. simpl. by rewrite IH. }
  rewrite !Hz. clear. split; steps_norm.
Qed.

Lemma startup_Raise (f : FileSystem) (w : World) (e : exn) (st1 : State) :
  post_init config (init_state f w) = (Raise e, st1) →
  (∀ k, main_upto config k (init_state f w) = (Raise e, st1)) ∧
  files (fs st1) = files f ∧
  total_env_steps st1 = 0%Z ∧
  (trace st1 = [] ∨ trace st1 = [EvMakedirs (data_dir config)]).
Proof.
  intros Hp. split.
  { intros k. unfold main_upto, startup. by do 2 apply bind_Raise. }
  destruct (post_init_cases config (init_state f w))
    as [(st' & H & _)|(e' & st' & H & Hf & Ht & Htr)]; [congruence|].
  rewrite Hp in H. injection H as <- <-. done.
Qed.

Lemma startup_Ok (f : FileSystem) (w : World) (st1 : State) :
  post_init config (init_state f w) = (Ok (), st1) →
  ∃ st, startup config (init_state f w) = (Ok (), st) ∧
    trace st = startup_trace config w ∧
    good config f (prefill_count config w) st.
Proof.
  intros Hp.
  destruct (post_init_cases config (init_state f w))
    as [(st' & H & Hf & Ht & Hw & Htr)|(e' & st' & H & _)]; [|congruence].
  rewrite Hp in H. injection H as <-.
  unfold startup. rewrite (bind_Ok _ _ _ _ _ Hp). mrun.
  match goal with |- context [prefill config ?s] =>
    destruct (prefill_spec config s) as (st & Hrun & Htot & Htrace & Hfiles)
  end.
  simpl in *. rewrite Hw in *. simpl in *.
  assert (Htr' : trace st = startup_trace config w).
  { rewrite Htrace. trace_norm. unfold trace in Htr. rewrite Htr. done. }
  exists st. split; [done|]. split; [done|].
  destruct (prefill_trace_steps w) as [Hpre Hep].
  unfold good. rewrite Htr'. split; [done|]. split; [|split; [|split]].
  - rewrite Hfiles, Hf. done.
  - rewrite Htot. unfold startup_trace. rewrite trained_steps_app.
    clear. steps_norm.
  - unfold startup_trace, prefill_steps in *. rewrite sum_steps_app, Hpre.
    clear. steps_norm.
  - apply (all_events_app _ ([EvWandbInit; EvEnv; EvDreamer] ++ prefill_trace config w)
             [EvMakedirs (data_dir config); EvMakedirs (model_dir config)]).
    + intros [|[|n]] e [= <-]; (split; [|done]); [by left | by right].
    + apply all_events_from_plain; [|done].
      repeat (constructor; [done|]). apply prefill_trace_plain.
Qed.

Lemma main_upto_S (k : nat) (st0 : State) :
  main_upto config (S k) st0
  = bind (main_upto config k) (λ _, epoch config k) st0.
Proof.
  unfold main_upto, bind. simpl.
  destruct (startup config st0) as [[[]|e] s]; [|done].
  unfold bind. destruct (for_range k _ () s) as [[[]|e] s']; done.
Qed.

Lemma main_upto_S_Ok (k : nat) (st0 st : State) :
  main_upto config (S k) st0 = (Ok (), st) →
  ∃ st1, main_upto config k st0 = (Ok (), st1) ∧ epoch config k st1 = (Ok (), st).
Proof.
  rewrite main_upto_S. unfold bind.
  destruct (main_upto config k st0) as [[[]|e] st1]; [|done].
  intros H. by exists st1.
Qed.

Lemma main_upto_0 (st0 : State) : main_upto config 0 st0 = startup config st0.
Proof.
  unfold main_upto, bind. simpl. unfold ret.
  by destruct (startup config st0) as [[[]|e] s].
Qed.

(** Every state a run reaches after the directories exist is [good]. *)
Lemma run_good (f : FileSystem) (w : World) (st1 : State) (k : nat) :
  post_init config (init_state f w) = (Ok (), st1) →
  good config f (prefill_count config w) (main_upto config k (init_state f w)).2.
Proof.
  intros Hp. destruct (startup_Ok f w st1 Hp) as (st & Hs & _ & Hg).
  unfold main_upto. rewrite (bind_Ok _ _ _ _ _ Hs).
  apply keeps_for_range; [|done]. intros i []. apply keeps_epoch.
Qed.

(** The outcome of the directory creation decides between the two kinds of
    run. *)
Lemma run_cases (f : FileSystem) (w : World) (k : nat) :
  let r := main_upto config k (init_state f w) in
  good config f (prefill_count config w) r.2
  ∨ (∃ e, r.1 = Raise e) ∧ files (fs r.2) = files f ∧ total_env_steps r.2 = 0%Z
    ∧ (trace r.2 = [] ∨ trace r.2 = [EvMakedirs (data_dir config)]).
Proof.
  destruct (post_init config (init_state f w)) as [[[]|e] st1] eqn:Hp.
  - left. by eapply run_good.
  - right. destruct (startup_Raise f w e st1 Hp) as (Hrun & Hf & Ht & Htr).
    simpl. rewrite Hrun. simpl. split; [by eexists|done].
Qed.

(** * The directories stay *)

Lemma save_prefill_dirs (eps : list Episode) (i : nat) (st : State) :
  dirs (fs (save_prefill config i eps st).2) = dirs (fs st).
Proof.
  revert i st. induction eps as [|ep eps IH]; intros i st; [done|].
  simpl. unfold savez_compressed, write_file. mrun. by rewrite IH.
Qed.

Lemma prefill_dirs (st : State) :
  dirs (fs (prefill config st).2) = dirs (fs st).
Proof.
  unfold prefill, collect. mrun. case_bool_decide as Hpre; mrun; [|done].
  destruct (collect_oracle _ _ _ _) as [r w'] eqn:Ho. simpl.
  match goal with |- context [save_prefill config 0 ?l ?s] =>
    pose proof (save_prefill_dirs l 0 s) as Hd;
    destruct (save_prefill_spec config l 0 s) as (st' & Hrun & _)
  end.
  rewrite Hrun in Hd |- *. simpl in *. done.
Qed.

Lemma epoch_dirs (i : nat) (st : State) :
  dirs (fs (epoch config i st).2) = dirs (fs st).
Proof.
  rewrite epoch_unfold. set (s0 := (emit (EvEpoch i) st).2).
  change (dirs (fs st)) with (dirs (fs s0)).
  destruct (train_phase_cases config s0)
    as [(Hr & _ & Hf & _)|(steps & Hr & _ & _ & (Hf & _) & _)].
  { destruct (train_phase config s0) as [[[]|e] s1] eqn:Htrain; simpl in *; [done|].
    rewrite (bind_Raise _ _ _ _ _ Htrain). simpl. by rewrite Hf. }
  destruct (train_phase config s0) as [[[]|e] s1] eqn:Htrain; simpl in *; [|done].
  rewrite (bind_Ok _ _ _ _ _ Htrain), <-Hf.
  pose proof (collect_phase_spec config i s1) as Hc. simpl in Hc.
  destruct Hc as (_ & Hd & _).
  destruct (collect_phase config i s1) as [[[]|e] s2] eqn:Hcp; simpl in *.
  2: { by rewrite (bind_Raise _ _ _ _ _ Hcp). }
  rewrite (bind_Ok _ _ _ _ _ Hcp), <-Hd.
  destruct (decide (test_every config = 0%Z)) as [Hz|Hz].
  { by rewrite test_phase_zero. }
  destruct (decide (Z.of_nat i `mod` test_every config = 0)%Z) as [Hm|Hm].
  2: { by rewrite test_phase_skip. }
  pose proof (test_phase_run config i s2 Hz Hm) as Ht. simpl in Ht.
  by destruct Ht as (_ & Hd' & _).
Qed.

Lemma loop_dirs (k : nat) (st : State) :
  dirs (fs (for_range k (λ i _, epoch config i) () st).2) = dirs (fs st).
Proof.
  induction k as [|k IH]; [done|]. rewrite for_range_S. unfold bind.
  destruct (for_range k _ () st) as [[[]|e] s1]; simpl in *; [|done].
  by rewrite epoch_dirs.
Qed.

(** No directory is made or removed after [__post_init__]. *)
Lemma run_dirs (f : FileSystem) (w : World) (st1 : State) (k : nat) :
  post_init config (init_state f w) = (Ok (), st1) →
  dirs (fs (main_upto config k (init_state f w)).2) = dirs (fs st1).
Proof.
  intros Hp. unfold main_upto, startup.
  unfold bind at 1. rewrite (bind_Ok _ _ _ _ _ Hp). mrun.
  match goal with |- context [prefill config ?s] =>
    pose proof (prefill_dirs s) as Hd;
    destruct (prefill_spec config s) as (st & Hrun & _)
  end.
  rewrite Hrun in Hd |- *. simpl in Hd. by rewrite loop_dirs.
Qed.

End WholeRun.

Section Completed.
Context {T : Carriers} {C : Collaborators}.
Variable config : DreamerConfig.

(** * Completed epochs *)

Lemma count_steps_update (steps : list (list event)) :
  Forall train_step_events steps → count is_update (concat steps) = length steps.
Proof.
  induction 1 as [|evs steps Hevs _ IH]; [done|].
  simpl. rewrite count_app, IH.
  destruct Hevs as [[b ->]|[b ->]]; done.
Qed.

Lemma count_steps_zero (p : event → bool) (steps : list (list event)) :
  (∀ b, p (EvNext b) = false) → p EvIter = false → (∀ b, p (EvUpdate b) = false) →
  Forall train_step_events steps → count p (concat steps) = 0.
Proof.
  intros Hn Hi Hu. induction 1 as [|evs steps Hevs _ IH]; [done|].
  simpl. rewrite count_app, IH.
  destruct Hevs as [[b ->]|[b ->]]; rewrite !count_cons, ?Hn, ?Hi, ?Hu; done.
Qed.

Lemma count_steps_iter (steps : list (list event)) :
  Forall train_step_events steps → count is_iter (concat steps) ≤ length steps.
Proof.
  induction 1 as [|evs steps Hevs _ IH]; [done|].
  simpl. rewrite count_app.
  destruct Hevs as [[b ->]|[b ->]]; simpl; unfold count in *; simpl; lia.
Qed.

(** A completed epoch: its events form an [epoch_segment], hold the one
    archive of the episode, and the training collector's result. *)
Lemma epoch_Ok_summary (i : nat) (st st' : State) :
  epoch config i st = (Ok (), st') →
  ∃ seg w1 data others,
    trace st' = trace st ++ seg ∧
    epoch_segment config i seg ∧
    cr_episodes (collect_oracle w1 TrainCollector 1 false).1 = data :: others ∧
    savez_events seg = [(episode_path config i, data)] ∧
    train_collected seg = data :: others.
Proof.
  intros H. apply epoch_Ok_spec in H
    as (_ & _ & steps & res & data & others & tail & Hlen & Hsteps & Heps
        & [w1 ->] & _ & _ & Htr & Htail).
  eexists _, w1, data, others. split; [exact Htr|].
  assert (Hcases : tail = [] ∨ ∃ blob tres tdata,
            tail = test_events config (total_env_steps st') blob tres tdata).
  { destruct Htail as [(_ & (blob & tres & tdata & -> & _))|(_ & -> & _)];
      [right; by eexists _, _, _ | by left]. }
  split; [|split; [done|split]].
  - exists (setup_events config st ++ concat steps),
      (collect_oracle w1 TrainCollector 1 false).1,
      ([EvSavez (episode_path config i) data;
        EvLog [("env_steps"%string,
                LInt (total_env_steps st' * action_repeats config));
               ("agent/training_return"%string, LReturn data)]] ++ tail).
    split; [by rewrite <-!app_assoc|].
    rewrite !count_app, count_steps_update, !count_steps_zero by done.
    split; [by rewrite Hlen|]. split; [done|]. split; [done|].
    destruct Hcases as [->|(blob & tres & tdata & ->)]; done.
  - rewrite savez_events_cons, !savez_events_app.
    rewrite (savez_events_silent (concat steps)) by by apply silent_steps_events.
    destruct Hcases as [->|(blob & tres & tdata & ->)]; done.
  - rewrite train_collected_cons, !train_collected_app.
    assert (train_collected (concat steps) = []) as ->.
    { clear -Hsteps. induction Hsteps as [|evs steps Hevs _ IH]; [done|].
      simpl. rewrite train_collected_app, IH.
      destruct Hevs as [[b ->]|[b ->]]; done. }
    destruct Hcases as [->|(blob & tres & tdata & ->)]; simpl;
      unfold train_collected; simpl; by rewrite !app_nil_r.
Qed.

(** * Completed runs *)

Lemma startup_trace_counts (w : World) :
  count is_epoch (startup_trace config w) = 0 ∧
  count is_update (startup_trace config w) = 0 ∧
  count is_iter (startup_trace config w) = 0.
Proof.
  unfold startup_trace, prefill_trace. rewrite !count_app.
  case_bool_decide; [|done].
  rewrite !count_app, !prefill_events_count by done. done.
Qed.

Lemma startup_trace_saved (w : World) :
  ∃ eps,
    savez_events (startup_trace config w)
    = zip (prefill_path config <$> seq 0 (length eps)) eps ∧
    train_collected (startup_trace config w) = eps.
Proof.
  unfold startup_trace, prefill_trace. case_bool_decide.
  - eexists. rewrite !savez_events_app, !train_collected_app.
    rewrite prefill_events_saved, prefill_events_collected.
    split; [simpl; by rewrite app_nil_r|].
    unfold train_collected. simpl. by rewrite !app_nil_r.
  - by exists [].
Qed.

Lemma main_upto_Ok_startup (k : nat) (f : FileSystem) (w : World) (st : State) :
  main_upto config k (init_state f w) = (Ok (), st) →
  ∃ st1, post_init config (init_state f w) = (Ok (), st1).
Proof.
  intros H. destruct (post_init config (init_state f w)) as [[[]|e] st1] eqn:Hp.
  - by exists st1.
  - destruct (startup_Raise config f w e st1 Hp) as [Hr _]. rewrite Hr in H. done.
Qed.

(** The trace of a run that completed [k] epochs: the start-up, then one
    segment per epoch. *)
Lemma run_segments (k : nat) (f : FileSystem) (w : World) (st : State) :
  main_upto config k (init_state f w) = (Ok (), st) →
  ∃ segs,
    trace st = startup_trace config w ++ concat segs ∧
    length segs = k ∧
    ∀ i seg, segs !! i = Some seg → epoch_segment config i seg.
Proof.
  revert st. induction k as [|k IH]; intros st Hrun.
  - exists []. rewrite main_upto_0 in Hrun.
    destruct (main_upto_Ok_startup 0 f w st) as [st1 Hp];
      [by rewrite main_upto_0|].
    destruct (startup_Ok config f w st1 Hp) as (st' & Hs & Htr & _).
    rewrite Hs in Hrun. injection Hrun as <-.
    by rewrite app_nil_r.
  - apply main_upto_S_Ok in Hrun as (st1 & Hk & He).
    destruct (IH st1 Hk) as (segs & Htr & Hlen & Hsegs).
    apply epoch_Ok_summary in He as (seg & _ & _ & _ & Htr' & Hseg & _).
    exists (segs ++ [seg]). split; [|split].
    + rewrite Htr', Htr, concat_app, <-!app_assoc. simpl. by rewrite app_nil_r.
    + rewrite length_app. simpl. lia.
    + intros i x Hi. destruct (decide (i < length segs)) as [Hlt|Hge].
      * rewrite lookup_app_l in Hi by done. by apply Hsegs.
      * rewrite lookup_app_r in Hi by lia.
        destruct (i - length segs) as [|m] eqn:E; [|by destruct m].
        injection Hi as <-. by assert (i = k) as -> by lia.
Qed.

(** What a completed run archived: the prefill episodes, then one episode
    per epoch, each under its own name. *)
Lemma run_saved (k : nat) (f : FileSystem) (w : World) (st : State) :
  main_upto config k (init_state f w) = (Ok (), st) →
  ∃ pre datas,
    savez_events (trace st)
    = zip (prefill_path config <$> seq 0 (length pre)) pre
      ++ zip (episode_path config <$> seq 0 k) datas ∧
    length datas = k ∧
    ((∀ w' c n rnd, length (cr_episodes (collect_oracle w' c n rnd).1) = Z.to_nat n) →
     train_collected (trace st) = pre ++ datas).
Proof.
  revert st. induction k as [|k IH]; intros st Hrun.
  - rewrite main_upto_0 in Hrun.
    destruct (main_upto_Ok_startup 0 f w st) as [st1 Hp];
      [by rewrite main_upto_0|].
    destruct (startup_Ok config f w st1 Hp) as (st' & Hs & Htr & _).
    rewrite Hs in Hrun. injection Hrun as <-.
    destruct (startup_trace_saved w) as (eps & Hsaved & Hcol).
    exists eps, []. rewrite Htr, Hsaved, Hcol, !app_nil_r. done.
  - apply main_upto_S_Ok in Hrun as (st1 & Hk & He).
    destruct (IH st1 Hk) as (pre & datas & Hsaved & Hlen & Hcol).
    apply epoch_Ok_summary in He
      as (seg & w1 & data & others & Htr' & _ & Heps & Hsz & Htc).
    exists pre, (datas ++ [data]). split; [|split].
    + rewrite Htr', savez_events_app, Hsaved, Hsz, <-app_assoc. f_equal.
      rewrite seq_S, fmap_app, zip_with_app; [done|].
      by rewrite length_fmap, length_seq.
    + rewrite length_app. simpl. lia.
    + intros Hcontract. rewrite Htr', train_collected_app, Hcol, Htc by done.
      specialize (Hcontract w1 TrainCollector 1%Z false).
      rewrite Heps in Hcontract. destruct others; [|done].
      by rewrite <-app_assoc.
Qed.

End Completed.

Section Store.
Context {T : Carriers} {C : Collaborators}.
Variable config : DreamerConfig.

(** * The store *)

Lemma store_paths_NoDup (n k : nat) :
  NoDup ((prefill_path config <$> seq 0 n) ++ (episode_path config <$> seq 0 k)).
Proof.
  apply NoDup_app. split; [|split].
  - apply (NoDup_fmap_2_strong _); [|apply NoDup_seq].
    intros i j _ _. apply prefill_path_inj.
  - intros p [i [-> _]]%list_elem_of_fmap [j [Hp _]]%list_elem_of_fmap.
    symmetry in Hp. by apply episode_path_ne_prefill in Hp.
  - apply (NoDup_fmap_2_strong _); [|apply NoDup_seq].
    intros i j _ _. apply episode_path_inj.
Qed.

Lemma replay_snoc (tr : list event) (e : event) (m : gmap string File) :
  replay (tr ++ [e]) m = apply_write (replay tr m) e.
Proof. by rewrite replay_app. Qed.

(** An archive written once, and not overwritten by a checkpoint, is in the
    store as it was written. *)
Lemma replay_lookup_saved (tr : list event) (m : gmap string File)
    (p : string) (ep : Episode) :
  NoDup (savez_events tr).*1 →
  (p, ep) ∈ savez_events tr →
  (∀ q blob, EvTorchSave q blob ∈ tr → q ≠ p) →
  replay tr m !! p = Some (NpzFile ep).
Proof.
  induction tr as [|e tr IH] using rev_ind; intros Hnd Hin Hpt.
  { by apply elem_of_nil in Hin. }
  rewrite replay_snoc. rewrite savez_events_app in Hnd, Hin.
  assert (Hpt' : ∀ q blob, EvTorchSave q blob ∈ tr → q ≠ p).
  { intros q blob Hq. apply (Hpt q blob), elem_of_app. by left. }
  destruct e as [| | | | | |q ep'| | | | | | | | | | |q blob];
    try (simpl in *; rewrite app_nil_r in Hnd, Hin; by apply IH).
  - simpl in *. rewrite fmap_app in Hnd. apply NoDup_app in Hnd as (Hnd & Hdisj & _).
    destruct (decide (q = p)) as [->|Hne].
    + rewrite lookup_insert_eq.
      apply elem_of_app in Hin as [Hin|Hin].
      * exfalso. apply (Hdisj p); [|by left].
        apply list_elem_of_fmap. by exists (p, ep).
      * apply list_elem_of_singleton in Hin. by injection Hin as ->.
    + rewrite lookup_insert_ne by done.
      apply IH; [done| |done].
      apply elem_of_app in Hin as [Hin|Hin]; [done|].
      apply list_elem_of_singleton in Hin. congruence.
  - simpl in *. rewrite app_nil_r in Hnd, Hin.
    rewrite lookup_insert_ne; [by apply IH|].
    apply (Hpt q blob), elem_of_app. right. by left.
Qed.

Lemma checkpoints_named (tr : list event) (q : string) (blob : Params) :
  all_events (event_ok config) tr →
  EvTorchSave q blob ∈ tr →
  ∃ z, q = checkpoint_path config z.
Proof.
  intros Ha [n Hn]%list_elem_of_lookup. destruct (Ha n _ Hn) as [_ Hr].
  by eexists.
Qed.

(** After a completed run every archive is in the store, unchanged. *)
Lemma run_files (k : nat) (f : FileSystem) (w : World) (st : State)
    (p : string) (ep : Episode) :
  main_upto config k (init_state f w) = (Ok (), st) →
  (p, ep) ∈ savez_events (trace st) →
  files (fs st) !! p = Some (NpzFile ep).
Proof.
  intros Hrun Hin.
  destruct (main_upto_Ok_startup config k f w st Hrun) as [st1 Hp].
  pose proof (run_good config f w st1 k Hp) as Hg. rewrite Hrun in Hg.
  destruct Hg as (_ & Hfiles & _ & _ & Ha). simpl in *.
  destruct (run_saved config k f w st Hrun) as (pre & datas & Hsaved & Hlen & _).
  assert (Hpaths : (savez_events (trace st)).*1
    = (prefill_path config <$> seq 0 (length pre))
      ++ (episode_path config <$> seq 0 k)).
  { rewrite Hsaved, fmap_app, !fst_zip; [done|..];
      rewrite length_fmap, length_seq; lia. }
  rewrite Hfiles. apply replay_lookup_saved; [| done |].
  - rewrite Hpaths. apply store_paths_NoDup.
  - intros q blob Hq ->. destruct (checkpoints_named _ _ _ Ha Hq) as [z ->].
    assert (Hp' : checkpoint_path config z ∈ (savez_events (trace st)).*1).
    { apply list_elem_of_fmap. by exists (checkpoint_path config z, ep). }
    rewrite Hpaths in Hp'.
    apply elem_of_app in Hp' as [[i [Hi _]]%list_elem_of_fmap|[i [Hi _]]%list_elem_of_fmap].
    + symmetry in Hi. by apply prefill_path_ne_checkpoint in Hi.
    + symmetry in Hi. by apply episode_path_ne_checkpoint in Hi.
Qed.

(** * Bounds, whatever the outcome *)

Lemma quiet_nil : quiet (T := T) [].
Proof. done. Qed.

Lemma quiet_app (a b : list event) : quiet a → quiet b → quiet (a ++ b).
Proof.
  intros (? & ? & ?) (? & ? & ?). unfold quiet. rewrite !count_app. lia.
Qed.

Lemma appends_bind (P : list event → Prop) {A B} (m : M A) (k : A → M B) :
  (∀ a b, P a → P b → P (a ++ b)) →
  appends P m → (∀ a, appends P (k a)) → appends P (bind m k).
Proof.
  intros Happ Hm Hk st. unfold bind. destruct (Hm st) as (evs & Htr & HP).
  destruct (m st) as [[a|e] st1]; simpl in *; [|by exists evs].
  destruct (Hk a st1) as (evs' & Htr' & HP').
  exists (evs ++ evs'). split; [by rewrite Htr', Htr, app_assoc | by apply Happ].
Qed.

Lemma appends_collect_phase (i : nat) : appends quiet (collect_phase config i).
Proof.
  intros st. pose proof (collect_phase_spec config i st) as H. simpl in H.
  destruct H as (_ & _ & _ & H).
  destruct (cr_episodes _); destruct H as (_ & _ & ->); by eexists.
Qed.

Lemma appends_test_phase (i : nat) : appends quiet (test_phase config i).
Proof.
  intros st. destruct (decide (test_every config = 0%Z)) as [Hz|Hz].
  { rewrite test_phase_zero by done. exists []. by rewrite app_nil_r. }
  destruct (decide (Z.of_nat i `mod` test_every config = 0)%Z) as [Hm|Hm].
  2: { rewrite test_phase_skip by done. exists []. by rewrite app_nil_r. }
  pose proof (test_phase_run config i st Hz Hm) as H. simpl in H.
  destruct H as (_ & _ & _ & H).
  destruct (cr_episodes _); destruct H as (_ & ->); by eexists.
Qed.

(** An epoch, however it ends: the tick, the new dataset, and then at most
    [training_steps] updates and one new iterator more than that. *)
Lemma epoch_any (i : nat) (st : State) :
  ∃ evs,
    trace (epoch config i st).2
    = trace st ++ EvEpoch i :: EvDataset (epoch_dataset config st) :: evs ∧
    count is_epoch evs = 0 ∧
    count is_update evs ≤ Z.to_nat (training_steps config) ∧
    count is_iter evs ≤ Z.to_nat (training_steps config) + 1.
Proof.
  rewrite epoch_unfold. set (s0 := (emit (EvEpoch i) st).2).
  assert (Hs0 : trace s0 = trace st ++ [EvEpoch i]) by apply trace_emit.
  unfold bind at 1.
  destruct (train_phase_cases config s0)
    as [(Hr & _ & _ & _ & Htr)|(steps & Hr & _ & _ & (_ & _ & Htr) & Hlen & Hsteps)].
  { destruct (train_phase config s0) as [[[]|e] s1]; simpl in *; [done|].
    exists []. rewrite Htr, Hs0, <-app_assoc. split; [done|].
    repeat split; unfold count; simpl; lia. }
  pose proof (count_steps_update steps Hsteps) as Hup.
  pose proof (count_steps_iter steps Hsteps) as Hit.
  pose proof (count_steps_zero is_epoch steps ltac:(done) ltac:(done)
                ltac:(done) Hsteps) as Hep.
  destruct (train_phase config s0) as [[[]|e] s1] eqn:Htrain; simpl in *; [|done].
  destruct (appends_bind quiet (collect_phase config i)
              (λ _, test_phase config i) quiet_app
              (appends_collect_phase i) (λ _, appends_test_phase i) s1)
    as (evs & Htr' & Hq1 & Hq2 & Hq3).
  eexists. split.
  { rewrite Htr', Htr, Hs0, <-!app_assoc. simpl. reflexivity. }
  rewrite !count_cons, !count_app, Hup, Hep, Hq1, Hq2, Hq3.
  simpl. lia.
Qed.

Lemma run_bounded (k : nat) (f : FileSystem) (w : World) :
  let st := (main_upto config k (init_state f w)).2 in
  count is_epoch (trace st) ≤ k ∧
  count is_update (trace st) ≤ k * Z.to_nat (training_steps config) ∧
  count is_iter (trace st) ≤ k * (Z.to_nat (training_steps config) + 1).
Proof.
  induction k as [|k IH]; simpl.
  - rewrite main_upto_0.
    destruct (post_init config (init_state f w)) as [[[]|e] st1] eqn:Hp.
    + destruct (startup_Ok config f w st1 Hp) as (st & Hs & Htr & _).
      rewrite Hs. simpl. rewrite Htr.
      destruct (startup_trace_counts config w) as (-> & -> & ->). done.
    + destruct (startup_Raise config f w e st1 Hp) as (Hrun & _ & _ & Htr).
      specialize (Hrun 0). rewrite main_upto_0 in Hrun. rewrite Hrun. simpl.
      destruct Htr as [-> | ->]; done.
  - rewrite main_upto_S. unfold bind. simpl in IH.
    destruct (main_upto config k (init_state f w)) as [[[]|e] st1]; simpl in *.
    + destruct (epoch_any k st1) as (evs & -> & H1 & H2 & H3).
      rewrite !count_app, !count_cons, H1. simpl. lia.
    + lia.
Qed.

End Store.

Section Outcomes.
Context {T : Carriers} {C : Collaborators}.
Variable config : DreamerConfig.

(** * Runs that stop, runs that complete *)

Lemma main_upto_Ok_inv (k : nat) (st0 st : State) :
  main_upto config k st0 = (Ok (), st) →
  ∃ s, startup config st0 = (Ok (), s) ∧
       for_range k (λ i _, epoch config i) () s = (Ok (), st).
Proof.
  unfold main_upto, bind.
  destruct (startup config st0) as [[[]|e] s]; [|done]. intros H. by exists s.
Qed.


(** * No run ends with [StopIteration] *)



Lemma sum_steps_without_test (rnd : bool) (tr : list event) :
  sum_steps TrainCollector rnd
    (filter (λ e, is_collect_by TestCollector e = false) tr)
  = sum_steps TrainCollector rnd tr.
Proof.
  induction tr as [|e tr IH]; [done|].
  destruct (is_collect_by TestCollector e) eqn:He.
  - rewrite filter_cons_False by (rewrite He; done).
    rewrite IH. unfold sum_steps. simpl.
    destruct e as [| | | | |c n b r| | | | | | | | | | | |]; try done.
    simpl in *. apply bool_decide_eq_true in He as ->.
    case_bool_decide as Hc; [by destruct Hc | lia].
  - rewrite filter_cons_True by done. unfold sum_steps in *. simpl. by rewrite IH.
Qed.

Lemma scan_dir_insert_stocked (f : gmap string File) (d : FileSystem)
    (p : string) (c : File) :
  scan_dir (data_dir config) {| files := f; dirs := dirs d |} ≠ ∅ →
  scan_dir (data_dir config) {| files := <[p := c]> f; dirs := dirs d |} ≠ ∅.
Proof.
  unfold scan_dir. simpl. intros Hne Hempty. apply Hne.
  apply map_empty. intros q. apply eq_None_not_Some. intros [x Hx].
  apply map_lookup_filter_Some in Hx as [Hx Hq]. simpl in Hq.
  destruct (decide (p = q)) as [->|Hpq].
  - assert (filter (λ kv, String.prefix (Path.join (data_dir config) "") kv.1 = true)
              (<[q := c]> f) !! q = Some c) as Hin.
    { apply map_lookup_filter_Some. split; [apply lookup_insert_eq | done]. }
    rewrite Hempty in Hin. done.
  - assert (filter (λ kv, String.prefix (Path.join (data_dir config) "") kv.1 = true)
              (<[p := c]> f) !! q = Some x) as Hin.
    { apply map_lookup_filter_Some. split; [by rewrite lookup_insert_ne | done]. }
    rewrite Hempty in Hin. done.
Qed.

Lemma stocked_files (st st' : State) (p : string) (c : File) :
  files (fs st') = <[p := c]> (files (fs st)) → stocked config st → stocked config st'.
Proof.
  unfold stocked. intros Hf Hs.
  pose proof (scan_dir_insert_stocked (files (fs st)) (fs st) p c) as H.
  unfold scan_dir in *. simpl in *. rewrite Hf. by apply H.
Qed.

Section Completes.

(** The contract of the collector: as many episodes as asked for. *)
Hypothesis collect_contract : ∀ w c n rnd,
  length (cr_episodes (collect_oracle w c n rnd).1) = Z.to_nat n.
(** A dataset over a listing with files has windows. *)
Hypothesis dataset_stocked : ∀ ds, ds_files ds ≠ ∅ → 0 < dataset_len ds.
Hypothesis batch_size_pos : (0 < batch_size config)%Z.
Hypothesis test_every_ne_0 : test_every config ≠ 0%Z.

Lemma epoch_completes (i : nat) (st : State) :
  stocked config st →
  ∃ st', epoch config i st = (Ok (), st') ∧ stocked config st'.
Proof.
  intros Hst. rewrite epoch_unfold. set (s0 := (emit (EvEpoch i) st).2).
  assert (Hpos : 0 < len_loader (epoch_loader config s0)).
  { apply len_loader_pos; [done|]. by apply dataset_stocked. }
  destruct (train_phase_completes config s0 batch_size_pos Hpos)
    as (steps & Hr & (Hf1 & _ & _) & _).
  unfold bind at 1.
  destruct (train_phase config s0) as [[[]|e] s1]; simpl in *; [|done].
  pose proof (collect_phase_spec config i s1) as Hc. simpl in Hc.
  destruct Hc as (_ & _ & _ & Hc).
  pose proof (collect_contract (world s1) TrainCollector 1%Z false) as Hlen.
  destruct (cr_episodes _) as [|data others]; [done|].
  destruct Hc as (Hrc & Hfc & _).
  unfold bind.
  destruct (collect_phase config i s1) as [[[]|e] s2]; simpl in *; [|done].
  assert (Hs2 : stocked config s2).
  { eapply (stocked_files s1); [done|]. unfold stocked. by rewrite Hf1. }
  destruct (decide (Z.of_nat i `mod` test_every config = 0)%Z) as [Hm|Hm].
  - pose proof (test_phase_run config i s2 test_every_ne_0 Hm) as Ht. simpl in Ht.
    destruct Ht as (_ & _ & Hft & Ht).
    pose proof (collect_contract (world s2) TestCollector 1%Z false) as Hlen'.
    destruct (cr_episodes _) as [|tdata tothers]; [done|].
    destruct Ht as [Hrt _].
    destruct (test_phase config i s2) as [[[]|e] s3]; simpl in *; [|done].
    exists s3. split; [done|]. by eapply stocked_files.
  - rewrite test_phase_skip by done. by exists s2.
Qed.

Lemma prefill_stocked (f : FileSystem) (w : World) (st1 st : State) :
  post_init config (init_state f w) = (Ok (), st1) →
  startup config (init_state f w) = (Ok (), st) →
  scan_dir (data_dir config) f ≠ ∅ →
  stocked config st.
Proof.
  intros Hp Hs Hf.
  pose proof (run_good config f w st1 0 Hp) as Hg.
  rewrite main_upto_0, Hs in Hg. destruct Hg as (_ & Hfiles & _).
  simpl in Hfiles. unfold stocked.
  assert (∀ tr m, scan_dir (data_dir config) {| files := m; dirs := dirs f |} ≠ ∅ →
            scan_dir (data_dir config)
              {| files := replay tr m; dirs := dirs f |} ≠ ∅) as Hrep.
  { induction tr as [|e tr IH]; intros m Hm; [done|].
    unfold replay in *. simpl. apply IH.
    destruct e; try done; by apply (scan_dir_insert_stocked m f). }
  specialize (Hrep (trace st) (files f)).
  unfold scan_dir in *. simpl in *. rewrite Hfiles. by apply Hrep.
Qed.

(** With directories that can be created and a data directory that is not
    empty, every prefix of the run completes. *)
Lemma run_completes (k : nat) (f : FileSystem) (w : World) (s2 : State) :
  post_init config (init_state f w) = (Ok (), s2) →
  scan_dir (data_dir config) f ≠ ∅ →
  ∃ st, main_upto config k (init_state f w) = (Ok (), st) ∧ stocked config st.
Proof.
  intros Hp Hscan.
  destruct (startup_Ok config f w s2 Hp) as (s3 & Hs & _ & _).
  induction k as [|k IH].
  - rewrite main_upto_0. exists s3. split; [done|]. by eapply prefill_stocked.
  - destruct IH as (st & Hrun & Hst).
    destruct (epoch_completes k st Hst) as (st' & He & Hst').
    exists st'. split; [|done]. rewrite main_upto_S.
    by rewrite (bind_Ok _ _ _ _ _ Hrun).
Qed.

End Completes.
End Outcomes.

(** * The claims *)

Section Claims.
Context {T : Carriers} {C : Collaborators}.
Variable config : DreamerConfig.



(** C3.  Every epoch starts by building a new dataset over the data
    directory; and when epoch [i] has completed, the archive of its episode
    is in the store and is part of the listing that the dataset of epoch
    [i + 1] is built from. *)
Theorem dataset_sees_last_episode (i : nat) (f : FileSystem) (w : World) (st : State) :
  main_upto config (S i) (init_state f w) = (Ok (), st) →
  (∀ j s, ∃ rest,
     trace (epoch config j s).2
     = trace s ++ EvEpoch j :: EvDataset (epoch_dataset config s) :: rest) ∧
  ∃ data,
    (episode_path config i, data) ∈ savez_events (trace st) ∧
    files (fs st) !! episode_path config i = Some (NpzFile data) ∧
    ds_files (epoch_dataset config st) !! episode_path config i
    = Some (NpzFile data).
Proof.
  intros Hrun. split.
  { intros j s. destruct (epoch_any config j s) as (rest & Htr & _).
    by exists rest. }
  destruct (main_upto_S_Ok config i _ _ Hrun) as (st1 & Hk & He).
  apply epoch_Ok_summary in He as (seg & _ & data & _ & Htr & _ & _ & Hsz & _).
  assert (Hin : (episode_path config i, data) ∈ savez_events (trace st)).
  { rewrite Htr, savez_events_app, Hsz. apply elem_of_app. right. by left. }
  exists data. split; [done|].
  pose proof (run_files config (S i) f w st _ _ Hrun Hin) as Hfile.
  split; [done|]. by apply scan_dir_episode.
Qed.

(** C4.  A checkpoint save is the write of one file holding the parameter
    blob; and the name of every checkpoint a run saves is the decimal
    rendering of the environment steps the training collector had reported
    by then, with the suffix [.pt], in the model directory. *)
Theorem checkpoint_named_by_env_steps (k : nat) (f : FileSystem) (w : World)
    (n : nat) (path : string) (blob : Params) :
  trace (main_upto config k (init_state f w)).2 !! n = Some (EvTorchSave path blob) →
  path = Path.join (model_dir config)
           (pretty (trained_steps
                      (take n (trace (main_upto config k (init_state f w)).2)))
            +:+ ".pt") ∧
  ∀ st,
    (torch_save path st).1 = Ok () ∧
    files (fs (torch_save path st).2)
    = <[path := PtFile (state_dict (world st))]> (files (fs st)) ∧
    trace (torch_save path st).2
    = trace st ++ [EvTorchSave path (state_dict (world st))].
Proof.
  intros Hn. split.
  - destruct (run_cases config f w k) as [Hg|(_ & _ & _ & Htr)].
    + destruct Hg as (_ & _ & _ & _ & Ha). by destruct (Ha n _ Hn) as [_ Hr].
    + simpl in Htr. destruct Htr as [Htr|Htr]; rewrite Htr in Hn.
      * done.
      * by destruct n as [|[|n]].
  - intros st. unfold torch_save, write_file. mrun. repeat split. by trace_norm.
Qed.

(** C5.  In a completed epoch the value logged under ["env_steps"] is
    [total_env_steps] times [action_repeats]; when the epoch goes on to save
    a checkpoint, the checkpoint is named after the same [total_env_steps],
    not multiplied. *)
Theorem logged_steps_are_scaled (i : nat) (st st' : State) :
  epoch config i st = (Ok (), st') →
  ∃ before data after,
    trace st'
    = trace st ++ before
      ++ [EvLog [("env_steps"%string,
                  LInt (total_env_steps st' * action_repeats config));
                 ("agent/training_return"%string, LReturn data)]]
      ++ after ∧
    ((Z.of_nat i `mod` test_every config = 0)%Z →
     ∃ blob rest,
       after = EvPrint "Testing..."
               :: EvTorchSave
                    (Path.join (model_dir config)
                       (pretty (total_env_steps st') +:+ ".pt")) blob
               :: rest).
Proof.
  intros H. apply epoch_Ok_spec in H
    as (_ & _ & steps & res & data & others & tail & _ & _ & _ & _ & _ & _
        & Htr & Htail).
  exists (EvEpoch i :: setup_events config st ++ concat steps
          ++ [EvResetAgent TrainCollector; EvCollect TrainCollector 1 false res;
              EvSavez (episode_path config i) data]), data, tail.
  split.
  { rewrite Htr. unfold collect_events. simpl. rewrite <-!app_assoc. done. }
  intros Hm. destruct Htail as [(_ & blob & tres & tdata & -> & _)|(Hne & _)].
  - by eexists _, _.
  - done.
Qed.

(** C6.  With a collector that returns as many episodes as it is asked for,
    a run that completed [k] epochs has archived exactly the episodes the
    training collector returned, in order, one archive each; the names are
    [pre_0.npz], [pre_1.npz], ... for the prefill and [0.npz], ...,
    [k-1.npz] for the epochs, all different; and every archive is in the
    store with the episode it was written with. *)
Theorem store_is_append_only (k : nat) (f : FileSystem) (w : World) (st : State) :
  (∀ w' c n rnd, length (cr_episodes (collect_oracle w' c n rnd).1) = Z.to_nat n) →
  main_upto config k (init_state f w) = (Ok (), st) →
  ∃ n,
    (savez_events (trace st)).*1
    = ((λ j, Path.join (data_dir config) ("pre_" +:+ pretty j +:+ ".npz")) <$> seq 0 n)
      ++ ((λ j, Path.join (data_dir config) (pretty j +:+ ".npz")) <$> seq 0 k) ∧
    (savez_events (trace st)).*2 = train_collected (trace st) ∧
    NoDup (savez_events (trace st)).*1 ∧
    ∀ p ep, (p, ep) ∈ savez_events (trace st) →
            files (fs st) !! p = Some (NpzFile ep).
Proof.
  intros Hcontract Hrun.
  destruct (run_saved config k f w st Hrun) as (pre & datas & Hsaved & Hlen & Hcol).
  assert (Hpaths : (savez_events (trace st)).*1
    = (prefill_path config <$> seq 0 (length pre))
      ++ (episode_path config <$> seq 0 k)).
  { rewrite Hsaved, fmap_app, !fst_zip; [done|..];
      rewrite length_fmap, length_seq; lia. }
  exists (length pre). split; [exact Hpaths|]. split; [|split].
  - rewrite Hcol by done. rewrite Hsaved, fmap_app, !snd_zip; [done|..];
      rewrite length_fmap, length_seq; lia.
  - rewrite Hpaths. apply store_paths_NoDup.
  - intros p ep Hin. by eapply run_files.
Qed.


(** C8.  Wherever a run stands after [k] iterations of the epoch loop,
    completed or not, [total_env_steps] is the steps reported by the
    prefill collection plus the steps reported by the training collector in
    the epochs; the prefill part is what the one prefill call returned (zero
    without prefill, and zero when the run stopped at the creation of the
    directories); and erasing every call of the test collector from the
    trace does not change the sum. *)
Theorem total_env_steps_accounting (k : nat) (f : FileSystem) (w : World) :
  let st := (main_upto config k (init_state f w)).2 in
  total_env_steps st = (prefill_steps (trace st) + epoch_steps (trace st))%Z ∧
  prefill_steps (trace st)
  = match (post_init config (init_state f w)).1 with
    | Ok _ => prefill_count config w
    | Raise _ => 0%Z
    end ∧
  ((prefill_episodes config ≤ 0)%Z → prefill_steps (trace st) = 0%Z) ∧
  total_env_steps st
  = trained_steps (filter (λ e, is_collect_by TestCollector e = false) (trace st)).
Proof.
  simpl.
  assert (Hmain : total_env_steps (main_upto config k (init_state f w)).2
                  = trained_steps (trace (main_upto config k (init_state f w)).2)
                  ∧ prefill_steps (trace (main_upto config k (init_state f w)).2)
                    = match (post_init config (init_state f w)).1 with
                      | Ok _ => prefill_count config w
                      | Raise _ => 0%Z
                      end).
  { destruct (post_init config (init_state f w)) as [[[]|e] st1] eqn:Hp; simpl.
    - destruct (run_good config f w st1 k Hp) as (_ & _ & Ht & Hpre & _). done.
    - destruct (startup_Raise config f w e st1 Hp) as (Hrun & _ & Ht & Htr).
      rewrite Hrun. simpl. rewrite Ht. by destruct Htr as [-> | ->]. }
  destruct Hmain as [Htot Hpre]. split; [done|]. split; [done|]. split.
  - intros Hle. rewrite Hpre. destruct (post_init _ _).1; [|done].
    unfold prefill_count. by rewrite bool_decide_false by lia.
  - rewrite Htot. unfold trained_steps, prefill_steps, epoch_steps.
    by rewrite !sum_steps_without_test.
Qed.

(** C9.  The loop is bounded.  However the run ends, it has started at most
    1000 epochs, made at most [training_steps] updates per epoch and built
    at most one iterator per epoch and one more per step.  A run that ends
    without an exception has made exactly 1000 epochs, each of exactly
    [training_steps] updates followed by one call of the training collector
    for one episode. *)
Theorem loop_is_bounded (f : FileSystem) (w : World) :
  let r := main_with config (init_state f w) in
  (count is_epoch (trace r.2) ≤ 1000 ∧
   count is_update (trace r.2) ≤ 1000 * Z.to_nat (training_steps config) ∧
   count is_iter (trace r.2) ≤ 1000 * (Z.to_nat (training_steps config) + 1)) ∧
  (r.1 = Ok () →
   ∃ segs,
     trace r.2 = startup_trace config w ++ concat segs ∧
     length segs = 1000 ∧
     count is_epoch (startup_trace config w) = 0 ∧
     count is_update (startup_trace config w) = 0 ∧
     ∀ i seg, segs !! i = Some seg → epoch_segment config i seg).
Proof.
  simpl. unfold main_with. split; [apply (run_bounded config 1000)|].
  intros Hr.
  destruct (main_upto config 1000 (init_state f w)) as [[[]|e] st] eqn:Hrun;
    [|done].
  destruct (run_segments config 1000 f w st Hrun) as (segs & Htr & Hlen & Hsegs).
  destruct (startup_trace_counts config w) as (He & Hu & _).
  by exists segs.
Qed.

(** C10.  The two directories are made by the construction of the
    configuration, before anything else.  When the construction returns,
    both paths are directories, no file was touched, and nothing else has
    happened; the two are still directories in whatever state the run ends,
    and every other event of the run (environment, agent, collectors,
    training and collection steps) comes after their creation.  When a
    directory cannot be made, the construction raises an [OSError], and
    [main] ends with that exception at once, having done nothing else than,
    possibly, made the first directory. *)
Theorem directories_first (k : nat) (f : FileSystem) (w : World) :
  let r := main_upto config k (init_state f w) in
  (∀ st1, post_init config (init_state f w) = (Ok (), st1) →
     isdir (fs st1) (data_dir config) = true ∧
     isdir (fs st1) (model_dir config) = true ∧
     files (fs st1) = files f ∧
     trace st1 = [EvMakedirs (data_dir config); EvMakedirs (model_dir config)] ∧
     isdir (fs r.2) (data_dir config) = true ∧
     isdir (fs r.2) (model_dir config) = true ∧
     all_events (dirs_first config) (trace r.2)) ∧
  (∀ e st1, post_init config (init_state f w) = (Raise e, st1) →
     r = (Raise e, st1) ∧
     is_OSError e = true ∧
     files (fs st1) = files f ∧
     total_env_steps st1 = 0%Z ∧
     (trace st1 = [] ∨ trace st1 = [EvMakedirs (data_dir config)])).
Proof.
  simpl. split.
  - intros st1 Hp.
    pose proof (post_init_dirs config (init_state f w)) as [_ Hd].
    rewrite Hp in Hd. simpl in Hd. destruct Hd as [Hd1 Hd2].
    destruct (post_init_cases config (init_state f w))
      as [(st' & H & Hf & _ & _ & Htr)|(e' & st' & H & _)]; [|congruence].
    rewrite Hp in H. injection H as <-.
    assert (Hkeep : ∀ p, isdir (fs st1) p = true →
              isdir (fs (main_upto config k (init_state f w)).2) p = true).
    { intros p. apply isdir_mono. by rewrite (run_dirs config f w st1 k Hp). }
    split; [done|]. split; [done|]. split; [done|]. split; [done|].
    split; [by apply Hkeep|]. split; [by apply Hkeep|].
    destruct (run_good config f w st1 k Hp) as (_ & _ & _ & _ & Ha).
    intros n e Hn. by destruct (Ha n e Hn).
  - intros e st1 Hp.
    destruct (startup_Raise config f w e st1 Hp) as (Hrun & Hf & Ht & Htr).
    pose proof (post_init_dirs config (init_state f w)) as [_ Hos].
    rewrite Hp in Hos. by repeat split.
Qed.

End Claims.

(** * Further properties of the driver *)

(** ** Names *)

Lemma pretty_Z_no_sep (z : Z) (s : string) :
  Path.starts_with_sep (pretty z +:+ s) = false.
Proof.
  destruct (Path.starts_with_sep _) eqn:E; [|done].
  apply starts_with_sep_head in E.
  destruct z as [|p|p].
  - done.
  - assert (Hp : pretty (Z.pos p) = pretty_N_go (N.pos p) "") by reflexivity.
    rewrite Hp in E.
    destruct (pretty_N_go_head (N.pos p) "" ltac:(left; lia)) as (c & Hc & Hd).
    rewrite head_char_app in E by (by destruct (pretty_N_go (N.pos p) "")).
    rewrite Hc in E. injection E as ->. done.
  - done.
Qed.

Section Names.
Context {T : Carriers} {C : Collaborators}.
Variable config : DreamerConfig.

Lemma checkpoint_path_dir (z : Z) :
  checkpoint_path config z = Path.join (model_dir config) "" +:+ pretty z +:+ ".pt".
Proof. unfold checkpoint_path. apply join_dir, pretty_Z_no_sep. Qed.

Lemma checkpoint_path_inj (z z' : Z) :
  checkpoint_path config z = checkpoint_path config z' → z = z'.
Proof.
  rewrite !checkpoint_path_dir. intros H.
  apply (inj (String.append _)) in H.
  apply string_app_inj_r in H. by apply (inj pretty).
Qed.

(** X1.  The three kinds of file name the driver uses never meet, whatever
    the two directories are (even one and the same): an episode archive is
    no prefill archive and no checkpoint, and within each kind different
    indices (or step counts) give different names. *)
Theorem store_names_apart (i j : nat) (z z' : Z) :
  episode_path config i ≠ prefill_path config j ∧
  episode_path config i ≠ checkpoint_path config z ∧
  prefill_path config j ≠ checkpoint_path config z ∧
  (episode_path config i = episode_path config j → i = j) ∧
  (prefill_path config i = prefill_path config j → i = j) ∧
  (checkpoint_path config z = checkpoint_path config z' → z = z').
Proof.
  split; [apply episode_path_ne_prefill|].
  split; [apply episode_path_ne_checkpoint|].
  split; [apply prefill_path_ne_checkpoint|].
  split; [apply episode_path_inj|].
  split; [apply prefill_path_inj | apply checkpoint_path_inj].
Qed.

End Names.

Section Setup.
Context {T : Carriers} {C : Collaborators}.
Variable config : DreamerConfig.

(** ** The construction of the configuration *)

(** X2.  [exist_ok=True]: the construction of the configuration can be
    repeated.  In a state that a successful [__post_init__] has left, a
    second one returns as well, whatever the system would refuse for a new
    directory, and leaves the file system as it is. *)
Theorem post_init_idempotent (st st1 : State) :
  post_init config st = (Ok (), st1) →
  ∃ st2,
    post_init config st1 = (Ok (), st2) ∧
    fs st2 = fs st1 ∧
    world st2 = world st1 ∧
    total_env_steps st2 = total_env_steps st1.
Proof.
  unfold post_init. intros Hp.
  destruct (makedirs_cases (data_dir config) st)
    as [(sa & H1 & _)|(e & sa & H1 & _)];
    [|by rewrite (bind_Raise _ _ _ _ _ H1) in Hp].
  rewrite (bind_Ok _ _ _ _ _ H1) in Hp.
  destruct (makedirs_spec (model_dir config) sa) as (Hf & Hd & _).
  rewrite Hp in Hf, Hd. simpl in Hf, Hd.
  destruct (makedirs_again (data_dir config) st sa st1 H1 Hf Hd)
    as (sb & H3 & Hfs3 & Hw3 & Ht3).
  rewrite (bind_Ok _ _ _ _ _ H3).
  destruct (makedirs_again (model_dir config) sa st1 sb Hp)
    as (sc & H4 & Hfs4 & Hw4 & Ht4); [by rewrite Hfs3..|].
  exists sc. split; [done|]. by rewrite Hfs4, Hw4, Ht4.
Qed.

(** ** The prefill *)

(** X3.  What the code before the epoch loop has done when it is through.
    With [prefill_episodes > 0] it has called the training collector once,
    with random actions, has set [total_env_steps] to the steps that call
    reported, and has archived every episode the call returned, however
    many, under [pre_0], [pre_1], ... in the order returned; otherwise it
    has collected and archived nothing and [total_env_steps] is 0. *)
Theorem prefill_archives_what_it_gets (f : FileSystem) (w : World) (st : State) :
  startup config (init_state f w) = (Ok (), st) →
  if bool_decide (prefill_episodes config > 0)%Z then
    let r := (collect_oracle w TrainCollector (prefill_episodes config) true).1 in
    total_env_steps st = cr_env_steps r ∧
    savez_events (trace st)
    = zip (prefill_path config <$> seq 0 (length (cr_episodes r))) (cr_episodes r) ∧
    filter (λ e, is_collect_by TrainCollector e = true) (trace st)
    = [EvCollect TrainCollector (prefill_episodes config) true r]
  else
    total_env_steps st = 0%Z ∧
    savez_events (trace st) = [] ∧
    count (is_collect_by TrainCollector) (trace st) = 0.
Proof.
  intros Hrun.
  destruct (main_upto_Ok_startup config 0 f w st) as [st1 Hp];
    [by rewrite main_upto_0|].
  destruct (startup_Ok config f w st1 Hp) as (st' & Hs & Htr & Hg).
  rewrite Hs in Hrun. injection Hrun as ->.
  destruct Hg as (_ & _ & Ht & _). rewrite Ht, Htr.
  assert (Htot : trained_steps (startup_trace config w) = prefill_count config w).
  { unfold startup_trace. rewrite trained_steps_app.
    destruct (prefill_trace_steps config w) as [Hp1 Hp2].
    unfold trained_steps at 2. rewrite Hp1, Hp2. clear. steps_norm. }
  rewrite Htot. unfold startup_trace, prefill_trace, prefill_count.
  case_bool_decide as Hpre.
  - split; [done|]. split.
    + rewrite !savez_events_app, prefill_events_saved. simpl. by rewrite app_nil_r.
    + assert (∀ i l, filter (λ e, is_collect_by TrainCollector e = true)
                (prefill_events config i l) = []) as Hnone.
      { intros i l. revert i. induction l as [|ep l IH]; intros i; [done|].
        simpl. rewrite filter_cons_False by done. apply IH. }
      rewrite !filter_app, Hnone. done.
  - done.
Qed.

(** ** The epoch counter *)

Lemma epoch_ticks_app (a b : list event) :
  epoch_ticks (a ++ b) = epoch_ticks a ++ epoch_ticks b.
Proof. apply omap_app. Qed.

Lemma epoch_ticks_none (evs : list event) :
  count is_epoch evs = 0 → epoch_ticks evs = [].
Proof.
  induction evs as [|e evs IH]; [done|].
  rewrite count_cons. destruct e; simpl; try (intros; apply IH; lia).
  lia.
Qed.

(** X4.  However a run ends, the epochs it started are 0, 1, ..., m-1, each
    once and in this order, for some m up to the length of the loop; and a
    run that ends without an exception started them all. *)
Theorem epoch_ticks_consecutive (k : nat) (f : FileSystem) (w : World) :
  ∃ m, m ≤ k ∧
    epoch_ticks (trace (main_upto config k (init_state f w)).2) = seq 0 m ∧
    ((main_upto config k (init_state f w)).1 = Ok () → m = k).
Proof.
  induction k as [|k IH].
  - exists 0. split; [done|]. split; [|done].
    apply epoch_ticks_none.
    pose proof (run_bounded config 0 f w) as (H & _). simpl in H. lia.
  - destruct IH as (m & Hm & Hticks & Hok).
    rewrite main_upto_S. unfold bind.
    destruct (main_upto config k (init_state f w)) as [[[]|e] st1]; simpl in *.
    + specialize (Hok eq_refl). subst m.
      destruct (epoch_any config k st1) as (evs & Htr & Hep & _).
      exists (S k). split; [done|]. split; [|done].
      rewrite Htr, epoch_ticks_app, Hticks, seq_S. f_equal.
      change (EvEpoch k :: EvDataset (epoch_dataset config st1) :: evs)
        with ([EvEpoch k; EvDataset (epoch_dataset config st1)] ++ evs).
      rewrite epoch_ticks_app, (epoch_ticks_none evs) by done. done.
    + exists m. split; [lia|]. split; [done|done].
Qed.

End Setup.

Section Sampling.
Context {T : Carriers} {C : Collaborators}.

(** ** The cadence of the iterator restarts *)

Lemma train_step_pos (dl : DataLoader) (it : Iter) (st : State) :
  it_loader it = dl →
  0 < len_loader dl →
  it_pos it ≤ len_loader dl →
  ∃ it' evs,
    (train_step dl it st).1 = Ok it' ∧
    it_loader it' = dl ∧
    trace (train_step dl it st).2 = trace st ++ evs ∧
    (it_pos it < len_loader dl ∧ it_pos it' = S (it_pos it)
     ∧ count is_exhausted evs = 0 ∧ count is_iter evs = 0
     ∨ it_pos it = len_loader dl ∧ it_pos it' = 1
       ∧ count is_exhausted evs = 1 ∧ count is_iter evs = 1).
Proof.
  intros <- Hpos Hle.
  unfold train_step, try_except_StopIteration, next, iter, dreamer_update.
  mrun. case_bool_decide as Hlt; mrun.
  - destruct (fetch_oracle _ _ _) as [b w'] eqn:Hf. simpl.
    eexists _, _. split; [done|]. split; [done|].
    split; [by trace_norm|]. left. done.
  - case_bool_decide as Hfresh; [|lia]. mrun.
    destruct (fetch_oracle _ _ _) as [b w'] eqn:Hf. simpl.
    eexists _, _. split; [done|]. split; [done|].
    split; [by trace_norm|]. right. repeat split; [lia|done..].
Qed.

Lemma train_loop_pos (dl : DataLoader) (n : nat) (it : Iter) (st : State) :
  it_loader it = dl →
  it_pos it = 0 →
  0 < len_loader dl →
  let r := for_range n (λ _ data_iter, train_step dl data_iter) it st in
  ∃ it' evs,
    r.1 = Ok it' ∧
    it_loader it' = dl ∧
    trace r.2 = trace st ++ evs ∧
    n = count is_exhausted evs * len_loader dl + it_pos it' ∧
    it_pos it' ≤ len_loader dl ∧
    (0 < n → 0 < it_pos it') ∧
    count is_iter evs = count is_exhausted evs.
Proof.
  intros Hdl Hzero Hpos. induction n as [|n IH]; simpl.
  - exists it, []. rewrite app_nil_r, Hzero. repeat split; [done|lia..].
  - destruct IH as (it1 & evs & Hr & Hdl1 & Htr & Hn & Hle & _ & Hit).
    unfold bind.
    destruct (for_range n _ it st) as [[it1'|e] st1]; simpl in *; [|done].
    injection Hr as ->.
    destruct (train_step_pos dl it1 st1 Hdl1 Hpos Hle)
      as (it2 & evs' & Hr2 & Hdl2 & Htr2 & Hcase).
    exists it2, (evs ++ evs'). split; [done|]. split; [done|].
    split; [by rewrite Htr2, Htr, app_assoc|].
    rewrite !count_app.
    destruct Hcase as [(Hlt & Hp & -> & ->)|(Heq & Hp & -> & ->)];
      rewrite Hp; repeat split; lia.
Qed.

(** X5.  In a training phase over a loader of [L >= 1] batches, the
    iterator is replaced exactly every [L] steps: the [training_steps]
    steps meet [(training_steps - 1) / L] exhausted iterators, and each of
    them is answered by one fresh iterator, beside the one the phase starts
    with. *)
Theorem restarts_every_len (config : DreamerConfig) (st : State) :
  (0 < batch_size config)%Z →
  0 < len_loader (epoch_loader config st) →
  count is_exhausted (trace (train_phase config st).2)
  = count is_exhausted (trace st)
    + (Z.to_nat (training_steps config) - 1) / len_loader (epoch_loader config st) ∧
  count is_iter (trace (train_phase config st).2)
  = count is_iter (trace st) + 1
    + (Z.to_nat (training_steps config) - 1) / len_loader (epoch_loader config st).
Proof.
  intros Hbs Hpos.
  assert (Hlen : dataset_len (epoch_dataset config st) ≠ 0).
  { intros Hz. rewrite (len_loader_empty (epoch_loader config st)) in Hpos by done.
    lia. }
  unfold train_phase, TrajectoryDataset, new_DataLoader, iter. mrun.
  fold (epoch_dataset config st).
  rewrite bool_decide_false by done.
  rewrite bool_decide_false by lia. simpl.
  fold (epoch_loader config st).
  match goal with |- context [for_range ?n ?body ?it ?s] =>
    pose proof (train_loop_pos (epoch_loader config st) n it s eq_refl eq_refl Hpos)
      as Hloop;
    simpl in Hloop;
    destruct Hloop as (it' & evs & Hr & _ & Htr & Hn & Hle & Hp & Hit);
    destruct (for_range n body it s) as [[it1|e] st1]
  end; simpl in *; [|done].
  assert (Hdiv : (Z.to_nat (training_steps config) - 1)
                 / len_loader (epoch_loader config st)
                 = count is_exhausted evs).
  { destruct (Z.to_nat (training_steps config)) as [|m] eqn:Hm.
    - assert (count is_exhausted evs = 0) as -> by nia.
      by apply Nat.div_small.
    - specialize (Hp ltac:(lia)). symmetry.
      apply (Nat.div_unique _ _ _ (it_pos it' - 1)); [lia|]. nia. }
  rewrite Hdiv, Htr.
  match goal with |- context [trace ?s ++ evs] =>
    assert (trace s = trace st ++ setup_events config st) as -> by by trace_norm
  end.
  rewrite !count_app, Hit. unfold count. simpl. lia.
Qed.

End Sampling.

Section Cadence.
Context {T : Carriers} {C : Collaborators}.
Variable config : DreamerConfig.

(** ** How often a completed run tests *)

Lemma startup_trace_untested (w : World) :
  count is_checkpoint (startup_trace config w) = 0 ∧
  count (is_collect_by TestCollector) (startup_trace config w) = 0.
Proof.
  unfold startup_trace, prefill_trace. rewrite !count_app.
  case_bool_decide; [|done].
  rewrite !count_app, !prefill_events_count by done. done.
Qed.

Lemma epoch_Ok_counts (i : nat) (st st' : State) :
  epoch config i st = (Ok (), st') →
  let t := if bool_decide (Z.of_nat i `mod` test_every config = 0)%Z then 1 else 0 in
  count is_checkpoint (trace st') = count is_checkpoint (trace st) + t ∧
  count (is_collect_by TestCollector) (trace st')
  = count (is_collect_by TestCollector) (trace st) + t ∧
  count is_update (trace st')
  = count is_update (trace st) + Z.to_nat (training_steps config).
Proof.
  intros H. apply epoch_Ok_spec in H
    as (_ & _ & steps & res & data & others & tail & Hlen & Hsteps & _ & _ & _ & _
        & Htr & Htail).
  rewrite Htr, !count_app, !count_cons, !count_app.
  rewrite count_steps_update, !count_steps_zero by done.
  rewrite Hlen.
  destruct Htail as [(Hm & blob & tres & tdata & -> & _)|(Hm & -> & _)].
  - rewrite bool_decide_true by done. unfold test_events, count. simpl. lia.
  - rewrite bool_decide_false by done. unfold count. simpl. lia.
Qed.

(** X6.  A run that completed [k] epochs saved one checkpoint and ran one
    test episode for each epoch index in [0, k) that [test_every] divides,
    and none beside; and it made [k * training_steps] optimization
    steps. *)
Theorem completed_run_counts (k : nat) (f : FileSystem) (w : World) (st : State) :
  main_upto config k (init_state f w) = (Ok (), st) →
  let tests :=
    length (filter (λ i, (Z.of_nat i `mod` test_every config = 0)%Z) (seq 0 k)) in
  count is_checkpoint (trace st) = tests ∧
  count (is_collect_by TestCollector) (trace st) = tests ∧
  count is_update (trace st) = k * Z.to_nat (training_steps config).
Proof.
  revert st. induction k as [|k IH]; intros st Hrun.
  - rewrite main_upto_0 in Hrun.
    destruct (main_upto_Ok_startup config 0 f w st) as [st1 Hp];
      [by rewrite main_upto_0|].
    destruct (startup_Ok config f w st1 Hp) as (st' & Hs & Htr & _).
    rewrite Hs in Hrun. injection Hrun as <-. rewrite Htr.
    destruct (startup_trace_untested w) as (-> & ->).
    destruct (startup_trace_counts config w) as (_ & -> & _). done.
  - apply main_upto_S_Ok in Hrun as (st1 & Hk & He).
    destruct (IH st1 Hk) as (H1 & H2 & H3).
    apply epoch_Ok_counts in He as (E1 & E2 & E3). cbv zeta in *.
    rewrite E1, E2, E3, H1, H2, H3, seq_S, filter_app, length_app. simpl.
    split; [|split; [|lia]].
    + f_equal. case_bool_decide as Hm.
      * by rewrite filter_cons_True.
      * by rewrite filter_cons_False.
    + f_equal. case_bool_decide as Hm.
      * by rewrite filter_cons_True.
      * by rewrite filter_cons_False.
Qed.

(** ** A test cadence of zero *)

Lemma epoch_zero_test_every (i : nat) (st : State) :
  test_every config = 0%Z →
  (0 < batch_size config)%Z →
  0 < len_loader (epoch_loader config st) →
  (∀ w, cr_episodes (collect_oracle w TrainCollector 1 false).1 ≠ []) →
  let r := epoch config i st in
  r.1 = Raise ZeroDivisionError ∧
  count is_epoch (trace r.2) = count is_epoch (trace st) + 1 ∧
  count is_update (trace r.2)
  = count is_update (trace st) + Z.to_nat (training_steps config) ∧
  count is_checkpoint (trace r.2) = count is_checkpoint (trace st) ∧
  ∃ data, files (fs r.2) = <[episode_path config i := NpzFile data]> (files (fs st)).
Proof.
  intros Hz Hbs Hpos Hcol. simpl.
  rewrite epoch_unfold. set (s0 := (emit (EvEpoch i) st).2).
  assert (Hs0 : trace s0 = trace st ++ [EvEpoch i]) by apply trace_emit.
  destruct (train_phase_completes config s0 Hbs Hpos)
    as (steps & Hr & (Hf1 & _ & Htr1) & Hlen & Hsteps).
  destruct (train_phase config s0) as [[[]|e] s1] eqn:Htrain; simpl in *; [|done].
  rewrite (bind_Ok _ _ _ _ _ Htrain).
  pose proof (collect_phase_spec config i s1) as Hc. simpl in Hc.
  destruct Hc as (_ & _ & _ & Hc).
  specialize (Hcol (world s1)).
  destruct (cr_episodes _) as [|data others]; [done|].
  destruct Hc as (Hrc & Hfc & Htr2).
  destruct (collect_phase config i s1) as [[[]|e] s2] eqn:Hcp; simpl in *; [|done].
  rewrite (bind_Ok _ _ _ _ _ Hcp), test_phase_zero by done. simpl.
  split; [done|].
  rewrite Htr2, Htr1, Hs0, !count_app, !count_cons.
  rewrite count_steps_update, !count_steps_zero by done.
  rewrite Hlen. unfold collect_events, setup_events, count. simpl.
  split; [lia|]. split; [lia|]. split; [lia|].
  exists data. by rewrite Hfc, Hf1.
Qed.

(** X7.  With [test_every = 0] the condition [i % test_every == 0] cannot
    be evaluated: a run that gets through its first training phase ends
    with [ZeroDivisionError] at the end of epoch 0, after the
    [training_steps] optimization steps and with the epoch's episode
    archived, and without any checkpoint. *)
Theorem zero_test_every_ends_first_epoch (f : FileSystem) (w : World) (st0 : State) :
  test_every config = 0%Z →
  (0 < batch_size config)%Z →
  main_upto config 0 (init_state f w) = (Ok (), st0) →
  0 < len_loader (epoch_loader config st0) →
  (∀ w, cr_episodes (collect_oracle w TrainCollector 1 false).1 ≠ []) →
  let r := main_with config (init_state f w) in
  r.1 = Raise ZeroDivisionError ∧
  count is_epoch (trace r.2) = 1 ∧
  count is_update (trace r.2) = Z.to_nat (training_steps config) ∧
  count is_checkpoint (trace r.2) = 0 ∧
  ∃ data, files (fs r.2) !! episode_path config 0 = Some (NpzFile data).
Proof.
  intros Hz Hbs Hrun Hpos Hcol. simpl.
  destruct (epoch_zero_test_every 0 st0 Hz Hbs Hpos Hcol)
    as (Hr & Hep & Hup & Hck & data & Hfiles).
  destruct (main_upto_Ok_startup config 0 f w st0 Hrun) as [st1 Hp].
  destruct (startup_Ok config f w st1 Hp) as (st' & Hs & Htr & _).
  rewrite main_upto_0, Hs in Hrun. injection Hrun as ->.
  assert (Hmain : main_with config (init_state f w) = epoch config 0 st0).
  { unfold main_with, main_upto. rewrite (bind_Ok _ _ _ _ _ Hs).
    destruct (epoch config 0 st0) as [o s] eqn:He. simpl in Hr. subst o.
    apply (for_range_Raise 0 1000 _ () st0 () st0); [reflexivity | exact He | lia]. }
  rewrite Hmain, Hr, Hep, Hup, Hck, Htr, Hfiles, lookup_insert_eq.
  destruct (startup_trace_untested w) as (-> & _).
  destruct (startup_trace_counts config w) as (-> & -> & _).
  split; [done|]. split; [done|]. split; [done|]. split; [done|]. by exists data.
Qed.

(** ** After the first epoch *)

Lemma epoch_Ok_archive (i : nat) (st st' : State) :
  epoch config i st = (Ok (), st') →
  ∃ data, files (fs st') !! episode_path config i = Some (NpzFile data).
Proof.
  intros H. apply epoch_Ok_spec in H
    as (_ & _ & steps & res & data & others & tail & _ & _ & _ & _ & _ & _ & _ & Htail).
  exists data.
  destruct Htail as [(_ & blob & tres & tdata & _ & ->)|(_ & _ & ->)].
  - rewrite lookup_insert_ne by (intros Heq; symmetry in Heq;
                                  by apply episode_path_ne_checkpoint in Heq).
    apply lookup_insert_eq.
  - apply lookup_insert_eq.
Qed.

(** X8.  The store does not run empty again.  After a completed epoch the
    listing of the data directory holds that epoch's archive; so, if a
    dataset over a listing with files has windows, every training phase
    started on the files the epoch left gets its loader and makes all its
    steps: the constructor's refusal of an empty dataset can meet a run
    only before its first epoch has completed. *)
Theorem later_epochs_find_batches (i : nat) (st st' s : State) :
  epoch config i st = (Ok (), st') →
  (∀ ds, ds_files ds ≠ ∅ → 0 < dataset_len ds) →
  fs s = fs st' →
  ∃ data steps,
    ds_files (epoch_dataset config s) !! episode_path config i = Some (NpzFile data) ∧
    (train_phase config s).1 = Ok () ∧
    trace (train_phase config s).2
    = trace s ++ setup_events config s ++ concat steps ∧
    length steps = Z.to_nat (training_steps config) ∧
    Forall train_step_events steps.
Proof.
  intros He Hds Hfs.
  destruct (epoch_Ok_archive i st st' He) as [data Hin].
  apply epoch_Ok_spec in He as (Hbs & _).
  apply (scan_dir_episode config) in Hin.
  assert (Hlist : ds_files (epoch_dataset config s) !! episode_path config i
                  = Some (NpzFile data)).
  { unfold epoch_dataset. simpl. by rewrite Hfs. }
  assert (Hlen : dataset_len (epoch_dataset config s) ≠ 0).
  { assert (0 < dataset_len (epoch_dataset config s)); [|lia].
    apply Hds. intros Hempty. rewrite Hempty in Hlist. done. }
  destruct (train_phase_built config s Hlen Hbs)
    as (steps & Hr & (_ & _ & Htr) & Hl & Hsteps).
  by exists data, steps.
Qed.

End Cadence.

Section Footprint.
Context {T : Carriers} {C : Collaborators}.
Variable config : DreamerConfig.

(** ** Where a run writes *)

Lemma named_app (a b : list event) :
  named config a → named config b → named config (a ++ b).
Proof. intros Ha Hb. apply Forall_app. by split. Qed.

Lemma named_silent (evs : list event) :
  Forall (λ e, silent e = true) evs → named config evs.
Proof. intros H. eapply Forall_impl; [done|]. intros e He. by destruct e. Qed.

Lemma named_prefill_events (eps : list Episode) (i : nat) :
  named config (prefill_events config i eps).
Proof.
  revert i. induction eps as [|ep eps IH]; intros i; simpl; [constructor|].
  constructor; [|apply IH]. left. by exists i.
Qed.

Lemma named_startup_trace (w : World) : named config (startup_trace config w).
Proof.
  unfold startup_trace, prefill_trace. apply named_app; [by repeat constructor|].
  case_bool_decide; [|by repeat constructor].
  apply named_app; [by repeat constructor|].
  apply named_app; [apply named_prefill_events | by repeat constructor].
Qed.

Lemma appends_for_range (P : list event → Prop) {A} (n : nat)
    (body : nat → A → M A) (a : A) :
  P [] → (∀ x y, P x → P y → P (x ++ y)) →
  (∀ i x, appends P (body i x)) → appends P (for_range n body a).
Proof.
  intros Hnil Happ Hb. induction n as [|n IH].
  - intros st. exists []. by rewrite app_nil_r.
  - simpl. by apply appends_bind.
Qed.

Lemma named_train_phase : appends (named config) (train_phase config).
Proof.
  intros st.
  destruct (train_phase_cases config st)
    as [(_ & _ & _ & _ & Htr)|(steps & _ & _ & _ & (_ & _ & Htr) & _ & Hsteps)].
  - eexists. split; [done|]. by repeat constructor.
  - eexists. split; [done|]. apply named_silent.
    apply Forall_app. split; [by repeat constructor|].
    by apply silent_steps_events.
Qed.

Lemma named_collect_phase (i : nat) : appends (named config) (collect_phase config i).
Proof.
  intros st. pose proof (collect_phase_spec config i st) as H. simpl in H.
  destruct H as (_ & _ & _ & H).
  destruct (cr_episodes _); destruct H as (_ & _ & ->);
    (eexists; split; [done|]).
  - by repeat constructor.
  - unfold collect_events. constructor; [done|]. constructor; [done|].
    constructor; [right; by exists i|]. by repeat constructor.
Qed.

Lemma named_test_phase (i : nat) : appends (named config) (test_phase config i).
Proof.
  intros st. destruct (decide (test_every config = 0%Z)) as [Hz|Hz].
  { rewrite test_phase_zero by done. exists []. rewrite app_nil_r. split; [done|constructor]. }
  destruct (decide (Z.of_nat i `mod` test_every config = 0)%Z) as [Hm|Hm].
  2: { rewrite test_phase_skip by done. exists []. rewrite app_nil_r. split; [done|constructor]. }
  pose proof (test_phase_run config i st Hz Hm) as H. simpl in H.
  destruct H as (_ & _ & _ & H).
  destruct (cr_episodes _); destruct H as (_ & ->);
    (eexists; split; [done|]); unfold test_events;
    (constructor; [done|]); (constructor; [by eexists|]); by repeat constructor.
Qed.

Lemma named_epoch (i : nat) : appends (named config) (epoch config i).
Proof.
  unfold epoch. apply appends_bind; [apply named_app| |intros _].
  { intros st. exists [EvEpoch i]. split; [apply trace_emit | by repeat constructor]. }
  apply appends_bind; [apply named_app|apply named_train_phase|intros _].
  apply appends_bind; [apply named_app|apply named_collect_phase|intros _].
  apply named_test_phase.
Qed.

(** Every write of a run, however it ends, goes to a file named by the
    driver. *)
Lemma run_named (k : nat) (f : FileSystem) (w : World) :
  named config (trace (main_upto config k (init_state f w)).2).
Proof.
  destruct (post_init config (init_state f w)) as [[[]|e] st1] eqn:Hp.
  - destruct (startup_Ok config f w st1 Hp) as (st & Hs & Htr & _).
    unfold main_upto. rewrite (bind_Ok _ _ _ _ _ Hs).
    destruct (appends_for_range (named config) k (λ i _, epoch config i) ()
                ltac:(constructor) named_app (λ i _, named_epoch i) st)
      as (evs & -> & Hn).
    apply named_app; [|done]. rewrite Htr. apply named_startup_trace.
  - destruct (startup_Raise config f w e st1 Hp) as (Hrun & _ & _ & Htr).
    rewrite Hrun. simpl. destruct Htr as [-> | ->]; by repeat constructor.
Qed.

(** X9.  The driver's own writes go to its two directories, under its own
    names, in every run and however the run ends: each call of
    [np.savez_compressed] writes [pre_<j>.npz] or [<i>.npz] below
    [data_dir], each call of [torch.save] writes [<steps>.pt] below
    [model_dir]. *)
Theorem writes_are_named (k : nat) (f : FileSystem) (w : World) (e : event) :
  e ∈ trace (main_upto config k (init_state f w)).2 →
  match e with
  | EvSavez q _ =>
      ((∃ j, q = prefill_path config j) ∨ (∃ i, q = episode_path config i)) ∧
      String.prefix (Path.join (data_dir config) "") q = true
  | EvTorchSave q _ =>
      (∃ z, q = checkpoint_path config z) ∧
      String.prefix (Path.join (model_dir config) "") q = true
  | _ => True
  end.
Proof.
  intros Hin. pose proof (run_named k f w) as Hnamed.
  unfold named in Hnamed. rewrite Forall_forall in Hnamed.
  specialize (Hnamed e Hin). destruct e; try done; simpl in Hnamed.
  - split; [done|]. destruct Hnamed as [[j ->]|[i ->]].
    + rewrite prefill_path_dir. apply string_prefix_app.
    + rewrite episode_path_dir. apply string_prefix_app.
  - split; [done|]. destruct Hnamed as [z ->].
    rewrite checkpoint_path_dir. apply string_prefix_app.
Qed.

(** ** Checkpoints are kept *)

Lemma checkpoint_names_app (a b : list event) :
  checkpoint_names (a ++ b) = checkpoint_names a ++ checkpoint_names b.
Proof. apply omap_app. Qed.

Lemma checkpoint_names_none (evs : list event) :
  count is_checkpoint evs = 0 → checkpoint_names evs = [].
Proof.
  induction evs as [|e evs IH]; [done|].
  rewrite count_cons. destruct e; simpl; try (intros; apply IH; lia).
  lia.
Qed.

Lemma silent_no_checkpoint (evs : list event) :
  Forall (λ e, silent e = true) evs → count is_checkpoint evs = 0.
Proof.
  induction 1 as [|e evs He _ IH]; [done|].
  rewrite count_cons, IH. by destruct e.
Qed.

Lemma apart_extend (st st' : State) (evs : list event) :
  trace st' = trace st ++ evs →
  count is_checkpoint evs = 0 →
  (total_env_steps st ≤ total_env_steps st')%Z →
  checkpoints_apart config st → checkpoints_apart config st'.
Proof.
  intros Htr Hnone Hle (zs & Hzs & Hnd & Hall). exists zs.
  rewrite Htr, checkpoint_names_app, (checkpoint_names_none evs), app_nil_r by done.
  split; [done|]. split; [done|].
  eapply Forall_impl; [done|]. simpl. intros z Hz. lia.
Qed.

Lemma replay_lookup_checkpoint (tr : list event) (m : gmap string File)
    (p : string) (blob : Params) :
  NoDup (checkpoint_names tr) →
  EvTorchSave p blob ∈ tr →
  (∀ q ep, EvSavez q ep ∈ tr → q ≠ p) →
  replay tr m !! p = Some (PtFile blob).
Proof.
  induction tr as [|e tr IH] using rev_ind; intros Hnd Hin Hsz.
  { by apply elem_of_nil in Hin. }
  rewrite replay_snoc. rewrite checkpoint_names_app in Hnd.
  assert (Hsz' : ∀ q ep, EvSavez q ep ∈ tr → q ≠ p).
  { intros q ep Hq. apply (Hsz q ep), elem_of_app. by left. }
  apply elem_of_app in Hin as [Hin|Hin].
  - assert (Hp : p ∈ checkpoint_names tr).
    { apply list_elem_of_omap. by exists (EvTorchSave p blob). }
    destruct e as [| | | | | |q ep'| | | | | | | | | | |q blob'];
      try (simpl in *; rewrite app_nil_r in Hnd; by apply IH).
    + simpl in *. rewrite app_nil_r in Hnd.
      rewrite lookup_insert_ne; [by apply IH|].
      apply (Hsz q ep'), elem_of_app. right. by left.
    + simpl in *. apply NoDup_app in Hnd as (Hnd & Hdisj & _).
      rewrite lookup_insert_ne; [by apply IH|].
      intros ->. apply (Hdisj p Hp). by left.
  - apply list_elem_of_singleton in Hin as <-. simpl. apply lookup_insert_eq.
Qed.

Section Progress.

(** Every episode the agent collects takes at least one environment step. *)
Hypothesis steps_positive : ∀ w,
  (0 < cr_env_steps (collect_oracle w TrainCollector 1 false).1)%Z.

Lemma apart_collect_test (i : nat) :
  keeps (checkpoints_apart config)
        (bind (collect_phase config i) (λ _, test_phase config i)).
Proof.
  intros st (zs & Hzs & Hnd & Hall).
  pose proof (collect_phase_spec config i st) as Hc. simpl in Hc.
  destruct Hc as (Htot & _ & _ & Hc).
  pose proof (steps_positive (world st)) as Hpos.
  assert (Hlt : Forall (λ z, (z < total_env_steps (collect_phase config i st).2)%Z) zs).
  { eapply Forall_impl; [done|]. simpl. intros z Hz. lia. }
  assert (Hnames : checkpoint_names (trace (collect_phase config i st).2)
                   = checkpoint_path config <$> zs).
  { destruct (cr_episodes _); destruct Hc as (_ & _ & ->);
      rewrite checkpoint_names_app, Hzs; simpl; by rewrite app_nil_r. }
  clear Hc Htot.
  destruct (collect_phase config i st) as [[[]|e] s2] eqn:Hcp; simpl in *.
  2: { rewrite (bind_Raise _ _ _ _ _ Hcp). simpl. exists zs.
       split; [done|]. split; [done|].
       eapply Forall_impl; [done|]. simpl. intros z Hz. lia. }
  rewrite (bind_Ok _ _ _ _ _ Hcp).
  assert (Hs2 : checkpoints_apart config s2).
  { exists zs. split; [done|]. split; [done|].
    eapply Forall_impl; [done|]. simpl. intros z Hz. lia. }
  destruct (decide (test_every config = 0%Z)) as [Hz|Hz].
  { by rewrite test_phase_zero. }
  destruct (decide (Z.of_nat i `mod` test_every config = 0)%Z) as [Hm|Hm].
  2: { by rewrite test_phase_skip. }
  pose proof (test_phase_run config i s2 Hz Hm) as Ht. simpl in Ht.
  destruct Ht as (Htot' & _ & _ & Ht).
  exists (zs ++ [total_env_steps s2]). split; [|split].
  - destruct (cr_episodes _); destruct Ht as (_ & ->);
      rewrite checkpoint_names_app, Hnames, fmap_app; done.
  - apply NoDup_app. split; [done|]. split; [|apply NoDup_singleton].
    intros z Hz1 Hz2%list_elem_of_singleton.
    rewrite Forall_forall in Hlt. specialize (Hlt z Hz1). lia.
  - rewrite Htot'. apply Forall_app. split; [|by repeat constructor].
    eapply Forall_impl; [done|]. simpl. intros z Hz'. lia.
Qed.

Lemma apart_epoch (i : nat) : keeps (checkpoints_apart config) (epoch config i).
Proof.
  unfold epoch. apply keeps_bind.
  { intros st. apply (apart_extend _ _ [EvEpoch i]); [apply trace_emit|done|done]. }
  intros _. apply keeps_bind; [|intros _; apply apart_collect_test].
  intros st.
  destruct (train_phase_cases config st)
    as [(_ & _ & _ & Ht & Htr)|(steps & _ & _ & _ & (_ & Ht & Htr) & _ & Hsteps)].
  - eapply apart_extend; [done|done|lia].
  - eapply apart_extend; [done| |lia].
    apply silent_no_checkpoint.
    apply Forall_app. split; [by repeat constructor|].
    by apply silent_steps_events.
Qed.

Lemma run_apart (k : nat) (f : FileSystem) (w : World) :
  checkpoints_apart config (main_upto config k (init_state f w)).2.
Proof.
  destruct (post_init config (init_state f w)) as [[[]|e] st1] eqn:Hp.
  - destruct (startup_Ok config f w st1 Hp) as (st & Hs & Htr & _).
    unfold main_upto. rewrite (bind_Ok _ _ _ _ _ Hs).
    apply keeps_for_range; [intros i []; apply apart_epoch|].
    exists []. rewrite Htr. split; [|split; [constructor|constructor]].
    apply checkpoint_names_none, startup_trace_untested.
  - destruct (startup_Raise config f w e st1 Hp) as (Hrun & _ & _ & Htr).
    rewrite Hrun. simpl. exists [].
    split; [|split; [constructor|constructor]].
    destruct Htr as [-> | ->]; done.
Qed.

End Progress.

(** X10.  When every episode the agent collects takes at least one
    environment step, no checkpoint is ever overwritten: the checkpoints of
    a run have different names, and every one of them is in the store, with
    the parameters it was saved with, in whatever state the run ends. *)
Theorem checkpoints_are_kept (k : nat) (f : FileSystem) (w : World) :
  (∀ w, (0 < cr_env_steps (collect_oracle w TrainCollector 1 false).1)%Z) →
  let st := (main_upto config k (init_state f w)).2 in
  NoDup (checkpoint_names (trace st)) ∧
  ∀ p blob, EvTorchSave p blob ∈ trace st → files (fs st) !! p = Some (PtFile blob).
Proof.
  intros Hpos. simpl.
  destruct (run_apart Hpos k f w) as (zs & Hzs & Hnd & _).
  assert (Hdistinct : NoDup (checkpoint_names
                               (trace (main_upto config k (init_state f w)).2))).
  { rewrite Hzs. apply (NoDup_fmap_2_strong _); [|done].
    intros x y _ _. apply checkpoint_path_inj. }
  split; [done|]. intros p blob Hin.
  pose proof (run_named k f w) as Hnamed.
  destruct (run_cases config f w k) as [(_ & Hfiles & _)|(_ & _ & _ & Htr)].
  - rewrite Hfiles. apply replay_lookup_checkpoint; [done..|].
    intros q ep Hq ->. unfold named in Hnamed. rewrite Forall_forall in Hnamed.
    destruct (Hnamed _ Hin) as [z Hz].
    destruct (Hnamed _ Hq) as [[j Hj]|[i Hi]]; rewrite Hz in *.
    + symmetry in Hj. by apply prefill_path_ne_checkpoint in Hj.
    + symmetry in Hi. by apply episode_path_ne_checkpoint in Hi.
  - destruct Htr as [Htr|Htr]; rewrite Htr in Hin.
    + by apply elem_of_nil in Hin.
    + apply list_elem_of_singleton in Hin. done.
Qed.

End Footprint.

Section Failures.
Context {T : Carriers} {C : Collaborators}.
Variable config : DreamerConfig.

(** ** Exceptions that end the first epoch *)

(** An exception in the epoch that follows a completed prefix is the
    outcome of [main]. *)
Lemma main_with_Raise (j : nat) (s st st' : State) (e : exn) :
  j < 1000 →
  main_upto config j s = (Ok (), st) →
  epoch config j st = (Raise e, st') →
  main_with config s = (Raise e, st').
Proof.
  intros Hj Hrun He.
  apply main_upto_Ok_inv in Hrun as (s1 & Hs & Hloop).
  unfold main_with, main_upto. rewrite (bind_Ok _ _ _ _ _ Hs).
  by apply (for_range_Raise j 1000 _ () s1 () st).
Qed.

(** X11.  A batch size of zero or less is refused by the loader's
    constructor: the run ends with [ValueError] in epoch 0, right after the
    dataset was built, before any iterator, batch or optimization step, and
    with the store and the step counter as the start-up left them. *)
Theorem nonpositive_batch_size_ends_run (s st0 : State) :
  (batch_size config ≤ 0)%Z →
  main_upto config 0 s = (Ok (), st0) →
  let r := main_with config s in
  r.1 = Raise ValueError ∧
  trace r.2 = trace st0 ++ [EvEpoch 0; EvDataset (epoch_dataset config st0)] ∧
  fs r.2 = fs st0 ∧
  total_env_steps r.2 = total_env_steps st0.
Proof.
  intros Hbs Hrun. simpl.
  set (s0 := (emit (EvEpoch 0) st0).2).
  destruct (train_phase_bad_batch_size config s0 Hbs) as (Hr & Hf & Ht & Htr).
  destruct (train_phase config s0) as [o s1] eqn:Htrain. simpl in *. subst o.
  assert (He : epoch config 0 st0 = (Raise ValueError, s1)).
  { rewrite epoch_unfold. by apply bind_Raise. }
  rewrite (main_with_Raise 0 s st0 s1 ValueError ltac:(lia) Hrun He). simpl.
  split; [done|]. split; [|done]. rewrite Htr. unfold s0. by trace_norm.
Qed.

(** X12.  [data[0]] needs an episode: if the training collector returns
    none, the run ends with [IndexError] in epoch 0, after the epoch's
    [training_steps] optimization steps and after the reported steps were
    added to [total_env_steps], and without having written anything. *)
Theorem empty_collection_ends_run (s st0 : State) :
  (0 < batch_size config)%Z →
  main_upto config 0 s = (Ok (), st0) →
  0 < len_loader (epoch_loader config st0) →
  (∀ w, cr_episodes (collect_oracle w TrainCollector 1 false).1 = []) →
  let r := main_with config s in
  r.1 = Raise IndexError ∧
  files (fs r.2) = files (fs st0) ∧
  count is_update (trace r.2)
  = count is_update (trace st0) + Z.to_nat (training_steps config) ∧
  savez_events (trace r.2) = savez_events (trace st0) ∧
  ∃ w, total_env_steps r.2
       = (total_env_steps st0
          + cr_env_steps (collect_oracle w TrainCollector 1 false).1)%Z.
Proof.
  intros Hbs Hrun Hpos Hcol. simpl.
  set (s0 := (emit (EvEpoch 0) st0).2).
  assert (Hs0 : trace s0 = trace st0 ++ [EvEpoch 0]) by apply trace_emit.
  destruct (train_phase_completes config s0 Hbs Hpos)
    as (steps & Hr & (Hf1 & Ht1 & Htr1) & Hlen & Hsteps).
  destruct (train_phase config s0) as [o s1] eqn:Htrain.
  simpl in Hr, Hf1, Ht1, Htr1. subst o.
  pose proof (collect_phase_spec config 0 s1) as Hc. cbv zeta in Hc.
  destruct Hc as (Htot & _ & _ & Hc). rewrite (Hcol (world s1)) in Hc.
  destruct Hc as (Hrc & Hfc & Htr2).
  destruct (collect_phase config 0 s1) as [o s2] eqn:Hcp.
  simpl in Hrc, Htot, Hfc, Htr2. subst o.
  assert (He : epoch config 0 st0 = (Raise IndexError, s2)).
  { rewrite epoch_unfold. fold s0. rewrite (bind_Ok _ _ _ _ _ Htrain).
    by apply bind_Raise. }
  rewrite (main_with_Raise 0 s st0 s2 IndexError ltac:(lia) Hrun He).
  simpl. split; [done|].
  split; [by rewrite Hfc, Hf1|].
  split; [|split].
  - rewrite Htr2, Htr1, Hs0, !count_app, !count_cons.
    rewrite count_steps_update, Hlen by done.
    unfold count. simpl. lia.
  - rewrite Htr2, Htr1, Hs0, !savez_events_app.
    change (EvDataset (epoch_dataset config s0) :: EvLoader (epoch_loader config s0)
            :: EvIter :: EvTrainMode :: concat steps)
      with (setup_events config s0 ++ concat steps).
    rewrite savez_events_app.
    rewrite (savez_events_silent (concat steps)) by by apply silent_steps_events.
    simpl. by rewrite !app_nil_r.
  - exists (world s1). by rewrite Htot, Ht1.
Qed.

End Failures.

(** * The claims on the concrete collaborators *)

Import Demo.



Lemma dataset_sees_last_episode_witness :
  (∀ j s, ∃ rest,
     trace (epoch small_config j s).2
     = trace s ++ EvEpoch j :: EvDataset (epoch_dataset small_config s) :: rest) ∧
  ∃ data,
    (episode_path small_config 0, data) ∈ savez_events (trace (small_run 1).2) ∧
    files (fs (small_run 1).2) !! episode_path small_config 0
    = Some (NpzFile data) ∧
    ds_files (epoch_dataset small_config (small_run 1).2)
      !! episode_path small_config 0
    = Some (NpzFile data).
Proof.
  apply (dataset_sees_last_episode small_config 0 empty_fs 0 (small_run 1).2).
  apply (outcome_eta (small_run 1)). vm_compute. reflexivity.
Defined.

Lemma checkpoint_named_by_env_steps_witness :
  trace (small_run 1).2 !! 30
  = Some (EvTorchSave "/home/scott/tmp/dreamer/cartpole_swingup/1/models/1500.pt" 10) ∧
  "/home/scott/tmp/dreamer/cartpole_swingup/1/models/1500.pt"
  = Path.join (model_dir small_config)
      (pretty (trained_steps (take 30 (trace (small_run 1).2))) +:+ ".pt").
Proof.
  split; [vm_compute; reflexivity|].
  apply (checkpoint_named_by_env_steps small_config 1 empty_fs 0 30
           "/home/scott/tmp/dreamer/cartpole_swingup/1/models/1500.pt" 10).
  vm_compute. reflexivity.
Defined.

Lemma logged_steps_are_scaled_witness :
  ∃ before data after,
    trace (epoch small_config 0 (small_run 0).2).2
    = trace (small_run 0).2 ++ before
      ++ [EvLog [("env_steps"%string,
                  LInt (total_env_steps (epoch small_config 0 (small_run 0).2).2
                        * action_repeats small_config));
                 ("agent/training_return"%string, LReturn data)]]
      ++ after ∧
    ((Z.of_nat 0 `mod` test_every small_config = 0)%Z →
     ∃ blob rest,
       after = EvPrint "Testing..."
               :: EvTorchSave
                    (Path.join (model_dir small_config)
                       (pretty (total_env_steps
                                  (epoch small_config 0 (small_run 0).2).2)
                        +:+ ".pt")) blob
               :: rest).
Proof.
  apply (logged_steps_are_scaled small_config 0 (small_run 0).2
           (epoch small_config 0 (small_run 0).2).2).
  apply (outcome_eta (epoch small_config 0 (small_run 0).2)).
  vm_compute. reflexivity.
Defined.

Lemma store_is_append_only_witness :
  ∃ n,
    (savez_events (trace (small_run 2).2)).*1
    = ((λ j, Path.join (data_dir small_config) ("pre_" +:+ pretty j +:+ ".npz"))
         <$> seq 0 n)
      ++ ((λ j, Path.join (data_dir small_config) (pretty j +:+ ".npz")) <$> seq 0 2) ∧
    (savez_events (trace (small_run 2).2)).*2 = train_collected (trace (small_run 2).2) ∧
    NoDup (savez_events (trace (small_run 2).2)).*1 ∧
    ∀ p ep, (p, ep) ∈ savez_events (trace (small_run 2).2) →
            files (fs (small_run 2).2) !! p = Some (NpzFile ep).
Proof.
  apply (store_is_append_only small_config 2 empty_fs 0 (small_run 2).2).
  - intros w' c n rnd. simpl. apply length_replicate.
  - apply (outcome_eta (small_run 2)). vm_compute. reflexivity.
Defined.


Lemma total_env_steps_accounting_witness :
  total_env_steps (small_run 2).2
  = (prefill_steps (trace (small_run 2).2) + epoch_steps (trace (small_run 2).2))%Z.
Proof.
  exact (proj1 (total_env_steps_accounting small_config 2 empty_fs 0)).
Defined.

(** The default run on a machine that holds an episode completes. *)
Lemma used_run_completes : (main (init_state used_fs 0)).1 = Ok ().
Proof.
  assert (Hscan : scan_dir (data_dir default_config) used_fs ≠ ∅).
  { intros Hempty.
    assert (scan_dir (data_dir default_config) used_fs
              !! Path.join (data_dir default_config) "0.npz" = Some (NpzFile 7)) as H
      by (vm_compute; reflexivity).
    rewrite Hempty in H. done. }
  assert (Hrun : ∃ st, main_upto default_config 1000 (init_state used_fs 0)
                       = (Ok (), st) ∧ stocked default_config st).
  { apply (run_completes default_config) with
      (s2 := (post_init default_config (init_state used_fs 0)).2).
    - intros w' c n rnd. simpl. apply length_replicate.
    - intros ds Hne. simpl. case_decide; [contradiction | lia].
    - reflexivity.
    - discriminate.
    - apply (outcome_eta (post_init default_config (init_state used_fs 0))).
      vm_compute. reflexivity.
    - exact Hscan. }
  destruct Hrun as (st & Hrun & _).
  unfold main, main_with. rewrite Hrun. reflexivity.
Qed.

Lemma loop_is_bounded_witness :
  ∃ segs,
    trace (main (init_state used_fs 0)).2
    = startup_trace default_config 0 ++ concat segs ∧
    length segs = 1000 ∧
    count is_epoch (startup_trace default_config 0) = 0 ∧
    count is_update (startup_trace default_config 0) = 0 ∧
    ∀ i seg, segs !! i = Some seg → epoch_segment default_config i seg.
Proof.
  exact (proj2 (loop_is_bounded default_config used_fs 0) used_run_completes).
Defined.

Lemma directories_first_witness :
  (∀ e st1, post_init default_config (init_state blocked_fs 0) = (Raise e, st1) →
     main_upto default_config 1000 (init_state blocked_fs 0) = (Raise e, st1) ∧
     is_OSError e = true ∧
     files (fs st1) = files blocked_fs ∧
     total_env_steps st1 = 0%Z ∧
     (trace st1 = [] ∨ trace st1 = [EvMakedirs (data_dir default_config)])) ∧
  (post_init default_config (init_state blocked_fs 0)).1
  = Raise (FileExistsError (data_dir default_config)).
Proof.
  split.
  - exact (proj2 (directories_first default_config 1000 blocked_fs 0)).
  - vm_compute. reflexivity.
Defined.

(** * The further properties on the concrete collaborators *)

Lemma post_init_idempotent_witness :
  ∃ st2,
    post_init small_config (post_init small_config (init_state empty_fs 0)).2
    = (Ok (), st2) ∧
    fs st2 = fs (post_init small_config (init_state empty_fs 0)).2 ∧
    world st2 = world (post_init small_config (init_state empty_fs 0)).2 ∧
    total_env_steps st2
    = total_env_steps (post_init small_config (init_state empty_fs 0)).2.
Proof.
  apply (post_init_idempotent small_config (init_state empty_fs 0)
           (post_init small_config (init_state empty_fs 0)).2).
  apply (outcome_eta (post_init small_config (init_state empty_fs 0))).
  vm_compute. reflexivity.
Defined.

Lemma prefill_archives_what_it_gets_witness :
  if bool_decide (prefill_episodes small_config > 0)%Z then
    let r := (collect_oracle 0 TrainCollector (prefill_episodes small_config) true).1 in
    total_env_steps (startup small_config (init_state empty_fs 0)).2 = cr_env_steps r ∧
    savez_events (trace (startup small_config (init_state empty_fs 0)).2)
    = zip (prefill_path small_config <$> seq 0 (length (cr_episodes r)))
          (cr_episodes r) ∧
    filter (λ e, is_collect_by TrainCollector e = true)
      (trace (startup small_config (init_state empty_fs 0)).2)
    = [EvCollect TrainCollector (prefill_episodes small_config) true r]
  else
    total_env_steps (startup small_config (init_state empty_fs 0)).2 = 0%Z ∧
    savez_events (trace (startup small_config (init_state empty_fs 0)).2) = [] ∧
    count (is_collect_by TrainCollector)
      (trace (startup small_config (init_state empty_fs 0)).2) = 0.
Proof.
  apply (prefill_archives_what_it_gets small_config empty_fs 0
           (startup small_config (init_state empty_fs 0)).2).
  apply (outcome_eta (startup small_config (init_state empty_fs 0))).
  vm_compute. reflexivity.
Defined.

Lemma restarts_every_len_witness :
  count is_exhausted (trace (train_phase small_config (small_run 0).2).2)
  = count is_exhausted (trace (small_run 0).2)
    + (Z.to_nat (training_steps small_config) - 1)
      / len_loader (epoch_loader small_config (small_run 0).2) ∧
  count is_iter (trace (train_phase small_config (small_run 0).2).2)
  = count is_iter (trace (small_run 0).2) + 1
    + (Z.to_nat (training_steps small_config) - 1)
      / len_loader (epoch_loader small_config (small_run 0).2).
Proof.
  apply (restarts_every_len small_config (small_run 0).2).
  - reflexivity.
  - vm_compute. lia.
Defined.

Lemma completed_run_counts_witness :
  let tests :=
    length (filter (λ i, (Z.of_nat i `mod` test_every small_config = 0)%Z) (seq 0 3)) in
  count is_checkpoint (trace (small_run 3).2) = tests ∧
  count (is_collect_by TestCollector) (trace (small_run 3).2) = tests ∧
  count is_update (trace (small_run 3).2) = 3 * Z.to_nat (training_steps small_config).
Proof.
  apply (completed_run_counts small_config 3 empty_fs 0 (small_run 3).2).
  apply (outcome_eta (small_run 3)). vm_compute. reflexivity.
Defined.

Lemma zero_test_every_ends_first_epoch_witness :
  let r := main_with untested_config (init_state empty_fs 0) in
  r.1 = Raise ZeroDivisionError ∧
  count is_epoch (trace r.2) = 1 ∧
  count is_update (trace r.2) = Z.to_nat (training_steps untested_config) ∧
  count is_checkpoint (trace r.2) = 0 ∧
  ∃ data, files (fs r.2) !! episode_path untested_config 0 = Some (NpzFile data).
Proof.
  apply (zero_test_every_ends_first_epoch untested_config empty_fs 0
           (main_upto untested_config 0 (init_state empty_fs 0)).2).
  - reflexivity.
  - reflexivity.
  - apply (outcome_eta (main_upto untested_config 0 (init_state empty_fs 0))).
    vm_compute. reflexivity.
  - vm_compute. lia.
  - intros w. discriminate.
Defined.

Lemma later_epochs_find_batches_witness :
  ∃ data steps,
    ds_files (epoch_dataset small_config (epoch small_config 0 (small_run 0).2).2)
      !! episode_path small_config 0 = Some (NpzFile data) ∧
    (train_phase small_config (epoch small_config 0 (small_run 0).2).2).1 = Ok () ∧
    trace (train_phase small_config (epoch small_config 0 (small_run 0).2).2).2
    = trace (epoch small_config 0 (small_run 0).2).2
      ++ setup_events small_config (epoch small_config 0 (small_run 0).2).2
      ++ concat steps ∧
    length steps = Z.to_nat (training_steps small_config) ∧
    Forall train_step_events steps.
Proof.
  apply (later_epochs_find_batches small_config 0 (small_run 0).2
           (epoch small_config 0 (small_run 0).2).2
           (epoch small_config 0 (small_run 0).2).2).
  - apply (outcome_eta (epoch small_config 0 (small_run 0).2)).
    vm_compute. reflexivity.
  - intros ds Hne. simpl. case_decide; [contradiction | lia].
  - reflexivity.
Defined.

Lemma writes_are_named_witness :
  (∃ z, "/home/scott/tmp/dreamer/cartpole_swingup/1/models/1500.pt"
        = checkpoint_path small_config z) ∧
  String.prefix (Path.join (model_dir small_config) "")
    "/home/scott/tmp/dreamer/cartpole_swingup/1/models/1500.pt" = true.
Proof.
  apply (writes_are_named small_config 1 empty_fs 0
           (EvTorchSave (T := carriers)
              "/home/scott/tmp/dreamer/cartpole_swingup/1/models/1500.pt" 10)).
  apply (list_elem_of_lookup_2 _ 30). vm_compute. reflexivity.
Defined.

Lemma checkpoints_are_kept_witness :
  let st := (main_upto small_config 3 (init_state empty_fs 0)).2 in
  NoDup (checkpoint_names (trace st)) ∧
  ∀ p blob, EvTorchSave p blob ∈ trace st → files (fs st) !! p = Some (PtFile blob).
Proof.
  apply (checkpoints_are_kept small_config 3 empty_fs 0).
  intros w. reflexivity.
Defined.

Lemma nonpositive_batch_size_ends_run_witness :
  let r := main_with unbatched_config (init_state empty_fs 0) in
  r.1 = Raise ValueError ∧
  trace r.2
  = trace (main_upto unbatched_config 0 (init_state empty_fs 0)).2
    ++ [EvEpoch 0;
        EvDataset (epoch_dataset unbatched_config
                     (main_upto unbatched_config 0 (init_state empty_fs 0)).2)] ∧
  fs r.2 = fs (main_upto unbatched_config 0 (init_state empty_fs 0)).2 ∧
  total_env_steps r.2
  = total_env_steps (main_upto unbatched_config 0 (init_state empty_fs 0)).2.
Proof.
  apply (nonpositive_batch_size_ends_run unbatched_config (init_state empty_fs 0)
           (main_upto unbatched_config 0 (init_state empty_fs 0)).2).
  - reflexivity.
  - apply (outcome_eta (main_upto unbatched_config 0 (init_state empty_fs 0))).
    vm_compute. reflexivity.
Defined.

Lemma empty_collection_ends_run_witness :
  let r := main_with (C := idle) default_config (init_state used_fs 0) in
  let st0 := (main_upto (C := idle) default_config 0 (init_state used_fs 0)).2 in
  r.1 = Raise IndexError ∧
  files (fs r.2) = files (fs st0) ∧
  count is_update (trace r.2)
  = count is_update (trace st0) + Z.to_nat (training_steps default_config) ∧
  savez_events (trace r.2) = savez_events (trace st0) ∧
  ∃ w, total_env_steps r.2
       = (total_env_steps st0
          + cr_env_steps (collect_oracle (Collaborators := idle) w TrainCollector 1 false).1)%Z.
Proof.
  apply (empty_collection_ends_run (C := idle) default_config (init_state used_fs 0)
           (main_upto (C := idle) default_config 0 (init_state used_fs 0)).2).
  - reflexivity.
  - apply (outcome_eta (main_upto (C := idle) default_config 0 (init_state used_fs 0))).
    vm_compute. reflexivity.
  - vm_compute. lia.
  - intros w. reflexivity.
Defined.
